(** * RecurPost: the posting scheduler, the inventory API and the variant API

    A shallow embedding of [scheduler/main.py], [api/main.py],
    [tools/variant-api/main.py] and the three publish services, and the
    properties of the posting orchestration engine proved over it.

    Python dictionaries are finite maps from strings to values, a naive
    [datetime] is its number of microseconds since 0001-01-01T00:00:00,
    and the outside world (clock, random generator, HTTP peers) is an
    oracle queried in program order. *)

From Stdlib Require Import ZArith String Ascii List Bool Lia.
From stdpp Require Import base option list gmap strings.

Import ListNotations.
Open Scope string_scope.
Open Scope list_scope.
Open Scope Z_scope.

(** ** Python values and exceptions *)

(** The JSON values that travel between the services: [null], strings,
    integers and arrays. *)
#[warnings="-register-all"]
Inductive value : Type :=
  | VNone
  | VStr (s : string)
  | VInt (z : Z)
  | VList (l : list value).

Abbreviation dict := (gmap string value).

Inductive exn : Type :=
  | KeyError (key : string)
  | ValueError
  | TypeError
  | AttributeError
  | OverflowError
  | IndexError.

(** A computation that returns or raises. *)
Inductive outcome (A : Type) : Type :=
  | Ok (a : A)
  | Raise (e : exn).
Arguments Ok {A} a.
Arguments Raise {A} e.

Definition obind {A B} (o : outcome A) (f : A -> outcome B) : outcome B :=
  match o with
  | Ok a => f a
  | Raise e => Raise e
  end.

Declare Scope outcome_scope.
Delimit Scope outcome_scope with outcome.
Notation "'let?' x := c 'in' k" := (obind c (fun x => k))
  (at level 10, x pattern, c at level 100, k at level 200) : outcome_scope.

(** Python's [==] on values. *)
Fixpoint value_eqb (a b : value) : bool :=
  match a, b with
  | VNone, VNone => true
  | VStr s, VStr t => String.eqb s t
  | VInt x, VInt y => Z.eqb x y
  | VList l, VList m =>
      (fix go (l m : list value) : bool :=
         match l, m with
         | [], [] => true
         | x :: l', y :: m' => value_eqb x y && go l' m'
         | _, _ => false
         end) l m
  | _, _ => false
  end.

(** Python's truth value: [None], [""], [0] and [[]] are false. *)
Definition truthy (v : value) : bool :=
  match v with
  | VNone => false
  | VStr s => negb (String.eqb s "")
  | VInt z => negb (Z.eqb z 0)
  | VList l => match l with [] => false | _ => true end
  end.

(** [d[k]]: raises [KeyError] on a missing key. *)
Definition dict_item (d : dict) (k : string) : outcome value :=
  match d !! k with
  | Some v => Ok v
  | None => Raise (KeyError k)
  end.

(** [d.get(k, dflt)] and [d.get(k)]. *)
Definition dict_get_default (d : dict) (k : string) (dflt : value) : value :=
  match d !! k with
  | Some v => v
  | None => dflt
  end.

Definition dict_get (d : dict) (k : string) : value := dict_get_default d k VNone.

(** [a or b] on values. *)
Definition py_or (a b : value) : value := if truthy a then a else b.

(** ** The builtins used on time strings: [str.split] and [int] *)

(** The characters of a string are code points below 256.  [int] drops
    the ASCII white space and the two other spaces of that range, U+0085
    and U+00A0, around a number. *)
Definition is_space (c : ascii) : bool :=
  let n := nat_of_ascii c in
  ((9 <=? n)%nat && (n <=? 13)%nat) || (n =? 32)%nat
  || (n =? 133)%nat || (n =? 160)%nat.

Definition is_digit (c : ascii) : bool :=
  let n := nat_of_ascii c in (48 <=? n)%nat && (n <=? 57)%nat.

Definition digit_value (c : ascii) : Z := Z.of_nat (nat_of_ascii c) - 48.

Fixpoint lstrip (s : string) : string :=
  match s with
  | EmptyString => EmptyString
  | String c r => if is_space c then lstrip r else s
  end.

Fixpoint rstrip (s : string) : string :=
  match s with
  | EmptyString => EmptyString
  | String c r =>
      match rstrip r with
      | EmptyString => if is_space c then EmptyString else String c EmptyString
      | r' => String c r'
      end
  end.

(** Decimal digits with single underscores allowed between digits. *)
Fixpoint digits_value (s : string) (acc : Z) (after_digit : bool) : option Z :=
  match s with
  | EmptyString => if after_digit then Some acc else None
  | String c r =>
      if is_digit c then digits_value r (10 * acc + digit_value c) true
      else if Ascii.eqb c "_" then
        if after_digit then digits_value r acc false else None
      else None
  end.

(** [sys.get_int_max_str_digits()], as the interpreter starts. *)
Definition MAX_STR_DIGITS : nat := 4300.

Fixpoint digit_count (s : string) : nat :=
  match s with
  | EmptyString => 0%nat
  | String c r => if is_digit c then S (digit_count r) else digit_count r
  end.

(** [int(s)] in base 10: surrounding white space, one optional sign, then
    the digits, at most [MAX_STR_DIGITS] of them; [None] stands for
    [ValueError].  Below code point 256 the decimal digits are the ASCII
    ones. *)
Definition py_int (s : string) : option Z :=
  let body := rstrip (lstrip s) in
  if (MAX_STR_DIGITS <? digit_count body)%nat then None
  else
    match body with
    | String "+" r => digits_value r 0 false
    | String "-" r => Z.opp <$> digits_value r 0 false
    | r => digits_value r 0 false
    end.

(** [s.split(sep)] for a one-character separator. *)
Fixpoint str_split (sep : ascii) (s : string) : list string :=
  match s with
  | EmptyString => [EmptyString]
  | String c r =>
      if Ascii.eqb c sep then EmptyString :: str_split sep r
      else match str_split sep r with
           | p :: ps => String c p :: ps
           | [] => [String c EmptyString]
           end
  end.

(** Lines 69-73: [hour, minute = map(int, tstr.split(":"))].  A value
    that is not a string has no [split]; a list of other than two parts
    does not unpack; a part that [int] refuses raises [ValueError]. *)
Definition parse_hm (tstr : value) : outcome (Z * Z) :=
  match tstr with
  | VStr s =>
      match str_split ":" s with
      | [a; b] =>
          match py_int a, py_int b with
          | Some h, Some m => Ok (h, m)
          | _, _ => Raise ValueError
          end
      | _ => Raise ValueError
      end
  | _ => Raise AttributeError
  end.

(** ** Naive datetimes *)

Definition US_PER_MINUTE : Z := 60000000.
Definition US_PER_HOUR : Z := 3600000000.
Definition US_PER_DAY : Z := 86400000000.

(** [datetime.max.toordinal()] days are representable. *)
Definition MAX_DAYS : Z := 3652059.
Definition MAX_US : Z := MAX_DAYS * US_PER_DAY.

Definition date_of (d : Z) : Z := d / US_PER_DAY.
Definition time_of (d : Z) : Z := d mod US_PER_DAY.

(** The arguments of [datetime.replace] are converted to C [int]s. *)
Definition INT_MIN : Z := -2147483648.
Definition INT_MAX : Z := 2147483647.

Definition fits_int (z : Z) : bool := (INT_MIN <=? z) && (z <=? INT_MAX).

(** [d.replace(hour=h, minute=m, second=0, microsecond=0)]: an argument
    that does not fit a C [int] raises [OverflowError] before any range
    is looked at, a field out of its range raises [ValueError]. *)
Definition replace_hm (d hour minute : Z) : outcome Z :=
  if negb (fits_int hour && fits_int minute) then Raise OverflowError
  else if (0 <=? hour) && (hour <=? 23) && (0 <=? minute) && (minute <=? 59)
  then Ok (date_of d * US_PER_DAY + hour * US_PER_HOUR + minute * US_PER_MINUTE)
  else Raise ValueError.

(** [d + timedelta(microseconds=us)]. *)
Definition add_timedelta (d us : Z) : outcome Z :=
  let r := d + us in
  if (0 <=? r) && (r <? MAX_US) then Ok r else Raise OverflowError.

(** ** The random generator *)

(** [random.randint(a, b)] from one raw draw of the generator. *)
Definition randint (a b raw : Z) : outcome Z :=
  if b + 1 - a <=? 0 then Raise ValueError
  else Ok (a + raw mod (b + 1 - a)).

(** [random.choice(seq)] from one raw draw of the generator. *)
Definition choice {A} (seq : list A) (raw : Z) : outcome A :=
  match seq !! Z.to_nat (raw mod Z.of_nat (length seq)) with
  | Some x => Ok x
  | None => Raise IndexError
  end.

(** [seq[:n]] for a possibly negative [n]. *)
Definition slice_to {A} (seq : list A) (n : Z) : list A :=
  if 0 <=? n then take (Z.to_nat n) seq
  else take (Z.to_nat (Z.of_nat (length seq) + n)) seq.

(** The elements a [for] loop or [list.extend] sees in a value. *)
Definition iterate (v : value) : outcome (list value) :=
  match v with
  | VList l => Ok l
  | VStr s => Ok ((fun c => VStr (String c EmptyString)) <$> list_ascii_of_string s)
  | _ => Raise TypeError
  end.

(** * The scheduler, [scheduler/main.py] *)

Module Scheduler.

(** The inventory routes the scheduler reads, keyed by the id spliced
    into the URL. *)
Inductive endpoint : Type :=
  | Accounts
  | Schedules (acc_id : value)
  | Libraries
  | Items (library_id : value)
  | Captions (item_id : value).

(** The three publish services, [IG_PUBLISH_BASE], [TT_PUBLISH_BASE] and
    [YT_PUBLISH_BASE]. *)
Inductive adapter : Type := IG | TT | YT.

Record response : Type := { status_code : Z; text : string }.

(** The environment: what the [k]-th query of the run is answered.
    [None] is a request that raised (transport error, error status or a
    body that is not the expected JSON). *)
Record World : Type := {
  now_at : nat -> Z;
  raw_at : nat -> Z;
  get_at : nat -> endpoint -> option (list dict);
  variant_at : nat -> dict -> option dict;
  publish_at : nat -> adapter -> dict -> option response;
}.

(** [POSTS_PER_DAY] and [JITTER_MINUTES], read from the process
    environment at import time. *)
Record Config : Type := {
  POSTS_PER_DAY : Z;
  JITTER_MINUTES : Z;
}.

Definition default_config : Config :=
  {| POSTS_PER_DAY := 3; JITTER_MINUTES := 15 |}.

Inductive message : Type :=
  | MsgFetchError (e : endpoint)
  | MsgMissingToken (acc_id : value)
  | MsgNoSchedules (acc_id : value)
  | MsgNoLibraries
  | MsgNoItems
  | MsgInvalidTime (tstr : value)
  | MsgSleeping (us : Z) (acc_id : value)
  | MsgVariantFailed (acc_id : value)
  | MsgUnsupported (network acc_id : value)
  | MsgPublished (acc_id : value) (r : response)
  | MsgPublishFailed (acc_id : value)
  | MsgNoAccounts
  | MsgSchedulingError (acc_id : value) (e : exn)
  | MsgCompleted.

(** What the process does to the outside, in order, with the answer it
    got. *)
Inductive event : Type :=
  | EGet (e : endpoint) (r : option (list dict))
  | EVariant (req : dict) (r : option dict)
  | EPublish (a : adapter) (payload : dict) (r : option response)
  | ESleep (us : Z)
  | ELog (m : message).

(** A computation from the number of queries made so far to a result,
    the new number of queries and the events produced. *)
Definition M (A : Type) : Type := nat -> outcome A * nat * list event.

Definition ret {A} (a : A) : M A := fun n => (Ok a, n, []).

Definition bind {A B} (m : M A) (f : A -> M B) : M B :=
  fun n =>
    match m n with
    | (Ok a, n1, e1) =>
        match f a n1 with
        | (r, n2, e2) => (r, n2, e1 ++ e2)
        end
    | (Raise e, n1, e1) => (Raise e, n1, e1)
    end.

Definition lift {A} (o : outcome A) : M A := fun n => (o, n, []).

Definition emit (ev : event) : M unit := fun n => (Ok tt, n, [ev]).

Definition query : M nat := fun n => (Ok n, S n, []).

(** [try: m  except Exception as e: h e]. *)
Definition try_except {A} (m : M A) (h : exn -> M A) : M A :=
  fun n =>
    match m n with
    | (Ok a, n1, e1) => (Ok a, n1, e1)
    | (Raise e, n1, e1) =>
        match h e n1 with
        | (r, n2, e2) => (r, n2, e1 ++ e2)
        end
    end.

Declare Scope sched_scope.
Delimit Scope sched_scope with sched.
Notation "'let*' x := c 'in' k" := (bind c (fun x => k))
  (at level 10, x pattern, c at level 100, k at level 200) : sched_scope.
Open Scope sched_scope.

(** [for x in xs: body x]; an exception leaves the loop. *)
Fixpoint for_each {A} (xs : list A) (body : A -> M unit) : M unit :=
  match xs with
  | [] => ret tt
  | x :: xs' => let* _ := body x in for_each xs' body
  end.

Definition events {A} (r : outcome A * nat * list event) : list event := snd r.
Definition result {A} (r : outcome A * nat * list event) : outcome A := fst (fst r).
Definition queries {A} (r : outcome A * nat * list event) : nat := snd (fst r).

(** The events that reach another service. *)
Definition is_network_call (ev : event) : bool :=
  match ev with
  | EGet _ _ | EVariant _ _ | EPublish _ _ _ => true
  | ESleep _ | ELog _ => false
  end.

Definition is_publish (ev : event) : bool :=
  match ev with
  | EPublish _ _ _ => true
  | _ => false
  end.

Definition is_variant (ev : event) : bool :=
  match ev with
  | EVariant _ _ => true
  | _ => false
  end.

Section Engine.

Variable w : World.
Variable cfg : Config.

(** Lines 17-18; the UTC time stamp printed before the message is left
    out. *)
Definition log (m : message) : M unit := emit (ELog m).

(** [datetime.now()]. *)
Definition now : M Z := let* k := query in ret (now_at w k).

(** One raw draw of the process-wide generator. *)
Definition draw : M Z := let* k := query in ret (raw_at w k).

(** [time.sleep]. *)
Definition sleep (us : Z) : M unit := emit (ESleep us).

(** Lines 21-29: the body of the answer, a list of records on every
    route the scheduler reads, or the empty list after any failure. *)
Definition fetch_json (e : endpoint) : M (list dict) :=
  let* k := query in
  let r := get_at w k e in
  let* _ := emit (EGet e r) in
  match r with
  | Some body => ret body
  | None => let* _ := log (MsgFetchError e) in ret []
  end.

(** Lines 32-36. *)
Definition pick_random_caption (captions : list dict) (platform : value) : M value :=
  let filtered :=
    List.filter (fun c => value_eqb (dict_get c "platform") platform) captions in
  match filtered with
  | [] => ret VNone
  | _ =>
      let* raw := draw in
      let* c := lift (choice filtered raw) in
      lift (dict_item c "body")
  end.

(** Lines 52-55: the post times of all schedules, cut to
    [POSTS_PER_DAY]. *)
Fixpoint extend_times (times_strs : list value) (schedules : list dict)
    : outcome (list value) :=
  match schedules with
  | [] => Ok times_strs
  | sched :: rest =>
      let? more := iterate (dict_get_default sched "post_times" (VList [])) in
      extend_times (times_strs ++ more) rest
  end%outcome.

Definition effective_times (schedules : list dict) : outcome (list value) :=
  (let? times_strs := extend_times [] schedules in
   Ok (slice_to times_strs (POSTS_PER_DAY cfg)))%outcome.

(** Lines 75-78: today at [hour:minute], moved to tomorrow when it is
    before the clock. *)
Definition scheduled_base (hour minute : Z) : M Z :=
  let* now1 := now in
  let* scheduled_time := lift (replace_hm now1 hour minute) in
  let* now2 := now in
  if scheduled_time <? now2
  then lift (add_timedelta scheduled_time US_PER_DAY)
  else ret scheduled_time.

(** Lines 80-81. *)
Definition add_jitter (scheduled_time : Z) : M Z :=
  let* raw := draw in
  let* jitter := lift (randint (- JITTER_MINUTES cfg) (JITTER_MINUTES cfg) raw) in
  lift (add_timedelta scheduled_time (jitter * US_PER_MINUTE)).

(** Lines 83-86. *)
Definition sleep_until (scheduled_time : Z) (acc_id : value) : M unit :=
  let* now3 := now in
  let delta := scheduled_time - now3 in
  if 0 <? delta
  then let* _ := log (MsgSleeping delta acc_id) in sleep delta
  else ret tt.

(** Lines 103-129: the service and the body of the publish request;
    [None] for a network that has no branch. *)
Definition publish_payload (account item : dict)
    (acc_network acc_token variant_url caption : value)
    : outcome (option (adapter * dict)) :=
  if value_eqb acc_network (VStr "instagram") then
    (let? ig_user_id := dict_item account "external_user_id" in
     Ok (Some (IG, {[ "ig_user_id" := ig_user_id;
                      "video_url" := variant_url;
                      "caption" := caption;
                      "access_token" := acc_token ]})))%outcome
  else if value_eqb acc_network (VStr "tiktok") then
    Ok (Some (TT, {[ "user_access_token" := acc_token;
                     "video_url" := variant_url;
                     "title" := py_or caption (dict_get_default item "title" (VStr "")) ]}))
  else if value_eqb acc_network (VStr "youtube") then
    Ok (Some (YT, {[ "oauth_access_token" := acc_token;
                     "file_url" := variant_url;
                     "title" := py_or caption (dict_get_default item "title" (VStr ""));
                     "description" := py_or caption (dict_get_default item "title" (VStr ""));
                     "privacy" := VStr "public" ]}))
  else Ok None.

(** Lines 130-135. *)
Definition publish (acc_id : value) (pub : adapter) (payload : dict) : M unit :=
  let* k := query in
  let pr := publish_at w k pub payload in
  let* _ := emit (EPublish pub payload pr) in
  match pr with
  | Some r => log (MsgPublished acc_id r)
  | None => log (MsgPublishFailed acc_id)
  end.

(** Lines 87-92: the item and the caption of the post. *)
Definition select_content (items : list dict) (acc_network : value)
    : M (dict * value) :=
  let* raw := draw in
  let* item := lift (choice items raw) in
  let* item_id := lift (dict_item item "id") in
  let* captions := fetch_json (Captions item_id) in
  let* caption := pick_random_caption captions acc_network in
  ret (item, match caption with VNone => VStr "" | c => c end).

(** Lines 93-101: the URL of a fresh variant, or [None] when the
    request failed and the loop goes to its next turn. *)
Definition request_variant (item : dict) (acc_id acc_network : value)
    : M (option value) :=
  let* master_url := lift (dict_item item "master_url") in
  let variant_req : dict :=
    {[ "file_url" := master_url; "platform" := acc_network ]} in
  let* k := query in
  let vr := variant_at w k variant_req in
  let* _ := emit (EVariant variant_req vr) in
  match vr with
  | None => let* _ := log (MsgVariantFailed acc_id) in ret None
  | Some body => ret (Some (dict_get body "cdn_url"))
  end.

(** Lines 102-135. *)
Definition dispatch (account item : dict)
    (acc_id acc_network acc_token variant_url caption : value) : M unit :=
  let* target :=
    lift (publish_payload account item acc_network acc_token variant_url caption) in
  match target with
  | None => log (MsgUnsupported acc_network acc_id)
  | Some (pub, payload) => publish acc_id pub payload
  end.

(** Lines 87-135: what a slot does once its time has come. *)
Definition post (account : dict) (acc_id acc_network acc_token : value)
    (items : list dict) : M unit :=
  let* (item, caption) := select_content items acc_network in
  let* variant := request_variant item acc_id acc_network in
  match variant with
  | None => ret tt
  | Some variant_url =>
      dispatch account item acc_id acc_network acc_token variant_url caption
  end.

(** Lines 67-135: the body of the loop over the post times. *)
Definition slot (account : dict) (acc_id acc_network acc_token : value)
    (items : list dict) (tstr : value) : M unit :=
  match parse_hm tstr with
  | Raise _ => log (MsgInvalidTime tstr)
  | Ok (hour, minute) =>
      let* scheduled_time := scheduled_base hour minute in
      let* scheduled_time := add_jitter scheduled_time in
      let* _ := sleep_until scheduled_time acc_id in
      post account acc_id acc_network acc_token items
  end.

(** Lines 39-135. *)
Definition schedule_for_account (account : dict) : M unit :=
  let* acc_id := lift (dict_item account "id") in
  let acc_network := dict_get account "network" in
  let acc_token := dict_get account "access_token" in
  if negb (truthy acc_token) then log (MsgMissingToken acc_id)
  else
    let* schedules := fetch_json (Schedules acc_id) in
    match schedules with
    | [] => log (MsgNoSchedules acc_id)
    | _ =>
        let* times_strs := lift (effective_times schedules) in
        let* libs := fetch_json Libraries in
        match libs with
        | [] => log MsgNoLibraries
        | library :: _ =>
            let* library_id := lift (dict_item library "id") in
            let* items := fetch_json (Items library_id) in
            match items with
            | [] => log MsgNoItems
            | _ => for_each times_strs (slot account acc_id acc_network acc_token items)
            end
        end
    end.

(** Lines 141-154: one turn of the endless loop of [main_loop]. *)
Definition main_pass : M unit :=
  let* accounts := fetch_json Accounts in
  match accounts with
  | [] => let* _ := log MsgNoAccounts in sleep (600 * 1000000)
  | _ =>
      let* _ :=
        for_each accounts (fun acc =>
          try_except (schedule_for_account acc) (fun e =>
            let* acc_id := lift (dict_item acc "id") in
            log (MsgSchedulingError acc_id e))) in
      let* _ := log MsgCompleted in
      sleep (600 * 1000000)
  end.

End Engine.

End Scheduler.

(** * The inventory service, [api/main.py] *)

Module Api.

(** The request models. *)
Record LibraryItemCreate : Type := {
  item_master_url : string;
  item_title : option string;
}.

Record CaptionCreate : Type := {
  caption_library_item_id : string;
  caption_platform : string;
  caption_body : string;
}.

Record AccountCreate : Type := {
  network : string;
  external_user_id : string;
  handle : string;
  access_token : option string;
}.

Record ScheduleCreate : Type := {
  schedule_account_id : string;
  post_times : list string;
}.

(** The module-level lists of records. *)
Record Store : Type := {
  libraries : list dict;
  library_items : list dict;
  captions : list dict;
  accounts : list dict;
  schedules : list dict;
}.

Definition empty_store : Store :=
  {| libraries := []; library_items := []; captions := [];
     accounts := []; schedules := [] |}.

(** An [Optional[str]] field as a JSON value. *)
Definition optional (o : option string) : value :=
  match o with
  | Some s => VStr s
  | None => VNone
  end.

(** [any(r[key] == v for r in records)]: [KeyError] at the first record
    without the key, unless a match came before it. *)
Fixpoint any_with (key : string) (v : value) (records : list dict) : outcome bool :=
  match records with
  | [] => Ok false
  | r :: rest =>
      (let? x := dict_item r key in
       if value_eqb x v then Ok true else any_with key v rest)%outcome
  end.

(** [[r for r in records if r[key] == v]]. *)
Fixpoint select_with (key : string) (v : value) (records : list dict)
    : outcome (list dict) :=
  match records with
  | [] => Ok []
  | r :: rest =>
      (let? x := dict_item r key in
       let? more := select_with key v rest in
       Ok (if value_eqb x v then r :: more else more))%outcome
  end.

(** What a route answers: a body, or [HTTPException(404)]. *)
Inductive reply (A : Type) : Type :=
  | Body (a : A)
  | NotFound (detail : string).
Arguments Body {A} a.
Arguments NotFound {A} detail.

(** Lines 69-74; [new_id] is the fresh [uuid4().hex]. *)
Definition create_library (new_id name : string) (st : Store) : dict * Store :=
  let stored : dict := {[ "id" := VStr new_id; "name" := VStr name ]} in
  ({[ "id" := VStr new_id; "name" := VStr name ]},
   {| libraries := libraries st ++ [stored];
      library_items := library_items st; captions := captions st;
      accounts := accounts st; schedules := schedules st |}).

(** Lines 77-79. *)
Definition list_libraries (st : Store) : list dict := libraries st.

(** Lines 82-90. *)
Definition create_library_item (new_id library_id : string)
    (item : LibraryItemCreate) (st : Store) : outcome (reply dict * Store) :=
  (let? found := any_with "id" (VStr library_id) (libraries st) in
   if negb found then Ok (NotFound "Library not found", st)
   else
     let record : dict :=
       {[ "id" := VStr new_id; "library_id" := VStr library_id;
          "master_url" := VStr (item_master_url item);
          "title" := optional (item_title item) ]} in
     Ok (Body record,
         {| libraries := libraries st;
            library_items := library_items st ++ [record];
            captions := captions st;
            accounts := accounts st; schedules := schedules st |}))%outcome.

(** Lines 93-95. *)
Definition list_library_items (library_id : string) (st : Store)
    : outcome (list dict) :=
  select_with "library_id" (VStr library_id) (library_items st).

(** Lines 109-111. *)
Definition list_captions (library_item_id : string) (st : Store)
    : outcome (list dict) :=
  select_with "library_item_id" (VStr library_item_id) (captions st).

(** Line 117: the record that is stored. *)
Definition account_record (new_id : string) (acc : AccountCreate) : dict :=
  {[ "id" := VStr new_id; "network" := VStr (network acc);
     "external_user_id" := VStr (external_user_id acc);
     "handle" := VStr (handle acc);
     "access_token" := optional (access_token acc) ]}.

(** Lines 114-119. *)
Definition create_account (new_id : string) (acc : AccountCreate) (st : Store)
    : dict * Store :=
  ({[ "id" := VStr new_id; "network" := VStr (network acc);
      "external_user_id" := VStr (external_user_id acc);
      "handle" := VStr (handle acc) ]},
   {| libraries := libraries st; library_items := library_items st;
      captions := captions st;
      accounts := accounts st ++ [account_record new_id acc];
      schedules := schedules st |}).

(** Lines 122-124. *)
Definition list_accounts (st : Store) : list dict := accounts st.

(** Lines 138-140. *)
Definition list_schedules (account_id : string) (st : Store)
    : outcome (list dict) :=
  select_with "account_id" (VStr account_id) (schedules st).

(** Lines 98-106. *)
Definition create_caption (new_id : string) (caption : CaptionCreate) (st : Store)
    : outcome (reply dict * Store) :=
  (let? found :=
     any_with "id" (VStr (caption_library_item_id caption)) (library_items st) in
   if negb found then Ok (NotFound "Library item not found", st)
   else
     let record : dict :=
       {[ "id" := VStr new_id;
          "library_item_id" := VStr (caption_library_item_id caption);
          "platform" := VStr (caption_platform caption);
          "body" := VStr (caption_body caption) ]} in
     Ok (Body record,
         {| libraries := libraries st; library_items := library_items st;
            captions := captions st ++ [record];
            accounts := accounts st; schedules := schedules st |}))%outcome.

(** Lines 127-135. *)
Definition create_schedule (new_id : string) (sched : ScheduleCreate) (st : Store)
    : outcome (reply dict * Store) :=
  (let? found := any_with "id" (VStr (schedule_account_id sched)) (accounts st) in
   if negb found then Ok (NotFound "Account not found", st)
   else
     let record : dict :=
       {[ "id" := VStr new_id;
          "account_id" := VStr (schedule_account_id sched);
          "post_times" := VList (VStr <$> post_times sched) ]} in
     Ok (Body record,
         {| libraries := libraries st; library_items := library_items st;
            captions := captions st; accounts := accounts st;
            schedules := schedules st ++ [record] |}))%outcome.

(** ** The files under [DATA_PATH] *)

(** The JSON files, by name, each as the list that [json.load] reads
    back from what [json.dump] wrote; a file that does not exist has no
    entry. *)
Abbreviation files := (gmap string (list dict)).

(** Lines 13-18. *)
Definition _load (filename : string) (disk : files) : list dict :=
  match disk !! filename with
  | Some data => data
  | None => []
  end.

(** Lines 20-23. *)
Definition _save (filename : string) (data : list dict) (disk : files) : files :=
  <[ filename := data ]> disk.

(** Lines 56-61: the lists of a process that starts on [disk]. *)
Definition startup (disk : files) : Store :=
  {| libraries := _load "libraries.json" disk;
     library_items := _load "library_items.json" disk;
     captions := _load "captions.json" disk;
     accounts := _load "accounts.json" disk;
     schedules := _load "schedules.json" disk |}.

(** A running service: its lists and the files. *)
Record Server : Type := { mem : Store; disk : files }.

(** The five POST routes with their [_save]: the list that was appended
    to is written to its file; a 404 or an exception writes nothing. *)
Definition post_library (new_id name : string) (srv : Server) : dict * Server :=
  let '(body, st) := create_library new_id name (mem srv) in
  (body, {| mem := st; disk := _save "libraries.json" (libraries st) (disk srv) |}).

Definition post_account (new_id : string) (acc : AccountCreate) (srv : Server)
    : dict * Server :=
  let '(body, st) := create_account new_id acc (mem srv) in
  (body, {| mem := st; disk := _save "accounts.json" (accounts st) (disk srv) |}).

Definition saved (filename : string) (select : Store -> list dict)
    (r : outcome (reply dict * Store)) (srv : Server)
    : outcome (reply dict * Server) :=
  match r with
  | Ok (Body body, st) =>
      Ok (Body body, {| mem := st; disk := _save filename (select st) (disk srv) |})
  | Ok (NotFound detail, _) => Ok (NotFound detail, srv)
  | Raise e => Raise e
  end.

Definition post_library_item (new_id library_id : string) (item : LibraryItemCreate)
    (srv : Server) : outcome (reply dict * Server) :=
  saved "library_items.json" library_items
    (create_library_item new_id library_id item (mem srv)) srv.

Definition post_caption (new_id : string) (caption : CaptionCreate) (srv : Server)
    : outcome (reply dict * Server) :=
  saved "captions.json" captions (create_caption new_id caption (mem srv)) srv.

Definition post_schedule (new_id : string) (sched : ScheduleCreate) (srv : Server)
    : outcome (reply dict * Server) :=
  saved "schedules.json" schedules (create_schedule new_id sched (mem srv)) srv.


End Api.


(** * The variant service, [tools/variant-api/main.py] *)

Module Variant.

(** ** The hash of a string *)

(** [hash(s)] as CPython 3.11 computes it on a 64-bit build: SipHash-1-3
    of the characters under the secret [(k0, k1)] of the process,
    which is drawn at start-up unless [PYTHONHASHSEED] fixes it. *)

Definition MASK64 : Z := 2 ^ 64 - 1.

Definition add64 (a b : Z) : Z := Z.land (a + b) MASK64.

Definition rotl64 (x b : Z) : Z :=
  Z.land (Z.lor (Z.shiftl x b) (Z.shiftr x (64 - b))) MASK64.

Record sipstate : Type := { v0 : Z; v1 : Z; v2 : Z; v3 : Z }.

Definition sipround (s : sipstate) : sipstate :=
  let a0 := add64 (v0 s) (v1 s) in
  let a1 := Z.lxor (rotl64 (v1 s) 13) a0 in
  let a0 := rotl64 a0 32 in
  let a2 := add64 (v2 s) (v3 s) in
  let a3 := Z.lxor (rotl64 (v3 s) 16) a2 in
  let a0 := add64 a0 a3 in
  let a3 := Z.lxor (rotl64 a3 21) a0 in
  let a2 := add64 a2 a1 in
  let a1 := Z.lxor (rotl64 a1 17) a2 in
  let a2 := rotl64 a2 32 in
  {| v0 := a0; v1 := a1; v2 := a2; v3 := a3 |}.

(** One message word goes in. *)
Definition absorb (s : sipstate) (m : Z) : sipstate :=
  let s := sipround {| v0 := v0 s; v1 := v1 s; v2 := v2 s; v3 := Z.lxor (v3 s) m |} in
  {| v0 := Z.lxor (v0 s) m; v1 := v1 s; v2 := v2 s; v3 := v3 s |}.

(** Bytes as a little-endian number. *)
Fixpoint le_word (bytes : list Z) : Z :=
  match bytes with
  | [] => 0
  | b :: rest => Z.lor b (Z.shiftl (le_word rest) 8)
  end.

Fixpoint absorb_all (s : sipstate) (len : Z) (bytes : list Z) : sipstate :=
  match bytes with
  | b0 :: b1 :: b2 :: b3 :: b4 :: b5 :: b6 :: b7 :: rest =>
      absorb_all (absorb s (le_word [b0; b1; b2; b3; b4; b5; b6; b7])) len rest
  | tail => absorb s (Z.lor (Z.shiftl (Z.land len 255) 56) (le_word tail))
  end.

Definition siphash13 (k0 k1 : Z) (bytes : list Z) : Z :=
  let s := {| v0 := Z.lxor k0 8317987319222330741;
              v1 := Z.lxor k1 7237128888997146477;
              v2 := Z.lxor k0 7816392313619706465;
              v3 := Z.lxor k1 8387220255154660723 |} in
  let s := absorb_all s (Z.of_nat (length bytes)) bytes in
  let s := {| v0 := v0 s; v1 := v1 s; v2 := Z.lxor (v2 s) 255; v3 := v3 s |} in
  let s := sipround (sipround (sipround s)) in
  Z.lxor (Z.lxor (v0 s) (v1 s)) (Z.lxor (v2 s) (v3 s)).

Definition bytes_of (s : string) : list Z :=
  (fun c => Z.of_nat (nat_of_ascii c)) <$> list_ascii_of_string s.

(** The result is read as a signed 64-bit integer, [-1] is reserved, and
    the empty string hashes to 0. *)
Definition py_hash (secret : Z * Z) (s : string) : Z :=
  match s with
  | EmptyString => 0
  | _ =>
      let x := siphash13 (fst secret) (snd secret) (bytes_of s) in
      let x := if 2 ^ 63 <=? x then x - 2 ^ 64 else x in
      if x =? -1 then -2 else x
  end.

(** ** The service *)

Record VariantRequest : Type := {
  file_url : string;
  platform : string;
  seed : option string;
}.

(** What [subprocess.check_output] meets: a command that ran and left
    an exit status, or one that could not be run at all (no such
    program, an argument with a null byte), which raises an exception
    that is not a [CalledProcessError]. *)
Inductive process : Type :=
  | Exited (status : Z)
  | NotRun.

(** The process and its surroundings: the hash secret, the successive
    [uuid4()] integers, what becomes of an FFmpeg command, the S3
    settings, whether an upload of a key succeeds and whether
    [shutil.copy2] of a temporary file to a key of the static directory
    succeeds. *)
Record Env : Type := {
  hash_secret : Z * Z;
  uuid_at : nat -> Z;
  ffmpeg : list string -> process;
  has_boto3 : bool;
  S3_BUCKET : option string;
  CDN_URL : option string;
  AWS_REGION : string;
  upload_runs : string -> bool;
  copy_runs : string -> string -> bool;
}.

Definition hex_digit (d : Z) : ascii :=
  ascii_of_nat (Z.to_nat (if d <? 10 then 48 + d else 87 + d)).

Fixpoint hex_digits (n : nat) (z : Z) (acc : string) : string :=
  match n with
  | O => acc
  | S n' => hex_digits n' (z / 16) (String (hex_digit (z mod 16)) acc)
  end.

(** [uuid.uuid4().hex]: 32 hexadecimal digits. *)
Definition uuid_hex (z : Z) : string := hex_digits 32 z EmptyString.

(** The truth value of a string, absent or not. *)
Definition given (s : option string) : bool :=
  match s with
  | Some (String _ _) => true
  | _ => false
  end.

Definition vf : string :=
  "scale=iw*1.01:ih*1.01,crop=iw:ih,pad=ceil(iw/2)*2:ceil(ih/2)*2:color=black,setsar=1".

Definition spices : list string :=
  ["eq=brightness=0.01:contrast=1.02";
   "unsharp=5:5:0.5";
   "gblur=sigma=0.3";
   "hue=h=2:s=1";
   ""].

(** Line 55: [hash(seed) % len(spices) if seed else 0]. *)
Definition spice_index (secret : Z * Z) (seed : option string) : nat :=
  match seed with
  | Some s =>
      if given seed then Z.to_nat (py_hash secret s mod Z.of_nat (length spices))
      else 0%nat
  | None => 0%nat
  end.

(** Lines 56-57. *)
Definition vf_full (secret : Z * Z) (seed : option string) : string :=
  match nth (spice_index secret seed) spices "" with
  | EmptyString => vf
  | spice => vf +:+ "," +:+ spice
  end.

(** Lines 58-78. *)
Definition ffmpeg_command (secret : Z * Z) (input_url output_path : string)
    (seed : option string) : list string :=
  ["ffmpeg"; "-y"; "-i"; input_url; "-vf"; vf_full secret seed;
   "-c:v"; "libx264"; "-preset"; "veryfast"; "-crf"; "18";
   "-pix_fmt"; "yuv420p"; "-af"; "volume=+0.5dB";
   "-movflags"; "+faststart"; output_path].

(** The answers of the route: the URL, the [HTTPException] of status 500
    raised by [run_ffmpeg], or an exception that nothing catches, which
    the framework turns into a plain status 500. *)
Inductive reply : Type :=
  | CdnUrl (url : string)
  | ServerError
  | Unhandled.

(** What one call of [create_variant] did. *)
Record run : Type := {
  used_seed : string;
  spice_idx : nat;
  command : list string;
  answer : reply;
  uuids_drawn : nat;
}.

(** Lines 85-110; [k] is the number of [uuid4()] calls made before.
    Lines 79-82 catch [CalledProcessError] only, and the copy of lines
    108-109 is outside any [try]. *)
Definition create_variant (env : Env) (req : VariantRequest) (k : nat) : run :=
  let '(seed_used, k1) :=
    match seed req with
    | Some (String c r) => (String c r, k)
    | _ => (uuid_hex (uuid_at env k), S k)
    end in
  let tmp_filename := "/tmp/" +:+ uuid_hex (uuid_at env k1) +:+ ".mp4" in
  let cmd := ffmpeg_command (hash_secret env) (file_url req) tmp_filename (Some seed_used) in
  let idx := spice_index (hash_secret env) (Some seed_used) in
  match ffmpeg env cmd with
  | NotRun =>
      {| used_seed := seed_used; spice_idx := idx; command := cmd;
         answer := Unhandled; uuids_drawn := S k1 |}
  | Exited status =>
      if negb (status =? 0) then
        {| used_seed := seed_used; spice_idx := idx; command := cmd;
           answer := ServerError; uuids_drawn := S k1 |}
      else
        let key := uuid_hex (uuid_at env (S k1)) +:+ ".mp4" in
        let static :=
          if copy_runs env tmp_filename key then CdnUrl ("/static/" +:+ key)
          else Unhandled in
        let url :=
          match S3_BUCKET env with
          | Some (String c r) =>
              let bucket := String c r in
              if has_boto3 env && upload_runs env key then
                if given (CDN_URL env)
                then CdnUrl (default "" (CDN_URL env) +:+ "/" +:+ key)
                else CdnUrl ("https://" +:+ bucket +:+ ".s3." +:+ AWS_REGION env
                               +:+ ".amazonaws.com/" +:+ key)
              else static
          | _ => static
          end in
        {| used_seed := seed_used; spice_idx := idx; command := cmd;
           answer := url; uuids_drawn := S (S k1) |}
  end.


End Variant.


(** * The publish services, [tools/ig-publisher], [tools/tt-publisher]
      and [tools/yt-publisher] *)

Module Publishers.

(** The request models. *)
Record IGPublishRequest : Type := {
  ig_user_id : string;
  ig_video_url : string;
  ig_caption : string;
  ig_access_token : string;
}.

Record TikTokPublishRequest : Type := {
  user_access_token : string;
  tt_video_url : string;
  tt_title : string;
  privacy_level : option string;
  disable_duet : bool;
  disable_stitch : bool;
  disable_comment : bool;
}.

Record YouTubePublishRequest : Type := {
  oauth_access_token : string;
  yt_file_url : string;
  yt_title : string;
  yt_description : option string;
  yt_privacy : option string;
}.

(** The names of the fields of each model: those without a default, and
    those with one. *)
Definition required_fields (pub : Scheduler.adapter) : list string :=
  match pub with
  | Scheduler.IG => ["ig_user_id"; "video_url"; "caption"; "access_token"]
  | Scheduler.TT => ["user_access_token"; "video_url"; "title"]
  | Scheduler.YT => ["oauth_access_token"; "file_url"; "title"]
  end.

Definition optional_fields (pub : Scheduler.adapter) : list string :=
  match pub with
  | Scheduler.IG => []
  | Scheduler.TT => ["privacy_level"; "disable_duet"; "disable_stitch"; "disable_comment"]
  | Scheduler.YT => ["description"; "privacy"]
  end.

(** The requests the services send, with what they carry. *)
Inductive call : Type :=
  | IgCreateContainer (user_id video_url caption access_token : string)
  | IgMediaPublish (user_id : string) (creation_id : value) (access_token : string)
  | TtVideoInit (bearer title : string) (privacy : option string)
      (no_duet no_stitch no_comment : bool) (video_url : string)
  | YtInit (bearer title description privacy : string)
  | FetchFile (url : string)
  | YtUpload (upload_url bearer video_bytes : string).

(** A parsed JSON body: an object, or anything else. *)
Inductive json : Type :=
  | JObject (d : dict)
  | JOther (v : value).

(** An HTTP answer: [body_json] is [None] for a body that is not JSON. *)
Record answer : Type := {
  status : Z;
  body_json : option json;
  location : option string;
  content : string;
  body_text : string;
}.

(** [raise_for_status] raises on 4xx and 5xx. *)
Definition is_error (r : answer) : bool := (400 <=? status r) && (status r <? 600).

(** The peers: what the [k]-th request of a call is answered; [None] is
    a request that raised. *)
Definition peers : Type := nat -> call -> option answer.

(** Why a service answers 500. *)
Inductive failure : Type :=
  | ContainerCreationFailed
  | MissingCreationId
  | MediaPublishFailed
  | TikTokPublishFailed
  | TikTokNotJson
  | YouTubeInitFailed
  | UploadUrlNotReturned
  | FetchingFileFailed
  | YouTubeUploadFailed.

(** What a route does: it returns a body, raises [HTTPException(500)],
    or lets an exception escape. *)
Inductive reply (A : Type) : Type :=
  | Return (body : A)
  | HTTPError (why : failure)
  | Unhandled (e : exn).
Arguments Return {A} body.
Arguments HTTPError {A} why.
Arguments Unhandled {A} e.

(** A request that went through [raise_for_status]. *)
Definition checked (p : peers) (k : nat) (c : call) : option answer :=
  match p k c with
  | Some r => if is_error r then None else Some r
  | None => None
  end.

(** [ig-publisher], lines 15-49: the reply and the requests made. *)
Definition ig_publish (p : peers) (req : IGPublishRequest) (k : nat)
    : reply json * list call :=
  let c1 := IgCreateContainer (ig_user_id req) (ig_video_url req) (ig_caption req)
              (ig_access_token req) in
  match checked p k c1 with
  | None => (HTTPError ContainerCreationFailed, [c1])
  | Some resp =>
      match body_json resp with
      | None => (Unhandled ValueError, [c1])
      | Some (JOther _) => (Unhandled AttributeError, [c1])
      | Some (JObject container_data) =>
          let creation_id :=
            py_or (dict_get container_data "id") (dict_get container_data "creation_id") in
          if negb (truthy creation_id) then (HTTPError MissingCreationId, [c1])
          else
            let c2 := IgMediaPublish (ig_user_id req) creation_id (ig_access_token req) in
            match checked p (S k) c2 with
            | None => (HTTPError MediaPublishFailed, [c1; c2])
            | Some publish_resp =>
                match body_json publish_resp with
                | None => (Unhandled ValueError, [c1; c2])
                | Some j => (Return j, [c1; c2])
                end
            end
      end
  end.

(** [tt-publisher], lines 18-56: the status and the body of TikTok's
    answer are returned as they came. *)
Definition tt_publish (p : peers) (req : TikTokPublishRequest) (k : nat)
    : reply (Z * json) * list call :=
  let c := TtVideoInit (user_access_token req) (tt_title req) (privacy_level req)
             (disable_duet req) (disable_stitch req) (disable_comment req)
             (tt_video_url req) in
  match p k c with
  | None => (HTTPError TikTokPublishFailed, [c])
  | Some resp =>
      match body_json resp with
      | None => (HTTPError TikTokNotJson, [c])
      | Some data => (Return (status resp, data), [c])
      end
  end.

(** [s or dflt] on an optional string. *)
Definition or_default (s : option string) (dflt : string) : string :=
  match s with
  | Some (String c r) => String c r
  | _ => dflt
  end.

(** [yt-publisher], lines 16-65: the parsed answer of the upload, or its
    text under ["raw"]. *)
Definition yt_publish (p : peers) (req : YouTubePublishRequest) (k : nat)
    : reply (json + string) * list call :=
  let c1 := YtInit (oauth_access_token req) (yt_title req)
              (or_default (yt_description req) "")
              (or_default (yt_privacy req) "public") in
  match checked p k c1 with
  | None => (HTTPError YouTubeInitFailed, [c1])
  | Some init_resp =>
      match location init_resp with
      | Some (String a b) =>
          let upload_url := String a b in
          let c2 := FetchFile (yt_file_url req) in
          match checked p (S k) c2 with
          | None => (HTTPError FetchingFileFailed, [c1; c2])
          | Some file_resp =>
              let c3 := YtUpload upload_url (oauth_access_token req) (content file_resp) in
              match checked p (S (S k)) c3 with
              | None => (HTTPError YouTubeUploadFailed, [c1; c2; c3])
              | Some upload_resp =>
                  match body_json upload_resp with
                  | Some j => (Return (inl j), [c1; c2; c3])
                  | None => (Return (inr (body_text upload_resp)), [c1; c2; c3])
                  end
              end
          end
      | _ => (HTTPError UploadUrlNotReturned, [c1])
      end
  end.

End Publishers.


(** * Properties of the scheduler *)

Module SchedulerProofs.
Import Scheduler.

(** ** A sample deployment *)

Definition sample_library : dict :=
  {[ "id" := VStr "l1"; "name" := VStr "Reels" ]}.

Definition sample_item : dict :=
  {[ "id" := VStr "i1"; "library_id" := VStr "l1";
     "master_url" := VStr "https://cdn.example/master.mp4";
     "title" := VStr "Spring sale" ]}.

Definition tiktok_account : dict :=
  {[ "id" := VStr "a2"; "network" := VStr "tiktok";
     "external_user_id" := VStr "tt-42"; "handle" := VStr "@shop";
     "access_token" := VStr "tok" ]}.

Definition sample_caption : dict :=
  {[ "id" := VStr "c1"; "library_item_id" := VStr "i1";
     "platform" := VStr "tiktok"; "body" := VStr "New in store" ]}.

(** Nine o'clock in the morning of day 739000. *)
Definition nine_am : Z := 739000 * US_PER_DAY + 9 * US_PER_HOUR.

(** A world with a stopped clock, a constant generator and services
    that answer; [schedules] and [variant] are what the inventory lists
    as schedules and what the variant service answers. *)
Definition world_of (schedules : list dict) (variant : option dict) : World :=
  {| now_at := fun _ => nine_am;
     raw_at := fun _ => 7;
     get_at := fun _ e =>
       match e with
       | Accounts => Some [tiktok_account]
       | Schedules _ => Some schedules
       | Libraries => Some [sample_library]
       | Items _ => Some [sample_item]
       | Captions _ => Some [sample_caption]
       end;
     variant_at := fun _ _ => variant;
     publish_at := fun _ _ _ => Some {| status_code := 200; text := "ok" |} |}.

Definition sample_world : World :=
  world_of [] (Some {[ "cdn_url" := VStr "/static/v1.mp4" ]}).

(** ** The effective list of post times *)

(** What a schedule contributes: the elements of its [post_times], none
    when it has no such field. *)
Definition has_post_times (sched : dict) (ts : list value) : Prop :=
  iterate (dict_get_default sched "post_times" (VList [])) = Ok ts.

Lemma has_post_times_list sched ts :
  sched !! "post_times" = Some (VList ts) -> has_post_times sched ts.
Proof. intros H. unfold has_post_times, dict_get_default. by rewrite H. Qed.

Lemma has_post_times_absent sched :
  sched !! "post_times" = None -> has_post_times sched [].
Proof. intros H. unfold has_post_times, dict_get_default. by rewrite H. Qed.

Lemma extend_times_concat schedules tss :
  Forall2 has_post_times schedules tss ->
  forall acc, extend_times acc schedules = Ok (acc ++ concat tss).
Proof.
  induction 1 as [|sched ts schedules tss Hts _ IH]; intros acc; simpl.
  - by rewrite app_nil_r.
  - unfold has_post_times in Hts. rewrite Hts. simpl.
    rewrite IH. by rewrite <- app_assoc.
Qed.

Lemma slice_to_nonneg {A} (l : list A) n :
  0 <= n -> slice_to l n = take (Z.to_nat n) l.
Proof.
  intros Hn. unfold slice_to.
  destruct (0 <=? n) eqn:E; [done | apply Z.leb_gt in E; lia].
Qed.

(** C5.  The effective post times are the post times of all schedules,
    concatenated in the listed order and cut to the first
    [POSTS_PER_DAY]; with a limit of three, four contributed times keep
    the first three and drop the fourth. *)
Theorem effective_times_concat_truncate cfg schedules tss :
  0 <= POSTS_PER_DAY cfg ->
  Forall2 has_post_times schedules tss ->
  effective_times cfg schedules
    = Ok (take (Z.to_nat (POSTS_PER_DAY cfg)) (concat tss))
  /\ (forall t1 t2 t3 t4,
        POSTS_PER_DAY cfg = 3 ->
        concat tss = [t1; t2; t3; t4] ->
        effective_times cfg schedules = Ok [t1; t2; t3]).
Proof.
  intros Hn Hts.
  assert (E : effective_times cfg schedules
              = Ok (take (Z.to_nat (POSTS_PER_DAY cfg)) (concat tss))).
  { unfold effective_times. rewrite (extend_times_concat _ _ Hts). simpl.
    by rewrite slice_to_nonneg. }
  split; [exact E |].
  intros t1 t2 t3 t4 H3 Hc. rewrite E, H3, Hc. reflexivity.
Qed.

Definition morning_schedule : dict :=
  {[ "id" := VStr "s1"; "account_id" := VStr "a1";
     "post_times" := VList [VStr "08:00"; VStr "12:00"] ]}.

Definition evening_schedule : dict :=
  {[ "id" := VStr "s2"; "account_id" := VStr "a1";
     "post_times" := VList [VStr "18:00"; VStr "22:00"] ]}.

Lemma effective_times_concat_truncate_witness :
  effective_times default_config [morning_schedule; evening_schedule]
    = Ok [VStr "08:00"; VStr "12:00"; VStr "18:00"].
Proof.
  refine (proj2 (effective_times_concat_truncate default_config
            [morning_schedule; evening_schedule]
            [[VStr "08:00"; VStr "12:00"]; [VStr "18:00"; VStr "22:00"]] _ _)
          _ _ _ _ eq_refl eq_refl).
  - simpl. lia.
  - repeat constructor; by apply has_post_times_list.
Defined.

(** ** Accounts without credentials *)

(** The access token is absent, [None] or empty (or any other false
    value). *)
Definition no_token (account : dict) : Prop :=
  truthy (dict_get account "access_token") = false.

Lemma no_token_absent account :
  account !! "access_token" = None -> no_token account.
Proof. intros H. unfold no_token, dict_get, dict_get_default. by rewrite H. Qed.

Lemma no_token_null account :
  account !! "access_token" = Some VNone -> no_token account.
Proof. intros H. unfold no_token, dict_get, dict_get_default. by rewrite H. Qed.

Lemma no_token_empty account :
  account !! "access_token" = Some (VStr "") -> no_token account.
Proof. intros H. unfold no_token, dict_get, dict_get_default. by rewrite H. Qed.

(** C6.  For an account without access token the cycle ends right after
    the credential check: no query is made to any service (no inventory
    fetch, no variant request, no publish call), and with an id the
    function returns after its one log line. *)
Theorem no_token_no_network w cfg account n :
  no_token account ->
  let run := schedule_for_account w cfg account n in
  List.filter is_network_call (events run) = []
  /\ queries run = n
  /\ (forall acc_id, account !! "id" = Some acc_id ->
        run = (Ok tt, n, [ELog (MsgMissingToken acc_id)])).
Proof.
  intros Htok. unfold no_token in Htok.
  unfold schedule_for_account, bind, lift, dict_item.
  destruct (account !! "id") as [acc_id|] eqn:Hid; simpl.
  - rewrite Htok. simpl. repeat split.
    intros ? [= <-]. reflexivity.
  - repeat split. intros ? [=].
Qed.

Definition account_without_token : dict :=
  {[ "id" := VStr "a1"; "network" := VStr "instagram";
     "external_user_id" := VStr "17841400000000000";
     "handle" := VStr "@shop"; "access_token" := VNone ]}.

Lemma no_token_no_network_witness :
  schedule_for_account sample_world default_config account_without_token 0%nat
    = (Ok tt, 0%nat, [ELog (MsgMissingToken (VStr "a1"))]).
Proof.
  refine (proj2 (proj2 (no_token_no_network sample_world default_config
                          account_without_token 0%nat _)) _ _).
  - apply no_token_null. reflexivity.
  - reflexivity.
Defined.

(** ** The publish payloads *)

(** [item.get("title", "")]. *)
Definition title_of (item : dict) : value :=
  dict_get_default item "title" (VStr "").

(** The caption, or the title of the item when the caption is empty. *)
Definition caption_or_title (caption_body : string) (item : dict) : value :=
  if String.eqb caption_body "" then title_of item else VStr caption_body.

Lemma py_or_caption caption_body item :
  py_or (VStr caption_body) (dict_get_default item "title" (VStr ""))
    = caption_or_title caption_body item.
Proof.
  unfold py_or, caption_or_title, title_of. simpl.
  by destruct (String.eqb caption_body "").
Qed.

(** C1.  The payload of each network has exactly the fields of its row:
    Instagram the user id, the variant URL, the caption as it is (empty
    or not) and the token; TikTok the token, the variant URL and a
    title; YouTube the token, the variant URL, a title, a description
    and the privacy [public].  Title and description are the title of
    the item when the caption body is empty and the caption body
    otherwise. *)
Theorem publish_payload_table account item acc_token variant_url
    (caption_body : string) (ext : value) :
  account !! "external_user_id" = Some ext ->
  (exists p : dict,
      publish_payload account item (VStr "instagram") acc_token variant_url
        (VStr caption_body) = Ok (Some (IG, p))
      /\ dom p = ({[ "ig_user_id"; "video_url"; "caption"; "access_token" ]} : gset string)
      /\ p !! "ig_user_id" = Some ext
      /\ p !! "video_url" = Some variant_url
      /\ p !! "caption" = Some (VStr caption_body)
      /\ p !! "access_token" = Some acc_token)
  /\ (exists p : dict,
      publish_payload account item (VStr "tiktok") acc_token variant_url
        (VStr caption_body) = Ok (Some (TT, p))
      /\ dom p = ({[ "user_access_token"; "video_url"; "title" ]} : gset string)
      /\ p !! "user_access_token" = Some acc_token
      /\ p !! "video_url" = Some variant_url
      /\ p !! "title" = Some (caption_or_title caption_body item))
  /\ (exists p : dict,
      publish_payload account item (VStr "youtube") acc_token variant_url
        (VStr caption_body) = Ok (Some (YT, p))
      /\ dom p = ({[ "oauth_access_token"; "file_url"; "title"; "description";
                    "privacy" ]} : gset string)
      /\ p !! "oauth_access_token" = Some acc_token
      /\ p !! "file_url" = Some variant_url
      /\ p !! "title" = Some (caption_or_title caption_body item)
      /\ p !! "description" = Some (caption_or_title caption_body item)
      /\ p !! "privacy" = Some (VStr "public")).
Proof.
  intros Hext. unfold publish_payload, dict_item. rewrite Hext. simpl.
  rewrite py_or_caption.
  repeat split; eexists; (split; [reflexivity |]);
    (split; [rewrite ?dom_insert_L, dom_singleton_L; reflexivity |]);
    repeat split; reflexivity.
Qed.

Lemma publish_payload_table_witness :
  exists p : dict,
    publish_payload tiktok_account sample_item (VStr "tiktok") (VStr "tok")
      (VStr "/static/v1.mp4") (VStr "") = Ok (Some (TT, p))
    /\ p !! "title" = Some (VStr "Spring sale").
Proof.
  destruct (publish_payload_table tiktok_account sample_item (VStr "tok")
              (VStr "/static/v1.mp4") "" (VStr "tt-42") eq_refl)
    as (_ & (p & Hp & _ & _ & _ & Htitle) & _).
  exists p. split; [exact Hp | exact Htitle].
Defined.

(** ** The fire instant *)

(** The text [HH:MM] of an hour and a minute. *)
Definition two_digits (n : Z) : string :=
  String (ascii_of_nat (Z.to_nat (48 + n / 10)))
    (String (ascii_of_nat (Z.to_nat (48 + n mod 10))) EmptyString).

Definition hhmm (h m : Z) : string :=
  String.append (two_digits h) (String ":" (two_digits m)).

Definition parses_to (h m : Z) : bool :=
  match parse_hm (VStr (hhmm h m)) with
  | Ok (h', m') => (h' =? h) && (m' =? m)
  | Raise _ => false
  end.

Lemma parses_all :
  forallb (fun h => forallb (parses_to h) (seqZ 0 60)) (seqZ 0 24) = true.
Proof. vm_compute. reflexivity. Qed.

(** Every valid [HH:MM] text is read as its hour and minute. *)
Lemma parse_hhmm h m :
  0 <= h <= 23 -> 0 <= m <= 59 -> parse_hm (VStr (hhmm h m)) = Ok (h, m).
Proof.
  intros Hh Hm.
  pose proof parses_all as Hall.
  rewrite forallb_forall in Hall.
  assert (Hin : In h (seqZ 0 24)) by (apply list_elem_of_In, elem_of_seqZ; lia).
  specialize (Hall h Hin). rewrite forallb_forall in Hall.
  assert (Hin' : In m (seqZ 0 60)) by (apply list_elem_of_In, elem_of_seqZ; lia).
  specialize (Hall m Hin'). unfold parses_to in Hall.
  destruct (parse_hm (VStr (hhmm h m))) as [[h' m']|]; [| discriminate].
  apply andb_true_iff in Hall as [H1 H2].
  apply Z.eqb_eq in H1, H2. by subst.
Qed.

(** Today at [h:m], seen from the clock reading [now1]. *)
Definition base_instant (now1 h m : Z) : Z :=
  date_of now1 * US_PER_DAY + h * US_PER_HOUR + m * US_PER_MINUTE.

Lemma date_of_bounds d :
  date_of d * US_PER_DAY <= d < date_of d * US_PER_DAY + US_PER_DAY.
Proof.
  unfold date_of, US_PER_DAY.
  pose proof (Z.div_mod d 86400000000 ltac:(lia)).
  pose proof (Z.mod_pos_bound d 86400000000 ltac:(lia)). lia.
Qed.

Lemma base_instant_date now1 h m :
  0 <= h <= 23 -> 0 <= m <= 59 ->
  date_of (base_instant now1 h m) = date_of now1
  /\ time_of (base_instant now1 h m) = h * US_PER_HOUR + m * US_PER_MINUTE.
Proof.
  intros Hh Hm. unfold base_instant, date_of, time_of.
  set (q := now1 / US_PER_DAY).
  assert (Hr : 0 <= h * US_PER_HOUR + m * US_PER_MINUTE < US_PER_DAY)
    by (unfold US_PER_HOUR, US_PER_MINUTE, US_PER_DAY; lia).
  rewrite <- Z.add_assoc.
  split.
  - symmetry. apply (Z.div_unique_pos _ _ _ (h * US_PER_HOUR + m * US_PER_MINUTE)); lia.
  - symmetry. apply (Z.mod_unique_pos _ _ q); lia.
Qed.

Lemma base_instant_next_day now1 h m :
  0 <= h <= 23 -> 0 <= m <= 59 ->
  date_of (base_instant now1 h m + US_PER_DAY) = date_of now1 + 1
  /\ time_of (base_instant now1 h m + US_PER_DAY) = h * US_PER_HOUR + m * US_PER_MINUTE.
Proof.
  intros Hh Hm.
  replace (base_instant now1 h m + US_PER_DAY)
    with ((date_of now1 + 1) * US_PER_DAY + (h * US_PER_HOUR + m * US_PER_MINUTE))
    by (unfold base_instant; lia).
  assert (Hr : 0 <= h * US_PER_HOUR + m * US_PER_MINUTE < US_PER_DAY)
    by (unfold US_PER_HOUR, US_PER_MINUTE, US_PER_DAY; lia).
  unfold date_of at 1, time_of. split.
  - symmetry. apply (Z.div_unique_pos _ _ _ (h * US_PER_HOUR + m * US_PER_MINUTE)); lia.
  - symmetry. apply (Z.mod_unique_pos _ _ (date_of now1 + 1)); lia.
Qed.

Lemma replace_hm_valid d h m :
  0 <= h <= 23 -> 0 <= m <= 59 -> replace_hm d h m = Ok (base_instant d h m).
Proof.
  intros Hh Hm. unfold replace_hm, fits_int, INT_MIN, INT_MAX.
  replace ((-2147483648 <=? h) && (h <=? 2147483647)
           && ((-2147483648 <=? m) && (m <=? 2147483647))) with true
    by (symmetry; rewrite !andb_true_iff, !Z.leb_le; lia).
  replace ((0 <=? h) && (h <=? 23) && (0 <=? m) && (m <=? 59)) with true; [done |].
  symmetry. rewrite !andb_true_iff, !Z.leb_le. lia.
Qed.

Lemma add_timedelta_in_range d us :
  0 <= d + us < MAX_US -> add_timedelta d us = Ok (d + us).
Proof.
  intros H. unfold add_timedelta. simpl.
  replace ((0 <=? d + us) && (d + us <? MAX_US)) with true; [done |].
  symmetry. rewrite andb_true_iff, Z.leb_le, Z.ltb_lt. lia.
Qed.

(** What [scheduled_base] does with two successive readings of the
    clock. *)
Lemma scheduled_base_run w h m n :
  0 <= h <= 23 -> 0 <= m <= 59 ->
  0 <= now_at w n -> now_at w n + 2 * US_PER_DAY < MAX_US ->
  scheduled_base w h m n
  = (Ok (if base_instant (now_at w n) h m <? now_at w (S n)
         then base_instant (now_at w n) h m + US_PER_DAY
         else base_instant (now_at w n) h m),
     S (S n), []).
Proof.
  intros Hh Hm H0 Hmax.
  unfold scheduled_base, bind, now, query, ret, lift. simpl.
  rewrite replace_hm_valid by done. simpl.
  destruct (base_instant (now_at w n) h m <? now_at w (S n)); [| done].
  rewrite add_timedelta_in_range; [done |].
  pose proof (date_of_bounds (now_at w n)).
  unfold base_instant.
  unfold US_PER_HOUR, US_PER_MINUTE, US_PER_DAY in *. lia.
Qed.


(** C7 (as the code has it).  For a valid [HH:MM] the base instant is
    today at that time; it is moved by exactly one day when it is
    strictly before the clock, and stays today otherwise, also when it
    equals the clock. *)
Theorem next_day_only_when_passed w h m n :
  let base := base_instant (now_at w n) h m in
  0 <= h <= 23 -> 0 <= m <= 59 ->
  0 <= now_at w n -> now_at w n + 2 * US_PER_DAY < MAX_US ->
  parse_hm (VStr (hhmm h m)) = Ok (h, m)
  /\ (base < now_at w (S n) ->
        scheduled_base w h m n = (Ok (base + US_PER_DAY), S (S n), [])
        /\ date_of (base + US_PER_DAY) = date_of (now_at w n) + 1)
  /\ (now_at w (S n) <= base ->
        scheduled_base w h m n = (Ok base, S (S n), [])
        /\ date_of base = date_of (now_at w n)).
Proof.
  intros base Hh Hm H0 Hmax.
  split; [by apply parse_hhmm |].
  rewrite scheduled_base_run by done. fold base.
  split; intros Hcmp.
  - apply Z.ltb_lt in Hcmp. rewrite Hcmp.
    split; [done | by apply base_instant_next_day].
  - apply Z.ltb_ge in Hcmp. rewrite Hcmp.
    split; [done | by apply base_instant_date].
Qed.

(** A world whose clock stands at [t]. *)
Definition clock_world (t : Z) : World :=
  {| now_at := fun _ => t;
     raw_at := fun _ => 7;
     get_at := fun _ _ => None;
     variant_at := fun _ _ => None;
     publish_at := fun _ _ _ => None |}.

Definition eight_am : Z := 739000 * US_PER_DAY + 8 * US_PER_HOUR.

Lemma next_day_only_when_passed_witness :
  scheduled_base (clock_world nine_am) 8 0 0%nat
    = (Ok (base_instant nine_am 8 0 + US_PER_DAY), 2%nat, [])
  /\ date_of (base_instant nine_am 8 0 + US_PER_DAY) = date_of nine_am + 1.
Proof.
  refine (proj1 (proj2 (next_day_only_when_passed (clock_world nine_am) 8 0 0%nat
                          _ _ _ _)) _);
    simpl; unfold nine_am, base_instant; vm_compute; try done;
    split; discriminate.
Defined.

(** At eight o'clock sharp the slot ["08:00"] is not after the clock,
    and it stays today: it is not moved to tomorrow. *)
Lemma base_equal_to_now_stays_today :
  parse_hm (VStr "08:00") = Ok (8, 0)
  /\ base_instant eight_am 8 0 <= eight_am
  /\ result (scheduled_base (clock_world eight_am) 8 0 0%nat)
     = Ok (base_instant eight_am 8 0)
  /\ result (scheduled_base (clock_world eight_am) 8 0 0%nat)
     <> Ok (base_instant eight_am 8 0 + US_PER_DAY).
Proof.
  repeat split; try (vm_compute; congruence).
Qed.

Lemma add_jitter_run w cfg pre n :
  0 <= JITTER_MINUTES cfg ->
  let jitter :=
    - JITTER_MINUTES cfg + raw_at w n mod (2 * JITTER_MINUTES cfg + 1) in
  0 <= pre + jitter * US_PER_MINUTE < MAX_US ->
  add_jitter w cfg pre n = (Ok (pre + jitter * US_PER_MINUTE), S n, [])
  /\ - JITTER_MINUTES cfg <= jitter <= JITTER_MINUTES cfg.
Proof.
  intros HJ jitter Hrange.
  unfold add_jitter, bind, draw, query, ret, lift, randint. simpl.
  replace (JITTER_MINUTES cfg + 1 - - JITTER_MINUTES cfg)
    with (2 * JITTER_MINUTES cfg + 1) by lia.
  destruct (2 * JITTER_MINUTES cfg + 1 <=? 0) eqn:E;
    [apply Z.leb_le in E; lia |].
  simpl. fold jitter. rewrite add_timedelta_in_range by done.
  split; [done |].
  pose proof (Z.mod_pos_bound (raw_at w n) (2 * JITTER_MINUTES cfg + 1) ltac:(lia)).
  unfold jitter. lia.
Qed.

(** C2 (as the code has it).  For a valid [HH:MM], a clock that reads
    [now] and a jitter bound [J], the fire instant is the instant before
    jitter plus an offset of [-J..J] minutes; it is not before [now]
    minus [J] minutes; without the offset its time of day is [HH:MM:00]
    exactly and its date is today or tomorrow.  The date of the fire
    instant itself, offset included, is only known to lie between
    yesterday and the day after tomorrow, for a bound of at most one
    day. *)
Theorem fire_instant_bounds w cfg h m n :
  let J := JITTER_MINUTES cfg in
  let t := now_at w n in
  0 <= h <= 23 -> 0 <= m <= 59 ->
  0 <= J ->
  now_at w (S n) = t ->
  J * US_PER_MINUTE <= t -> t + 2 * US_PER_DAY + J * US_PER_MINUTE < MAX_US ->
  exists pre jitter fire,
    parse_hm (VStr (hhmm h m)) = Ok (h, m)
    /\ scheduled_base w h m n = (Ok pre, S (S n), [])
    /\ add_jitter w cfg pre (S (S n)) = (Ok fire, S (S (S n)), [])
    /\ - J <= jitter <= J
    /\ fire = pre + jitter * US_PER_MINUTE
    /\ t - J * US_PER_MINUTE <= fire
    /\ time_of (fire - jitter * US_PER_MINUTE) = h * US_PER_HOUR + m * US_PER_MINUTE
    /\ (date_of (fire - jitter * US_PER_MINUTE) = date_of t
        \/ date_of (fire - jitter * US_PER_MINUTE) = date_of t + 1)
    /\ (J * US_PER_MINUTE <= US_PER_DAY ->
        date_of t - 1 <= date_of fire <= date_of t + 2).
Proof.
  intros J t Hh Hm HJ Hclock Hlo Hhi.
  assert (H0 : 0 <= t) by (unfold US_PER_MINUTE in *; lia).
  assert (Hmax : t + 2 * US_PER_DAY < MAX_US) by (unfold US_PER_MINUTE in *; lia).
  set (base := base_instant t h m).
  set (pre := if base <? t then base + US_PER_DAY else base).
  assert (Hpre : t <= pre < t + 2 * US_PER_DAY
                 /\ time_of pre = h * US_PER_HOUR + m * US_PER_MINUTE
                 /\ (date_of pre = date_of t \/ date_of pre = date_of t + 1)).
  { pose proof (date_of_bounds t) as Hd.
    assert (Hb : date_of t * US_PER_DAY <= base < date_of t * US_PER_DAY + US_PER_DAY).
    { unfold base, base_instant, US_PER_HOUR, US_PER_MINUTE, US_PER_DAY. lia. }
    unfold pre. destruct (base <? t) eqn:E.
    - apply Z.ltb_lt in E.
      destruct (base_instant_next_day t h m Hh Hm) as [Hdate Htime].
      fold base in Hdate, Htime. repeat split; [lia | lia | done | by right].
    - apply Z.ltb_ge in E.
      destruct (base_instant_date t h m Hh Hm) as [Hdate Htime].
      fold base in Hdate, Htime.
      repeat split; [lia | unfold US_PER_DAY in *; lia | done | by left]. }
  destruct Hpre as (Hbounds & Htime & Hdate).
  set (jitter := - J + raw_at w (S (S n)) mod (2 * J + 1)).
  assert (Hj : - J <= jitter <= J).
  { pose proof (Z.mod_pos_bound (raw_at w (S (S n))) (2 * J + 1) ltac:(lia)).
    unfold jitter. lia. }
  exists pre, jitter, (pre + jitter * US_PER_MINUTE).
  split; [by apply parse_hhmm |].
  split.
  { rewrite scheduled_base_run by done. fold t. rewrite Hclock. done. }
  split.
  { apply add_jitter_run; [done |]. fold J. fold jitter.
    unfold US_PER_MINUTE in *. nia. }
  split; [done |]. split; [done |].
  split; [unfold US_PER_MINUTE in *; nia |].
  replace (pre + jitter * US_PER_MINUTE - jitter * US_PER_MINUTE) with pre by lia.
  split; [done |]. split; [done |].
  intros Hday.
  pose proof (date_of_bounds pre) as Hp.
  assert (Hoff : - US_PER_DAY <= jitter * US_PER_MINUTE <= US_PER_DAY)
    by (unfold US_PER_MINUTE, US_PER_DAY in *; nia).
  unfold date_of in *. split.
  - apply Z.div_le_lower_bound; [unfold US_PER_DAY; lia |].
    unfold US_PER_DAY in *. lia.
  - apply Z.lt_succ_r. apply Z.div_lt_upper_bound; [unfold US_PER_DAY; lia |].
    unfold US_PER_DAY in *. lia.
Qed.

Lemma fire_instant_bounds_witness :
  exists pre jitter fire,
    parse_hm (VStr (hhmm 8 0)) = Ok (8, 0)
    /\ scheduled_base sample_world 8 0 0%nat = (Ok pre, 2%nat, [])
    /\ add_jitter sample_world default_config pre 2%nat = (Ok fire, 3%nat, [])
    /\ - 15 <= jitter <= 15
    /\ fire = pre + jitter * US_PER_MINUTE
    /\ nine_am - 15 * US_PER_MINUTE <= fire
    /\ time_of (fire - jitter * US_PER_MINUTE) = 8 * US_PER_HOUR + 0 * US_PER_MINUTE
    /\ (date_of (fire - jitter * US_PER_MINUTE) = date_of nine_am
        \/ date_of (fire - jitter * US_PER_MINUTE) = date_of nine_am + 1)
    /\ (15 * US_PER_MINUTE <= US_PER_DAY ->
        date_of nine_am - 1 <= date_of fire <= date_of nine_am + 2).
Proof.
  apply (fire_instant_bounds sample_world default_config 8 0 0%nat);
    simpl; unfold nine_am; vm_compute; try done; split; discriminate.
Defined.

(** A world whose clock stands at [t] and whose generator always draws
    [raw]. *)
Definition drawing_world (t raw : Z) : World :=
  {| now_at := fun _ => t;
     raw_at := fun _ => raw;
     get_at := fun _ _ => None;
     variant_at := fun _ _ => None;
     publish_at := fun _ _ _ => None |}.

(** Four minutes to midnight. *)
Definition late_evening : Z :=
  739000 * US_PER_DAY + 23 * US_PER_HOUR + 56 * US_PER_MINUTE.

(** The date of the fire instant can be the day after tomorrow: at 23:56
    the slot ["23:55"] has passed and is set to tomorrow 23:55, and an
    offset of plus ten minutes carries it to 00:05 of the day after.
    The clock reads the same instant twice, the jitter bound is 15
    minutes, the instant is not before [now] minus 15 minutes, and
    without the offset its time of day is 23:55 and its date
    tomorrow. *)
Lemma fire_instant_two_days_on :
  let w := drawing_world late_evening 25 in
  let t := now_at w 0%nat in
  exists pre fire,
    parse_hm (VStr "23:55") = Ok (23, 55)
    /\ now_at w 1%nat = t
    /\ JITTER_MINUTES default_config * US_PER_MINUTE <= t
    /\ t + 2 * US_PER_DAY + JITTER_MINUTES default_config * US_PER_MINUTE < MAX_US
    /\ scheduled_base w 23 55 0%nat = (Ok pre, 2%nat, [])
    /\ add_jitter w default_config pre 2%nat = (Ok fire, 3%nat, [])
    /\ fire = pre + 10 * US_PER_MINUTE
    /\ t - JITTER_MINUTES default_config * US_PER_MINUTE <= fire
    /\ time_of (fire - 10 * US_PER_MINUTE) = 23 * US_PER_HOUR + 55 * US_PER_MINUTE
    /\ date_of (fire - 10 * US_PER_MINUTE) = date_of t + 1
    /\ date_of fire = date_of t + 2.
Proof.
  eexists _, _.
  split; [vm_compute; reflexivity |].
  split; [reflexivity |].
  split; [vm_compute; discriminate |].
  split; [vm_compute; reflexivity |].
  split; [vm_compute; reflexivity |].
  split; [vm_compute; reflexivity |].
  repeat split; vm_compute; try reflexivity; discriminate.
Qed.


(** The offset can also carry the fire instant back over midnight: half
    a minute after midnight, the slot ["00:05"] with an offset of minus
    eight minutes fires at 23:57 of the day before. *)
Lemma jitter_can_cross_midnight :
  let t := 739000 * US_PER_DAY + 30000000 in
  exists pre fire,
    scheduled_base (clock_world t) 0 5 0%nat = (Ok pre, 2%nat, [])
    /\ date_of pre = date_of t
    /\ add_jitter (clock_world t) default_config pre 2%nat = (Ok fire, 3%nat, [])
    /\ fire = pre - 8 * US_PER_MINUTE
    /\ date_of fire = date_of t - 1.
Proof.
  eexists _, _. split; [vm_compute; reflexivity |].
  split; [vm_compute; reflexivity |].
  split; [vm_compute; reflexivity |].
  split; vm_compute; reflexivity.
Qed.


(** ** Runs of the stages of a slot *)

(** Neither a variant request nor a publish call. *)
Definition no_media_call (ev : event) : Prop :=
  is_variant ev = false /\ is_publish ev = false.

Lemma bind_run {A B} (m : M A) (f : A -> M B) n :
  bind m f n
  = match result (m n) with
    | Ok a =>
        (result (f a (queries (m n))), queries (f a (queries (m n))),
         events (m n) ++ events (f a (queries (m n))))
    | Raise e => (Raise e, queries (m n), events (m n))
    end.
Proof.
  unfold bind, result, queries, events.
  destruct (m n) as [[[a|e] n1] e1]; simpl; [| done].
  by destruct (f a n1) as [[r n2] e2].
Qed.

Lemma for_each_cons {A} (x : A) xs (body : A -> M unit) n :
  result (body x n) = Ok tt ->
  for_each (x :: xs) body n
  = (result (for_each xs body (queries (body x n))),
     queries (for_each xs body (queries (body x n))),
     events (body x n) ++ events (for_each xs body (queries (body x n)))).
Proof. intros Hok. simpl. rewrite bind_run, Hok. done. Qed.

Lemma for_each_raise {A} (x : A) xs (body : A -> M unit) n e :
  result (body x n) = Raise e ->
  for_each (x :: xs) body n = (Raise e, queries (body x n), events (body x n)).
Proof. intros Hr. simpl. rewrite bind_run, Hr. done. Qed.

Lemma fetch_json_run w e n :
  fetch_json w e n
  = (Ok (default [] (get_at w n e)), S n,
     EGet e (get_at w n e)
       :: match get_at w n e with
          | Some _ => []
          | None => [ELog (MsgFetchError e)]
          end).
Proof.
  unfold fetch_json, bind, query, emit, log, ret. simpl.
  by destruct (get_at w n e).
Qed.

Lemma scheduled_base_silent w h m n : events (scheduled_base w h m n) = [].
Proof.
  unfold scheduled_base, bind, now, query, ret, lift, events. simpl.
  destruct (replace_hm (now_at w n) h m) as [s|]; simpl; [| done].
  by destruct (s <? now_at w (S n)).
Qed.

Lemma add_jitter_silent w cfg t n : events (add_jitter w cfg t n) = [].
Proof.
  unfold add_jitter, bind, draw, query, ret, lift, events. simpl.
  by destruct (randint _ _ _).
Qed.

Lemma sleep_until_run w t acc_id n :
  result (sleep_until w t acc_id n) = Ok tt
  /\ Forall no_media_call (events (sleep_until w t acc_id n)).
Proof.
  unfold sleep_until, bind, now, query, ret, log, sleep, emit, result, events.
  simpl. destruct (0 <? t - now_at w n); simpl; split; try done.
  repeat constructor.
Qed.

Lemma pick_random_caption_silent w captions platform n :
  events (pick_random_caption w captions platform n) = [].
Proof.
  unfold pick_random_caption.
  destruct (List.filter _ captions) as [|c cs]; [done |].
  unfold bind, draw, query, ret, lift, events. simpl.
  by destruct (choice _ _).
Qed.

Lemma select_content_quiet w items acc_network n :
  Forall no_media_call (events (select_content w items acc_network n)).
Proof.
  unfold select_content, bind, draw, query, ret, lift. simpl.
  destruct (choice items (raw_at w n)) as [item|]; simpl; [| constructor].
  destruct (dict_item item "id") as [item_id|]; simpl; [| constructor].
  rewrite fetch_json_run.
  pose proof (pick_random_caption_silent w
                (default [] (get_at w (S n) (Captions item_id))) acc_network (S (S n)))
    as Hsilent.
  destruct (pick_random_caption w _ acc_network (S (S n))) as [[[c|e] k] evs];
    unfold events in *; simpl in *; subst evs; rewrite ?app_nil_r;
    destruct (get_at w (S n) (Captions item_id)); repeat constructor.
Qed.

Lemma request_variant_run w item acc_id acc_network n :
  request_variant w item acc_id acc_network n
  = match item !! "master_url" with
    | None => (Raise (KeyError "master_url"), n, [])
    | Some master_url =>
        let req : dict := {[ "file_url" := master_url; "platform" := acc_network ]} in
        match variant_at w n req with
        | None => (Ok None, S n, [EVariant req None; ELog (MsgVariantFailed acc_id)])
        | Some body =>
            (Ok (Some (dict_get body "cdn_url")), S n, [EVariant req (Some body)])
        end
    end.
Proof.
  unfold request_variant, bind, lift, dict_item, query, emit, log, ret.
  destruct (item !! "master_url") as [master_url|]; simpl; [| done].
  by destruct (variant_at w n _).
Qed.

Lemma publish_run w acc_id pub payload n :
  publish w acc_id pub payload n
  = (Ok tt, S n,
     [EPublish pub payload (publish_at w n pub payload);
      ELog match publish_at w n pub payload with
           | Some r => MsgPublished acc_id r
           | None => MsgPublishFailed acc_id
           end]).
Proof.
  unfold publish, bind, query, emit, log. simpl.
  by destruct (publish_at w n pub payload).
Qed.

Lemma dispatch_no_variant w account item acc_id acc_network acc_token url caption n :
  Forall (fun ev => is_variant ev = false)
    (events (dispatch w account item acc_id acc_network acc_token url caption n)).
Proof.
  unfold dispatch, bind, lift.
  destruct (publish_payload _ _ _ _ _ _) as [[[pub payload]|]|]; simpl.
  - rewrite publish_run. repeat constructor.
  - repeat constructor.
  - constructor.
Qed.

Lemma not_media_variant evs req r :
  Forall no_media_call evs -> ~ In (EVariant req r) evs.
Proof.
  intros Hq Hin. rewrite Forall_forall in Hq.
  apply list_elem_of_In in Hin.
  by destruct (Hq _ Hin) as [? _].
Qed.

Lemma not_media_publish evs a p r :
  Forall no_media_call evs -> ~ In (EPublish a p r) evs.
Proof.
  intros Hq Hin. rewrite Forall_forall in Hq.
  apply list_elem_of_In in Hin.
  by destruct (Hq _ Hin) as [_ ?].
Qed.

(** A failed variant request ends [post] without a publish call. *)
Lemma post_variant_failed w account acc_id acc_network acc_token items n req :
  In (EVariant req None) (events (post w account acc_id acc_network acc_token items n)) ->
  result (post w account acc_id acc_network acc_token items n) = Ok tt
  /\ forall a payload r,
       ~ In (EPublish a payload r)
           (events (post w account acc_id acc_network acc_token items n)).
Proof.
  unfold post. rewrite bind_run.
  pose proof (select_content_quiet w items acc_network n) as Hsel.
  destruct (result (select_content w items acc_network n)) as [[item caption]|];
    simpl; [| intros Hin; by apply not_media_variant in Hin].
  set (n1 := queries (select_content w items acc_network n)).
  rewrite bind_run, request_variant_run.
  destruct (item !! "master_url") as [master_url|]; simpl;
    [| rewrite app_nil_r; intros Hin; by apply not_media_variant in Hin].
  destruct (variant_at w n1 _) as [body|] eqn:Hvr; simpl.
  - intros Hin. exfalso.
    apply in_app_or in Hin as [Hin | Hin]; [by apply not_media_variant in Hin |].
    destruct Hin as [Hin | Hin]; [discriminate |].
    pose proof (dispatch_no_variant w account item acc_id acc_network acc_token
                  (dict_get body "cdn_url") caption (S n1)) as Hd.
    rewrite Forall_forall in Hd. apply list_elem_of_In in Hin.
    by specialize (Hd _ Hin).
  - intros _. split; [done |].
    intros a payload r Hin.
    apply in_app_or in Hin as [Hin | Hin]; [by apply not_media_publish in Hin |].
    simpl in Hin. destruct Hin as [Hin | [Hin | []]]; discriminate.
Qed.


(** ** A slot whose variant request fails *)

Lemma slot_variant_failed w cfg account acc_id acc_network acc_token items tstr n req :
  In (EVariant req None)
    (events (slot w cfg account acc_id acc_network acc_token items tstr n)) ->
  result (slot w cfg account acc_id acc_network acc_token items tstr n) = Ok tt
  /\ forall a payload r,
       ~ In (EPublish a payload r)
           (events (slot w cfg account acc_id acc_network acc_token items tstr n)).
Proof.
  unfold slot.
  destruct (parse_hm tstr) as [[h m]|];
    [| simpl; intros [Hin | []]; discriminate].
  rewrite bind_run, scheduled_base_silent.
  destruct (result (scheduled_base w h m n)) as [pre|]; simpl;
    [| intros []].
  set (n1 := queries (scheduled_base w h m n)).
  rewrite bind_run, add_jitter_silent.
  destruct (result (add_jitter w cfg pre n1)) as [fire|]; simpl;
    [| intros []].
  rewrite bind_run.
  destruct (sleep_until_run w fire acc_id (queries (add_jitter w cfg pre n1)))
    as [Hok Hquiet].
  rewrite Hok. simpl.
  intros Hin.
  apply in_app_or in Hin as [Hin | Hin]; [by apply not_media_variant in Hin |].
  destruct (post_variant_failed _ _ _ _ _ _ _ _ Hin) as [Hres Hpub].
  split; [done |].
  intros a payload r Hp.
  apply in_app_or in Hp as [Hp | Hp]; [by apply not_media_publish in Hp |].
  by apply Hpub in Hp.
Qed.

(** C4.  In a slot whose variant request failed, no publish call is
    made (so nothing, the master URL included, reaches a publish
    service), the slot ends normally, and the loop runs the slots that
    follow from where this one stopped. *)
Theorem variant_failure_skips_publish
    w cfg account acc_id acc_network acc_token items tstr rest n req :
  let body := slot w cfg account acc_id acc_network acc_token items in
  In (EVariant req None) (events (body tstr n)) ->
  result (body tstr n) = Ok tt
  /\ (forall a payload r, ~ In (EPublish a payload r) (events (body tstr n)))
  /\ for_each (tstr :: rest) body n
     = (result (for_each rest body (queries (body tstr n))),
        queries (for_each rest body (queries (body tstr n))),
        events (body tstr n) ++ events (for_each rest body (queries (body tstr n)))).
Proof.
  intros body Hin.
  destruct (slot_variant_failed _ _ _ _ _ _ _ _ _ _ Hin) as [Hres Hpub].
  split; [exact Hres |]. split; [exact Hpub |].
  by apply for_each_cons.
Qed.

(** The slots of the TikTok account while the variant service is down. *)
Definition slot_without_variant : value -> M unit :=
  slot (world_of [] None) default_config tiktok_account
    (VStr "a2") (VStr "tiktok") (VStr "tok") [sample_item].

Lemma variant_failure_skips_publish_witness :
  result (slot_without_variant (VStr "08:00") 0%nat) = Ok tt
  /\ (forall a payload r,
        ~ In (EPublish a payload r) (events (slot_without_variant (VStr "08:00") 0%nat)))
  /\ for_each [VStr "08:00"; VStr "12:00"] slot_without_variant 0%nat
     = (result (for_each [VStr "12:00"] slot_without_variant
                  (queries (slot_without_variant (VStr "08:00") 0%nat))),
        queries (for_each [VStr "12:00"] slot_without_variant
                   (queries (slot_without_variant (VStr "08:00") 0%nat))),
        events (slot_without_variant (VStr "08:00") 0%nat)
          ++ events (for_each [VStr "12:00"] slot_without_variant
                       (queries (slot_without_variant (VStr "08:00") 0%nat)))).
Proof.
  apply (variant_failure_skips_publish (world_of [] None) default_config
           tiktok_account (VStr "a2") (VStr "tiktok") (VStr "tok") [sample_item]
           (VStr "08:00") [VStr "12:00"] 0%nat
           {[ "file_url" := VStr "https://cdn.example/master.mp4";
              "platform" := VStr "tiktok" ]}).
  vm_compute. do 3 right. left. reflexivity.
Defined.


(** ** The library and the item of a cycle *)

(** The events of one [fetch_json]. *)
Definition fetch_events (e : endpoint) (r : option (list dict)) : list event :=
  EGet e r :: match r with
              | Some _ => []
              | None => [ELog (MsgFetchError e)]
              end.

Lemma choice_in {A} (seq : list A) raw x : choice seq raw = Ok x -> In x seq.
Proof.
  unfold choice. intros H.
  destruct (seq !! _) as [y|] eqn:E; [| discriminate].
  injection H as <-. apply list_elem_of_In. by eapply list_elem_of_lookup_2.
Qed.

(** Every position is drawn by exactly the raw draws of its residue
    class: equal shares of a uniform generator. *)
Lemma choice_position {A} (seq : list A) (i : nat) (q : Z) x :
  seq !! i = Some x ->
  choice seq (Z.of_nat i + q * Z.of_nat (length seq)) = Ok x.
Proof.
  intros Hi. unfold choice.
  pose proof (lookup_lt_Some _ _ _ Hi) as Hlt.
  rewrite Z.mod_add by lia.
  rewrite Z.mod_small by lia.
  rewrite Nat2Z.id. by rewrite Hi.
Qed.

Lemma select_content_item w items acc_network k item caption :
  result (select_content w items acc_network k) = Ok (item, caption) ->
  choice items (raw_at w k) = Ok item.
Proof.
  unfold select_content, bind, draw, query, ret, lift, result. simpl.
  destruct (choice items (raw_at w k)) as [it|]; simpl; [| discriminate].
  destruct (dict_item it "id") as [item_id|]; simpl; [| discriminate].
  rewrite fetch_json_run.
  destruct (pick_random_caption w _ acc_network (S (S k))) as [[[c|e] k'] evs];
    simpl; [| discriminate].
  by intros [= <- _].
Qed.

Definition daily_world : World :=
  world_of [morning_schedule] (Some {[ "cdn_url" := VStr "/static/v1.mp4" ]}).


(** ** Time strings that [int] reads but no clock shows *)

Definition out_of_range_schedule : dict :=
  {[ "id" := VStr "s3"; "account_id" := VStr "a2";
     "post_times" := VList [VStr "10:99"; VStr "12:00"] ]}.

Definition unreadable_schedule : dict :=
  {[ "id" := VStr "s4"; "account_id" := VStr "a2";
     "post_times" := VList [VStr "noon"; VStr "12:00"] ]}.

Definition world_with (sched : dict) : World :=
  world_of [sched] (Some {[ "cdn_url" := VStr "/static/v1.mp4" ]}).

(** A time string that does not split into two integers is logged and
    skipped, and the slot after it is published. *)
Lemma unreadable_time_is_skipped :
  let run :=
    schedule_for_account (world_with unreadable_schedule) default_config
      tiktok_account 0%nat in
  result run = Ok tt
  /\ In (ELog (MsgInvalidTime (VStr "noon"))) (events run)
  /\ length (List.filter is_publish (events run)) = 1%nat.
Proof.
  vm_compute. split; [done |]. split; [| done].
  do 3 right. left. reflexivity.
Qed.

(** [int] is lenient: white space, a sign and single digits pass, so
    such a string is scheduled like its [HH:MM] spelling. *)
Lemma lenient_time_is_accepted :
  parse_hm (VStr " 8:+5") = Ok (8, 5) /\ parse_hm (VStr "1_0:0_0") = Ok (10, 0).
Proof. split; reflexivity. Qed.


(** C3 fails on the code.  ["10:99"] splits into the integers 10 and 99,
    so the [except] of lines 71-73 does not see it; [datetime.replace]
    of line 75 then raises [ValueError] outside any [try] of
    [schedule_for_account]: the cycle of the account ends there, the
    slot ["12:00"] after it is never processed (no variant request, no
    publish call), and the error is only caught by the loop over
    accounts in [main_loop]. *)
Theorem out_of_range_time_aborts_cycle :
  let run :=
    schedule_for_account (world_with out_of_range_schedule) default_config
      tiktok_account 0%nat in
  parse_hm (VStr "10:99") = Ok (10, 99)
  /\ replace_hm nine_am 10 99 = Raise ValueError
  /\ result run = Raise ValueError
  /\ List.filter is_variant (events run) = []
  /\ List.filter is_publish (events run) = []
  /\ ~ In (ELog (MsgInvalidTime (VStr "10:99"))) (events run)
  /\ In (ELog (MsgSchedulingError (VStr "a2") ValueError))
       (events (main_pass (world_with out_of_range_schedule) default_config 0%nat)).
Proof.
  vm_compute. repeat split; try done.
  - intros H. repeat (destruct H as [H | H]; [discriminate |]). done.
  - do 4 right. left. reflexivity.
Qed.


End SchedulerProofs.

(** * Properties of the inventory service *)

Module ApiProofs.
Import Api.

Lemma select_with_filter key v records l :
  select_with key v records = Ok l ->
  l = List.filter (fun r => value_eqb (dict_get r key) v) records.
Proof.
  revert l. induction records as [|r rest IH]; intros l; simpl.
  - by intros [= <-].
  - unfold dict_item, dict_get, dict_get_default.
    destruct (r !! key) as [x|]; simpl; [| discriminate].
    destruct (select_with key v rest) as [more|]; simpl; [| discriminate].
    intros [= <-]. rewrite (IH more eq_refl).
    by destruct (value_eqb x v).
Qed.

(** The items route answers the items of that library, in stored order. *)
Lemma list_library_items_of_library library_id st l :
  list_library_items library_id st = Ok l ->
  l = List.filter (fun r => value_eqb (dict_get r "library_id") (VStr library_id))
        (library_items st).
Proof. apply select_with_filter. Qed.

(** C10.  The body that [create_account] returns has the fields [id],
    [network], [external_user_id] and [handle] and no [access_token]:
    two requests that differ in the token only get the same body for the
    same generated id.  The stored record, and so the listing of
    accounts, carries the token. *)
Theorem create_account_hides_token
    (new_id net ext hdl : string) (tok1 tok2 : option string) (st : Store) :
  let acc1 := {| network := net; external_user_id := ext; handle := hdl;
                 access_token := tok1 |} in
  let acc2 := {| network := net; external_user_id := ext; handle := hdl;
                 access_token := tok2 |} in
  fst (create_account new_id acc1 st) = fst (create_account new_id acc2 st)
  /\ dom (fst (create_account new_id acc1 st))
     = ({[ "id"; "network"; "external_user_id"; "handle" ]} : gset string)
  /\ fst (create_account new_id acc1 st) !! "access_token" = None
  /\ list_accounts (snd (create_account new_id acc1 st))
     = list_accounts st ++ [account_record new_id acc1]
  /\ account_record new_id acc1 !! "access_token" = Some (optional tok1).
Proof.
  intros acc1 acc2. unfold create_account, list_accounts, account_record. simpl.
  split; [reflexivity |].
  split; [rewrite ?dom_insert_L, dom_singleton_L; reflexivity |].
  repeat split; reflexivity.
Qed.

End ApiProofs.

(** * Properties of the variant service *)

Module VariantProofs.
Import Variant.

(** C8 (as the code has it).  Two requests that carry the same
    non-empty seed and are served by the same process select the same
    spice, whatever their platform, their file and the uuids drawn in
    between: the index is the hash of the seed under the secret of the
    process, modulo the number of spices. *)
Theorem same_seed_same_profile env req1 req2 k1 k2 (s : string) :
  s <> "" ->
  seed req1 = Some s ->
  seed req2 = Some s ->
  spice_idx (create_variant env req1 k1) = spice_idx (create_variant env req2 k2)
  /\ spice_idx (create_variant env req1 k1)
     = Z.to_nat (py_hash (hash_secret env) s mod Z.of_nat (length spices))
  /\ (spice_idx (create_variant env req1 k1) < length spices)%nat
  /\ used_seed (create_variant env req1 k1) = s
  /\ used_seed (create_variant env req2 k2) = s.
Proof.
  intros Hs H1 H2.
  assert (Hidx : forall req k, seed req = Some s ->
            spice_idx (create_variant env req k)
              = Z.to_nat (py_hash (hash_secret env) s mod Z.of_nat (length spices))
            /\ used_seed (create_variant env req k) = s).
  { intros req k Hreq. unfold create_variant. rewrite Hreq.
    destruct s as [|c r]; [done |].
    destruct (ffmpeg env _) as [status|]; [| split; reflexivity].
    destruct (negb (status =? 0)); split; reflexivity. }
  destruct (Hidx req1 k1 H1) as [E1 U1], (Hidx req2 k2 H2) as [E2 U2].
  rewrite E1, E2. repeat split; try done.
  pose proof (Z.mod_pos_bound (py_hash (hash_secret env) s)
                (Z.of_nat (length spices)) ltac:(simpl; lia)).
  lia.
Qed.

(** A process started with [PYTHONHASHSEED=0] whose uuids count up from
    [0123456789abcdef0123456789abcdef]; FFmpeg works, S3 is off, the
    static directory can be written. *)
Definition plain_env : Env :=
  {| hash_secret := (0, 0);
     uuid_at := fun k => 1512366075204170929049582354406559215 + Z.of_nat k;
     ffmpeg := fun _ => Exited 0;
     has_boto3 := false;
     S3_BUCKET := None;
     CDN_URL := None;
     AWS_REGION := "us-east-1";
     upload_runs := fun _ => false;
     copy_runs := fun _ _ => true |}.

Definition seeded_request (s : string) : VariantRequest :=
  {| file_url := "https://cdn.example/master.mp4"; platform := "tiktok";
     seed := Some s |}.

Lemma same_seed_same_profile_witness :
  spice_idx (create_variant plain_env (seeded_request "abc") 0%nat)
    = spice_idx (create_variant plain_env (seeded_request "abc") 2%nat)
  /\ spice_idx (create_variant plain_env (seeded_request "abc") 0%nat)
     = Z.to_nat (py_hash (0, 0) "abc" mod Z.of_nat (length spices))
  /\ (spice_idx (create_variant plain_env (seeded_request "abc") 0%nat)
      < length spices)%nat
  /\ used_seed (create_variant plain_env (seeded_request "abc") 0%nat) = "abc"
  /\ used_seed (create_variant plain_env (seeded_request "abc") 2%nat) = "abc".
Proof.
  apply (same_seed_same_profile plain_env (seeded_request "abc")
           (seeded_request "abc") 0%nat 2%nat "abc");
    [discriminate | reflexivity | reflexivity].
Defined.

(** Two requests with the same explicit seed [""] and the same platform:
    the empty seed counts as no seed, each request draws a fresh one,
    and the two spices differ. *)
Lemma empty_seed_is_not_reproducible :
  seed (seeded_request "") = Some ""
  /\ used_seed (create_variant plain_env (seeded_request "") 0%nat)
     = "0123456789abcdef0123456789abcdef"
  /\ spice_idx (create_variant plain_env (seeded_request "") 0%nat) = 4%nat
  /\ uuids_drawn (create_variant plain_env (seeded_request "") 0%nat) = 3%nat
  /\ used_seed (create_variant plain_env (seeded_request "") 3%nat)
     = "0123456789abcdef0123456789abcdf2"
  /\ spice_idx (create_variant plain_env (seeded_request "") 3%nat) = 0%nat.
Proof. vm_compute. repeat split. Qed.

(** The index of a seed depends on the secret of the process. *)
Lemma profile_depends_on_secret :
  spice_index (0, 0) (Some "abc") = 2%nat
  /\ spice_index (1, 0) (Some "abc") <> 2%nat.
Proof. vm_compute. split; [reflexivity | discriminate]. Qed.

End VariantProofs.

(** * Further properties of the scheduler *)

Module SchedulerExtras.
Import Scheduler SchedulerProofs.

(** ** The shape of the events of a post *)

(** An inventory fetch or a log line. *)
Definition inventory_event (ev : event) : Prop :=
  match ev with
  | EGet _ _ | ELog _ => True
  | _ => False
  end.

Lemma value_eqb_str v s : value_eqb v (VStr s) = true <-> v = VStr s.
Proof.
  destruct v as [|t|z|l]; simpl; try (split; [discriminate | discriminate]).
  rewrite String.eqb_eq. split; [by intros -> | by intros [= ->]].
Qed.

Lemma value_eqb_str_false v s : value_eqb v (VStr s) = false <-> v <> VStr s.
Proof.
  rewrite <- value_eqb_str. by destruct (value_eqb v (VStr s)).
Qed.

(** The networks with a branch in lines 103-126. *)
Definition supported (acc_network : value) : Prop :=
  acc_network = VStr "instagram" \/ acc_network = VStr "tiktok"
  \/ acc_network = VStr "youtube".

Lemma publish_payload_unsupported account item acc_network acc_token url caption :
  ~ supported acc_network ->
  publish_payload account item acc_network acc_token url caption = Ok None.
Proof.
  intros Hn. unfold publish_payload.
  destruct (value_eqb acc_network (VStr "instagram")) eqn:E1;
    [apply value_eqb_str in E1; destruct Hn; by left |].
  destruct (value_eqb acc_network (VStr "tiktok")) eqn:E2;
    [apply value_eqb_str in E2; destruct Hn; right; by left |].
  destruct (value_eqb acc_network (VStr "youtube")) eqn:E3;
    [apply value_eqb_str in E3; destruct Hn; right; by right |].
  done.
Qed.

Lemma publish_payload_supported account item acc_network acc_token url caption pub p :
  publish_payload account item acc_network acc_token url caption = Ok (Some (pub, p)) ->
  supported acc_network.
Proof.
  unfold publish_payload.
  destruct (value_eqb acc_network (VStr "instagram")) eqn:E1;
    [apply value_eqb_str in E1; intros _; by left |].
  destruct (value_eqb acc_network (VStr "tiktok")) eqn:E2;
    [apply value_eqb_str in E2; intros _; right; by left |].
  destruct (value_eqb acc_network (VStr "youtube")) eqn:E3;
    [apply value_eqb_str in E3; intros _; right; by right |].
  discriminate.
Qed.

(** The field of a payload that carries the video. *)
Definition video_field (pub : adapter) : string :=
  match pub with
  | IG | TT => "video_url"
  | YT => "file_url"
  end.

Lemma publish_payload_video account item acc_network acc_token url caption pub p :
  publish_payload account item acc_network acc_token url caption = Ok (Some (pub, p)) ->
  p !! video_field pub = Some url.
Proof.
  unfold publish_payload.
  destruct (value_eqb acc_network (VStr "instagram")).
  { unfold dict_item. destruct (account !! "external_user_id"); simpl; [| discriminate].
    intros [= <- <-]. reflexivity. }
  destruct (value_eqb acc_network (VStr "tiktok")); [intros [= <- <-]; reflexivity |].
  destruct (value_eqb acc_network (VStr "youtube")); [intros [= <- <-]; reflexivity |].
  discriminate.
Qed.

(** What [dispatch] does, case by case. *)
Lemma dispatch_run w account item acc_id acc_network acc_token url caption n :
  dispatch w account item acc_id acc_network acc_token url caption n
  = match publish_payload account item acc_network acc_token url caption with
    | Raise e => (Raise e, n, [])
    | Ok None => (Ok tt, n, [ELog (MsgUnsupported acc_network acc_id)])
    | Ok (Some (pub, payload)) =>
        (Ok tt, S n,
         [EPublish pub payload (publish_at w n pub payload);
          ELog match publish_at w n pub payload with
               | Some r => MsgPublished acc_id r
               | None => MsgPublishFailed acc_id
               end])
    end.
Proof.
  unfold dispatch, bind, lift.
  destruct (publish_payload _ _ _ _ _ _) as [[[pub payload]|]|]; simpl; try done.
  by rewrite publish_run.
Qed.

Lemma select_content_inventory w items acc_network n :
  Forall inventory_event (events (select_content w items acc_network n)).
Proof.
  unfold select_content, bind, draw, query, ret, lift. simpl.
  destruct (choice items (raw_at w n)) as [item|]; simpl; [| constructor].
  destruct (dict_item item "id") as [item_id|]; simpl; [| constructor].
  rewrite fetch_json_run.
  pose proof (pick_random_caption_silent w
                (default [] (get_at w (S n) (Captions item_id))) acc_network (S (S n)))
    as Hsilent.
  destruct (pick_random_caption w _ acc_network (S (S n))) as [[[c|e] k] evs];
    unfold events in *; simpl in *; subst evs; rewrite ?app_nil_r;
    destruct (get_at w (S n) (Captions item_id)); repeat constructor.
Qed.

Lemma select_content_in w items acc_network n item caption :
  result (select_content w items acc_network n) = Ok (item, caption) ->
  In item items.
Proof. intros H. apply select_content_item in H. by eapply choice_in. Qed.

(** The three ways a post can go after its content is selected: it
    stops before the variant request, the variant request fails, or the
    variant request succeeds and [dispatch] runs on its [cdn_url]. *)
Inductive post_tail (w : World) (account : dict) (acc_id acc_network acc_token : value)
    (items : list dict) : outcome unit -> list event -> Prop :=
  | tail_stopped e :
      post_tail w account acc_id acc_network acc_token items (Raise e) []
  | tail_variant_failed item master_url :
      In item items ->
      item !! "master_url" = Some master_url ->
      post_tail w account acc_id acc_network acc_token items (Ok tt)
        [EVariant {[ "file_url" := master_url; "platform" := acc_network ]} None;
         ELog (MsgVariantFailed acc_id)]
  | tail_dispatched item master_url body caption k :
      In item items ->
      item !! "master_url" = Some master_url ->
      post_tail w account acc_id acc_network acc_token items
        (result (dispatch w account item acc_id acc_network acc_token
                   (dict_get body "cdn_url") caption k))
        (EVariant {[ "file_url" := master_url; "platform" := acc_network ]} (Some body)
           :: events (dispatch w account item acc_id acc_network acc_token
                        (dict_get body "cdn_url") caption k)).

Lemma post_shape w account acc_id acc_network acc_token items n :
  exists sel tail,
    events (post w account acc_id acc_network acc_token items n) = sel ++ tail
    /\ Forall inventory_event sel
    /\ post_tail w account acc_id acc_network acc_token items
         (result (post w account acc_id acc_network acc_token items n)) tail.
Proof.
  unfold post. rewrite bind_run.
  pose proof (select_content_inventory w items acc_network n) as Hsel.
  destruct (result (select_content w items acc_network n)) as [[item caption]|e] eqn:Hres.
  2:{ exists (events (select_content w items acc_network n)), [].
      rewrite app_nil_r. simpl. repeat split; [done | constructor]. }
  apply select_content_in in Hres.
  set (n1 := queries (select_content w items acc_network n)).
  exists (events (select_content w items acc_network n)).
  rewrite bind_run, request_variant_run.
  destruct (item !! "master_url") as [master_url|] eqn:Hm; simpl.
  2:{ exists []. repeat split; [done | constructor]. }
  destruct (variant_at w n1 _) as [body|] eqn:Hvr; simpl.
  - eexists. split; [reflexivity |]. split; [done |].
    by eapply tail_dispatched.
  - eexists. split; [reflexivity |]. split; [done |].
    by eapply tail_variant_failed.
Qed.

(** ** The shape of the events of a slot *)

Lemma sleep_until_shape w t acc_id n :
  sleep_until w t acc_id n
  = (Ok tt, S n,
     if 0 <? t - now_at w n
     then [ELog (MsgSleeping (t - now_at w n) acc_id); ESleep (t - now_at w n)]
     else []).
Proof.
  unfold sleep_until, bind, now, query, ret, log, sleep, emit. simpl.
  by destruct (0 <? t - now_at w n).
Qed.

(** A slot is skipped with one log line, or stops without any event
    while its fire instant is computed, or waits and posts. *)
Lemma slot_cases w cfg account acc_id acc_network acc_token items tstr n :
  let run := slot w cfg account acc_id acc_network acc_token items tstr n in
  (exists e, parse_hm tstr = Raise e
             /\ run = (Ok tt, n, [ELog (MsgInvalidTime tstr)]))
  \/ (exists e, result run = Raise e /\ events run = [])
  \/ (exists fire k,
        events run
          = events (sleep_until w fire acc_id k)
              ++ events (post w account acc_id acc_network acc_token items (S k))
        /\ result run
           = result (post w account acc_id acc_network acc_token items (S k))).
Proof.
  unfold slot.
  destruct (parse_hm tstr) as [[h m]|e]; [| left; by exists e].
  right. rewrite bind_run, scheduled_base_silent.
  destruct (result (scheduled_base w h m n)) as [pre|e]; simpl;
    [| left; by exists e].
  rewrite bind_run, add_jitter_silent.
  destruct (result (add_jitter w cfg pre _)) as [fire|e]; simpl;
    [| left; by exists e].
  right. rewrite bind_run.
  exists fire, (queries (add_jitter w cfg pre (queries (scheduled_base w h m n)))).
  rewrite !sleep_until_shape. simpl. done.
Qed.

Section Classes.

Variable P : event -> Prop.
Hypothesis P_log : forall m, P (ELog m).
Hypothesis P_get : forall e r, P (EGet e r).
Hypothesis P_variant : forall req r, P (EVariant req r).
Hypothesis P_sleep : forall us, 0 < us -> P (ESleep us).

Lemma inventory_event_P sel : Forall inventory_event sel -> Forall P sel.
Proof.
  intros H. eapply Forall_impl; [exact H |].
  intros [e r|req r|a p r|us|m]; simpl; try done; auto.
Qed.

Lemma sleep_until_P w t acc_id n : Forall P (events (sleep_until w t acc_id n)).
Proof.
  rewrite sleep_until_shape. unfold events. simpl.
  destruct (0 <? t - now_at w n) eqn:E; [| constructor].
  apply Z.ltb_lt in E. repeat constructor; auto.
Qed.

Lemma bind_P {A B} (m : M A) (f : A -> M B) n :
  Forall P (events (m n)) ->
  (forall a k, Forall P (events (f a k))) ->
  Forall P (events (bind m f n)).
Proof.
  intros Hm Hf. rewrite bind_run.
  destruct (result (m n)); simpl; [| done].
  apply Forall_app. split; [done | apply Hf].
Qed.

Lemma log_P m n : Forall P (events (log m n)).
Proof. repeat constructor. apply P_log. Qed.

Lemma fetch_json_P w e n : Forall P (events (fetch_json w e n)).
Proof.
  rewrite fetch_json_run. unfold events. simpl.
  destruct (get_at w n e); repeat constructor; auto.
Qed.

Lemma for_each_P {A} (body : A -> M unit) xs :
  (forall x n, Forall P (events (body x n))) ->
  forall n, Forall P (events (for_each xs body n)).
Proof.
  intros Hbody. induction xs as [|x xs IH]; intros n; simpl; [constructor |].
  rewrite bind_run.
  destruct (result (body x n)); simpl; [| apply Hbody].
  apply Forall_app. split; [apply Hbody | apply IH].
Qed.

Variable w : World.
Variable cfg : Config.
Variable account : dict.

Hypothesis P_dispatch :
  forall acc_id item url caption k,
    Forall P (events (dispatch w account item acc_id (dict_get account "network")
                        (dict_get account "access_token") url caption k)).

Lemma post_P acc_id items n :
  Forall P (events (post w account acc_id (dict_get account "network")
                      (dict_get account "access_token") items n)).
Proof.
  destruct (post_shape w account acc_id (dict_get account "network")
              (dict_get account "access_token") items n)
    as (sel & tail & -> & Hsel & Htail).
  apply Forall_app. split; [by apply inventory_event_P |].
  inversion Htail; subst; repeat constructor; auto.
Qed.

Lemma slot_P acc_id items tstr n :
  Forall P (events (slot w cfg account acc_id (dict_get account "network")
                      (dict_get account "access_token") items tstr n)).
Proof.
  destruct (slot_cases w cfg account acc_id (dict_get account "network")
              (dict_get account "access_token") items tstr n)
    as [(e & _ & ->) | [(e & _ & ->) | (fire & k & -> & _)]].
  - repeat constructor. auto.
  - constructor.
  - apply Forall_app. split; [apply sleep_until_P | apply post_P].
Qed.

(** Every event of an account cycle is a log line, an inventory fetch, a
    variant request, a sleep of positive length or an event of
    [dispatch]. *)
Lemma cycle_P n : Forall P (events (schedule_for_account w cfg account n)).
Proof.
  unfold schedule_for_account.
  apply bind_P; [constructor |]. intros acc_id k.
  destruct (negb (truthy (dict_get account "access_token"))); [apply log_P |].
  apply bind_P; [apply fetch_json_P |]. intros [|sched schedules] k1; [apply log_P |].
  apply bind_P; [constructor |]. intros times k2.
  apply bind_P; [apply fetch_json_P |]. intros [|library libs] k3; [apply log_P |].
  apply bind_P; [constructor |]. intros library_id k4.
  apply bind_P; [apply fetch_json_P |]. intros [|item items] k5; [apply log_P |].
  apply for_each_P. intros tstr k6. apply slot_P.
Qed.

End Classes.


(** ** What a cycle publishes *)

Lemma dispatch_events_cases w account item acc_id acc_network acc_token url caption n :
  let evs := events (dispatch w account item acc_id acc_network acc_token url caption n) in
  evs = []
  \/ evs = [ELog (MsgUnsupported acc_network acc_id)] /\ ~ supported acc_network
  \/ exists pub payload m,
       publish_payload account item acc_network acc_token url caption
         = Ok (Some (pub, payload))
       /\ evs = [EPublish pub payload (publish_at w n pub payload); ELog m].
Proof.
  rewrite dispatch_run.
  destruct (publish_payload _ _ _ _ _ _) as [[[pub payload]|]|] eqn:E; simpl.
  - right. right. by eexists _, _, _.
  - right. left. split; [done |]. intros Hs.
    unfold publish_payload in E. destruct Hs as [-> | [-> | ->]]; simpl in E;
      [destruct (dict_item account "external_user_id"); discriminate
      | discriminate | discriminate].
  - by left.
Qed.

(** X1.  A publish call of a slot carries the [cdn_url] that the variant
    service answered in that slot to the request for the master file of
    one of the items: the video of a publish call is never anything
    else, and the network of the account is one of the three known. *)
Theorem publish_sends_the_variant
    w cfg account acc_id acc_network acc_token items tstr n pub payload r :
  let evs := events (slot w cfg account acc_id acc_network acc_token items tstr n) in
  In (EPublish pub payload r) evs ->
  exists item master_url body,
    In item items
    /\ item !! "master_url" = Some master_url
    /\ In (EVariant {[ "file_url" := master_url; "platform" := acc_network ]}
             (Some body)) evs
    /\ payload !! video_field pub = Some (dict_get body "cdn_url")
    /\ supported acc_network.
Proof.
  intros evs. unfold evs. clear evs.
  destruct (slot_cases w cfg account acc_id acc_network acc_token items tstr n)
    as [(e & _ & ->) | [(e & _ & ->) | (fire & k & -> & _)]].
  - intros [H | []]. discriminate.
  - intros [].
  - intros Hin. apply in_app_or in Hin as [Hin | Hin].
    { rewrite sleep_until_shape in Hin. unfold events in Hin. simpl in Hin.
      destruct (0 <? fire - now_at w k); simpl in Hin;
        [destruct Hin as [H | [H | []]]; discriminate | done]. }
    destruct (post_shape w account acc_id acc_network acc_token items (S k))
      as (sel & tail & Hev & Hsel & Htail).
    rewrite Hev in Hin |- *.
    apply in_app_or in Hin as [Hin | Hin].
    { rewrite Forall_forall in Hsel. apply list_elem_of_In in Hin.
      by apply Hsel in Hin. }
    inversion Htail as [e Hr Ht | item master_url Hitem Hm Hr Ht
                        | item master_url body caption k' Hitem Hm Hr Ht];
      subst tail.
    + destruct Hin.
    + destruct Hin as [H | [H | []]]; discriminate.
    + destruct Hin as [H | Hin]; [discriminate |].
      destruct (dispatch_events_cases w account item acc_id acc_network acc_token
                  (dict_get body "cdn_url") caption k')
        as [E | [[E _] | (pub' & payload' & m & Hp & E)]];
        rewrite E in Hin.
      * destruct Hin.
      * destruct Hin as [H | []]. discriminate.
      * destruct Hin as [H | [H | []]]; [| discriminate].
        injection H as -> -> _.
        exists item, master_url, body.
        split; [done |]. split; [done |].
        split; [apply in_or_app; right; apply in_or_app; right; apply in_eq |].
        split; [by eapply publish_payload_video |].
        by eapply publish_payload_supported.
Qed.

Lemma publish_sends_the_variant_witness :
  exists item master_url body,
    In item [sample_item]
    /\ item !! "master_url" = Some master_url
    /\ In (EVariant {[ "file_url" := master_url; "platform" := VStr "tiktok" ]}
             (Some body))
         (events (slot daily_world default_config tiktok_account (VStr "a2")
                    (VStr "tiktok") (VStr "tok") [sample_item] (VStr "08:00") 0%nat))
    /\ ({[ "user_access_token" := VStr "tok";
           "video_url" := VStr "/static/v1.mp4";
           "title" := VStr "New in store" ]} : dict) !! video_field TT
       = Some (dict_get body "cdn_url")
    /\ supported (VStr "tiktok").
Proof.
  apply (publish_sends_the_variant daily_world default_config tiktok_account
           (VStr "a2") (VStr "tiktok") (VStr "tok") [sample_item] (VStr "08:00")
           0%nat TT _ (Some {| status_code := 200; text := "ok" |})).
  vm_compute. do 4 right. left. reflexivity.
Defined.

(** X2.  For an account whose network is none of [instagram], [tiktok]
    and [youtube] (or is missing), no event of its cycle is a publish
    call. *)
Theorem unsupported_network_never_publishes w cfg account n :
  ~ supported (dict_get account "network") ->
  Forall (fun ev => is_publish ev = false)
    (events (schedule_for_account w cfg account n)).
Proof.
  intros Hn. apply cycle_P; try done.
  intros acc_id item url caption k.
  rewrite dispatch_run, publish_payload_unsupported by done.
  repeat constructor.
Qed.

Definition facebook_account : dict :=
  {[ "id" := VStr "a3"; "network" := VStr "facebook";
     "external_user_id" := VStr "fb-7"; "handle" := VStr "@shop";
     "access_token" := VStr "tok" ]}.

Lemma unsupported_network_never_publishes_witness :
  Forall (fun ev => is_publish ev = false)
    (events (schedule_for_account daily_world default_config facebook_account 0%nat)).
Proof.
  apply (unsupported_network_never_publishes daily_world default_config
           facebook_account 0%nat).
  intros [H | [H | H]]; discriminate.
Defined.

(** X3.  The process never sleeps for a time that is not positive: every
    sleep of an account cycle lasts more than zero microseconds. *)
Theorem sleeps_are_positive w cfg account n :
  Forall (fun ev => match ev with ESleep us => 0 < us | _ => True end)
    (events (schedule_for_account w cfg account n)).
Proof.
  apply cycle_P; try done.
  intros acc_id item url caption k. rewrite dispatch_run.
  destruct (publish_payload _ _ _ _ _ _) as [[[pub payload]|]|];
    repeat constructor.
Qed.

(** X4.  [dispatch] raises in one case only: an Instagram account
    without [external_user_id], with [KeyError]; in every other case it
    returns, whatever the publish service answered. *)
Theorem dispatch_raises_only_without_user_id
    w account item acc_id acc_network acc_token url caption n e :
  result (dispatch w account item acc_id acc_network acc_token url caption n) = Raise e
  <-> acc_network = VStr "instagram"
      /\ account !! "external_user_id" = None
      /\ e = KeyError "external_user_id".
Proof.
  rewrite dispatch_run. unfold publish_payload.
  destruct (value_eqb acc_network (VStr "instagram")) eqn:E1.
  - apply value_eqb_str in E1. unfold dict_item.
    destruct (account !! "external_user_id") as [ext|]; simpl.
    + split; [discriminate | by intros (_ & ? & _)].
    + unfold result. simpl. split; [intros [= <-]; done | by intros (_ & _ & ->)].
  - apply value_eqb_str_false in E1.
    destruct (value_eqb acc_network (VStr "tiktok"));
      [split; [discriminate | by intros (? & _)] |].
    destruct (value_eqb acc_network (VStr "youtube"));
      split; try discriminate; by intros (? & _).
Qed.


(** ** How many variants and publish calls a cycle makes *)

Definition count (f : event -> bool) (evs : list event) : nat :=
  length (List.filter f evs).

Definition is_variant_ok (ev : event) : bool :=
  match ev with
  | EVariant _ (Some _) => true
  | _ => false
  end.

(** No more publish calls than answered variant requests, and at most
    [k] variant requests. *)
Definition within (k : nat) (evs : list event) : Prop :=
  (count is_publish evs <= count is_variant_ok evs)%nat
  /\ (count is_variant_ok evs <= count is_variant evs)%nat
  /\ (count is_variant evs <= k)%nat.

Lemma count_app f l1 l2 : count f (l1 ++ l2) = (count f l1 + count f l2)%nat.
Proof. unfold count. by rewrite List.filter_app, length_app. Qed.

Lemma within_app a b l1 l2 :
  within a l1 -> within b l2 -> within (a + b) (l1 ++ l2).
Proof. unfold within. rewrite !count_app. lia. Qed.

Lemma within_mono a b l : (a <= b)%nat -> within a l -> within b l.
Proof. unfold within. lia. Qed.

Lemma within_inventory sel : Forall inventory_event sel -> within 0 sel.
Proof.
  induction 1 as [|ev sel Hev _ IH]; [by cbv |].
  change (ev :: sel) with ([ev] ++ sel).
  apply (within_app 0 0); [| done].
  destruct ev; try done; by cbv.
Qed.

Lemma within_fetch w e n : within 0 (events (fetch_json w e n)).
Proof.
  rewrite fetch_json_run. unfold events. simpl.
  destruct (get_at w n e); cbv; lia.
Qed.

Lemma within_sleep w t acc_id n : within 0 (events (sleep_until w t acc_id n)).
Proof.
  rewrite sleep_until_shape. unfold events. simpl.
  destruct (0 <? t - now_at w n); cbv; lia.
Qed.

Lemma within_bind {A B} (m : M A) (f : A -> M B) n b :
  within 0 (events (m n)) ->
  (forall x, result (m n) = Ok x -> within b (events (f x (queries (m n))))) ->
  within b (events (bind m f n)).
Proof.
  intros Hm Hf. rewrite bind_run.
  destruct (result (m n)) as [x|e] eqn:E; simpl.
  - apply (within_app 0 b); [done | by apply Hf].
  - eapply within_mono; [| exact Hm]. lia.
Qed.

Lemma within_post w account acc_id acc_network acc_token items n :
  within 1 (events (post w account acc_id acc_network acc_token items n)).
Proof.
  destruct (post_shape w account acc_id acc_network acc_token items n)
    as (sel & tail & -> & Hsel & Htail).
  apply (within_app 0 1); [by apply within_inventory |].
  inversion Htail as [e Hr Ht | item master_url Hitem Hm Hr Ht
                      | item master_url body caption k Hitem Hm Hr Ht].
  - cbv. lia.
  - cbv. lia.
  - rewrite dispatch_run.
    destruct (publish_payload _ _ _ _ _ _) as [[[pub payload]|]|]; cbv; lia.
Qed.

Lemma within_slot w cfg account acc_id acc_network acc_token items tstr n :
  within 1 (events (slot w cfg account acc_id acc_network acc_token items tstr n)).
Proof.
  destruct (slot_cases w cfg account acc_id acc_network acc_token items tstr n)
    as [(e & _ & ->) | [(e & _ & ->) | (fire & k & -> & _)]].
  - cbv. lia.
  - cbv. lia.
  - apply (within_app 0 1); [apply within_sleep | apply within_post].
Qed.

Lemma within_for_each {A} (body : A -> M unit) xs :
  (forall x n, within 1 (events (body x n))) ->
  forall n, within (length xs) (events (for_each xs body n)).
Proof.
  intros Hbody. induction xs as [|x xs IH]; intros n; simpl; [cbv; lia |].
  rewrite bind_run.
  destruct (result (body x n)); simpl.
  - apply (within_app 1 (length xs)); [apply Hbody | apply IH].
  - eapply within_mono; [| apply Hbody]. lia.
Qed.

Lemma effective_times_length cfg schedules times :
  0 <= POSTS_PER_DAY cfg ->
  effective_times cfg schedules = Ok times ->
  (length times <= Z.to_nat (POSTS_PER_DAY cfg))%nat.
Proof.
  intros Hn. unfold effective_times.
  destruct (extend_times [] schedules) as [all|]; simpl; [| discriminate].
  intros [= <-]. rewrite slice_to_nonneg by done.
  rewrite length_take. lia.
Qed.

(** X5.  With a limit that is not negative, an account cycle makes at
    most [POSTS_PER_DAY] variant requests, and never more publish calls
    than variant requests that were answered. *)
Theorem cycle_stays_within_posts_per_day w cfg account n :
  0 <= POSTS_PER_DAY cfg ->
  let evs := events (schedule_for_account w cfg account n) in
  (count is_publish evs <= count is_variant_ok evs)%nat
  /\ (count is_variant_ok evs <= count is_variant evs)%nat
  /\ (count is_variant evs <= Z.to_nat (POSTS_PER_DAY cfg))%nat.
Proof.
  intros Hn evs. unfold evs. clear evs.
  change (within (Z.to_nat (POSTS_PER_DAY cfg))
            (events (schedule_for_account w cfg account n))).
  assert (Hlog : forall m k, within (Z.to_nat (POSTS_PER_DAY cfg)) (events (log m k)))
    by (intros; cbv [log emit events count List.filter is_publish is_variant
                      is_variant_ok within length snd]; lia).
  unfold schedule_for_account.
  apply within_bind; [cbv; lia |]. intros acc_id _.
  destruct (negb (truthy (dict_get account "access_token"))); [apply Hlog |].
  apply within_bind; [apply within_fetch |]. intros [|sched schedules] _;
    [apply Hlog |].
  apply within_bind; [cbv; lia |]. intros times Htimes.
  apply (effective_times_length cfg _ _ Hn) in Htimes.
  apply within_bind; [apply within_fetch |]. intros [|library libs] _;
    [apply Hlog |].
  apply within_bind; [cbv; lia |]. intros library_id _.
  apply within_bind; [apply within_fetch |]. intros [|item items] _;
    [apply Hlog |].
  eapply within_mono; [exact Htimes |].
  apply within_for_each. intros tstr k. apply within_slot.
Qed.

Lemma cycle_stays_within_posts_per_day_witness :
  let evs := events (schedule_for_account daily_world default_config
                       tiktok_account 0%nat) in
  (count is_publish evs <= count is_variant_ok evs)%nat
  /\ (count is_variant_ok evs <= count is_variant evs)%nat
  /\ (count is_variant evs <= Z.to_nat 3)%nat.
Proof.
  apply (cycle_stays_within_posts_per_day daily_world default_config
           tiktok_account 0%nat).
  simpl. lia.
Defined.


(** ** Captions *)

(** X6.  [pick_random_caption] answers [None] without a draw when no
    caption is for the platform; otherwise it makes one draw and answers
    the body of a caption of that platform. *)
Theorem caption_is_for_the_platform w captions platform n v :
  result (pick_random_caption w captions platform n) = Ok v ->
  (v = VNone
   /\ (forall c, In c captions -> value_eqb (dict_get c "platform") platform = false)
   /\ queries (pick_random_caption w captions platform n) = n)
  \/ (exists c, In c captions
                /\ value_eqb (dict_get c "platform") platform = true
                /\ c !! "body" = Some v
                /\ queries (pick_random_caption w captions platform n) = S n).
Proof.
  unfold pick_random_caption.
  destruct (List.filter _ captions) as [|c0 cs] eqn:Hf.
  - intros [= <-]. left. split; [done |]. split; [| done].
    intros c Hc.
    destruct (value_eqb (dict_get c "platform") platform) eqn:E; [| done].
    assert (Hin : In c (List.filter
                          (fun c => value_eqb (dict_get c "platform") platform)
                          captions))
      by (apply List.filter_In; by split).
    rewrite Hf in Hin. destruct Hin.
  - unfold bind, draw, query, ret, lift, result, queries. simpl.
    destruct (choice (c0 :: cs) (raw_at w n)) as [c|] eqn:Hc; simpl; [| discriminate].
    unfold dict_item. destruct (c !! "body") as [b|] eqn:Hb; simpl; [| discriminate].
    intros [= <-]. right. exists c.
    apply choice_in in Hc. rewrite <- Hf in Hc.
    apply List.filter_In in Hc as [Hin Hp]. done.
Qed.

Lemma caption_is_for_the_platform_witness :
  (VStr "New in store" = VNone
   /\ (forall c, In c [sample_caption] ->
         value_eqb (dict_get c "platform") (VStr "tiktok") = false)
   /\ queries (pick_random_caption sample_world [sample_caption] (VStr "tiktok") 0%nat)
      = 0%nat)
  \/ (exists c, In c [sample_caption]
                /\ value_eqb (dict_get c "platform") (VStr "tiktok") = true
                /\ c !! "body" = Some (VStr "New in store")
                /\ queries (pick_random_caption sample_world [sample_caption]
                              (VStr "tiktok") 0%nat) = 1%nat).
Proof.
  apply (caption_is_for_the_platform sample_world [sample_caption] (VStr "tiktok")
           0%nat (VStr "New in store")).
  reflexivity.
Defined.

(** ** Time strings *)

Fixpoint count_char (c : ascii) (s : string) : nat :=
  match s with
  | EmptyString => 0%nat
  | String d r => ((if Ascii.eqb d c then 1 else 0) + count_char c r)%nat
  end.

Lemma str_split_length sep s : length (str_split sep s) = S (count_char sep s).
Proof.
  induction s as [|d r IH]; simpl; [done |].
  destruct (Ascii.eqb d sep); simpl; [by rewrite IH |].
  destruct (str_split sep r) as [|p ps]; simpl in *; [done | done].
Qed.

(** X7.  A time that is not a string, or a string that has no colon or
    more than one, is logged as invalid and skipped: the slot makes no
    query, returns, and the loop goes on with the slots that follow. *)
Theorem time_without_one_colon_is_skipped
    w cfg account acc_id acc_network acc_token items tstr rest n :
  let body := slot w cfg account acc_id acc_network acc_token items in
  (forall s, tstr = VStr s -> count_char ":" s <> 1%nat) ->
  body tstr n = (Ok tt, n, [ELog (MsgInvalidTime tstr)])
  /\ for_each (tstr :: rest) body n
     = (result (for_each rest body n), queries (for_each rest body n),
        ELog (MsgInvalidTime tstr) :: events (for_each rest body n)).
Proof.
  intros body Hcolons.
  assert (Hparse : exists e, parse_hm tstr = Raise e).
  { destruct tstr as [|s|z|l]; simpl; try by eexists.
    specialize (Hcolons s eq_refl).
    pose proof (str_split_length ":" s) as Hlen.
    destruct (str_split ":" s) as [|a [|b [|c ps]]]; simpl in Hlen;
      try by eexists.
    exfalso. apply Hcolons. lia. }
  destruct Hparse as [e He].
  assert (Hrun : body tstr n = (Ok tt, n, [ELog (MsgInvalidTime tstr)])).
  { unfold body, slot. by rewrite He. }
  split; [exact Hrun |].
  rewrite for_each_cons by (by rewrite Hrun).
  by rewrite Hrun.
Qed.

Lemma time_without_one_colon_is_skipped_witness :
  slot sample_world default_config tiktok_account (VStr "a2") (VStr "tiktok")
    (VStr "tok") [sample_item] (VStr "0800") 0%nat
  = (Ok tt, 0%nat, [ELog (MsgInvalidTime (VStr "0800"))])
  /\ for_each [VStr "0800"; VStr "12:00"]
       (slot sample_world default_config tiktok_account (VStr "a2") (VStr "tiktok")
          (VStr "tok") [sample_item]) 0%nat
     = (result (for_each [VStr "12:00"]
                  (slot sample_world default_config tiktok_account (VStr "a2")
                     (VStr "tiktok") (VStr "tok") [sample_item]) 0%nat),
        queries (for_each [VStr "12:00"]
                   (slot sample_world default_config tiktok_account (VStr "a2")
                      (VStr "tiktok") (VStr "tok") [sample_item]) 0%nat),
        ELog (MsgInvalidTime (VStr "0800"))
          :: events (for_each [VStr "12:00"]
                       (slot sample_world default_config tiktok_account (VStr "a2")
                          (VStr "tiktok") (VStr "tok") [sample_item]) 0%nat)).
Proof.
  apply (time_without_one_colon_is_skipped sample_world default_config
           tiktok_account (VStr "a2") (VStr "tiktok") (VStr "tok") [sample_item]
           (VStr "0800") [VStr "12:00"] 0%nat).
  intros s [= <-]. vm_compute. discriminate.
Defined.

(** X8.  A time string that reads as two integers of which the hour is
    not in 0..23 or the minute not in 0..59 makes the slot raise after
    one reading of the clock, without any event, and the loop over the
    slots ends there: the slots that follow are not run.  The exception
    is [ValueError] when both numbers fit a C [int] and [OverflowError]
    when one of them does not. *)
Theorem time_out_of_range_ends_the_loop
    w cfg account acc_id acc_network acc_token items tstr rest n h m :
  let body := slot w cfg account acc_id acc_network acc_token items in
  let e := if fits_int h && fits_int m then ValueError else OverflowError in
  parse_hm tstr = Ok (h, m) ->
  ~ (0 <= h <= 23 /\ 0 <= m <= 59) ->
  body tstr n = (Raise e, S n, [])
  /\ for_each (tstr :: rest) body n = (Raise e, S n, []).
Proof.
  intros body e Hparse Hrange.
  assert (Hrep : replace_hm (now_at w n) h m = Raise e).
  { unfold replace_hm, e.
    destruct (fits_int h && fits_int m); [| done]. cbn [negb].
    destruct ((0 <=? h) && (h <=? 23) && (0 <=? m) && (m <=? 59)) eqn:E; [| done].
    rewrite !andb_true_iff, !Z.leb_le in E. lia. }
  assert (Hrun : body tstr n = (Raise e, S n, [])).
  { unfold body, slot. rewrite Hparse.
    unfold bind at 1, scheduled_base, bind at 1, now, bind at 1, query, ret. simpl.
    unfold lift. rewrite Hrep. reflexivity. }
  split; [exact Hrun |].
  rewrite (for_each_raise _ _ _ _ e) by (by rewrite Hrun).
  by rewrite Hrun.
Qed.

Lemma time_out_of_range_ends_the_loop_witness :
  (slot sample_world default_config tiktok_account (VStr "a2") (VStr "tiktok")
     (VStr "tok") [sample_item] (VStr "24:00") 0%nat
   = (Raise ValueError, 1%nat, [])
   /\ for_each [VStr "24:00"; VStr "12:00"]
        (slot sample_world default_config tiktok_account (VStr "a2") (VStr "tiktok")
           (VStr "tok") [sample_item]) 0%nat
      = (Raise ValueError, 1%nat, []))
  /\ (slot sample_world default_config tiktok_account (VStr "a2") (VStr "tiktok")
        (VStr "tok") [sample_item] (VStr "09:4294967296") 0%nat
      = (Raise OverflowError, 1%nat, [])
      /\ for_each [VStr "09:4294967296"; VStr "12:00"]
           (slot sample_world default_config tiktok_account (VStr "a2")
              (VStr "tiktok") (VStr "tok") [sample_item]) 0%nat
         = (Raise OverflowError, 1%nat, [])).
Proof.
  split.
  - apply (time_out_of_range_ends_the_loop sample_world default_config
             tiktok_account (VStr "a2") (VStr "tiktok") (VStr "tok") [sample_item]
             (VStr "24:00") [VStr "12:00"] 0%nat 24 0).
    + reflexivity.
    + lia.
  - apply (time_out_of_range_ends_the_loop sample_world default_config
             tiktok_account (VStr "a2") (VStr "tiktok") (VStr "tok") [sample_item]
             (VStr "09:4294967296") [VStr "12:00"] 0%nat 9 4294967296).
    + reflexivity.
    + lia.
Defined.


(** ** Early ends of a cycle *)

(** X9.  With an id and a token, a cycle whose schedule list is empty
    (or could not be fetched) ends after that one fetch; with schedules
    but an empty (or failed) library list it ends after the second
    fetch.  Neither asks for items, captions, variants or a publish. *)
Theorem cycle_ends_without_schedules_or_libraries w cfg account n acc_id :
  account !! "id" = Some acc_id ->
  truthy (dict_get account "access_token") = true ->
  let schedules := get_at w n (Schedules acc_id) in
  let libs := get_at w (S n) Libraries in
  (default [] schedules = [] ->
     schedule_for_account w cfg account n
     = (Ok tt, S n,
        fetch_events (Schedules acc_id) schedules ++ [ELog (MsgNoSchedules acc_id)]))
  /\ (forall times,
        default [] schedules <> [] ->
        effective_times cfg (default [] schedules) = Ok times ->
        default [] libs = [] ->
        schedule_for_account w cfg account n
        = (Ok tt, S (S n),
           fetch_events (Schedules acc_id) schedules
             ++ fetch_events Libraries libs ++ [ELog MsgNoLibraries])).
Proof.
  intros Hid Htok schedules libs.
  assert (Hstart : schedule_for_account w cfg account n
            = bind (fetch_json w (Schedules acc_id)) (fun schedules =>
                match schedules with
                | [] => log (MsgNoSchedules acc_id)
                | _ =>
                    bind (lift (effective_times cfg schedules)) (fun times_strs =>
                    bind (fetch_json w Libraries) (fun libs =>
                      match libs with
                      | [] => log MsgNoLibraries
                      | library :: _ =>
                          bind (lift (dict_item library "id")) (fun library_id =>
                          bind (fetch_json w (Items library_id)) (fun items =>
                            match items with
                            | [] => log MsgNoItems
                            | _ =>
                                for_each times_strs
                                  (slot w cfg account acc_id (dict_get account "network")
                                     (dict_get account "access_token") items)
                            end))
                      end))
                end) n).
  { unfold schedule_for_account, bind at 1, lift at 1, dict_item. rewrite Hid.
    rewrite Htok. simpl.
    by destruct (bind _ _ n) as [[r k] evs]. }
  rewrite Hstart. clear Hstart.
  split.
  - unfold bind at 1. rewrite fetch_json_run. fold schedules.
    intros ->. unfold log, emit, fetch_events. simpl.
    by destruct schedules.
  - intros times Hne Htimes Hlibs.
    unfold bind at 1. rewrite fetch_json_run. fold schedules.
    destruct (default [] schedules) as [|sched rest] eqn:Hs; [done |].
    cbv beta iota.
    unfold bind at 1, lift at 1. rewrite Htimes.
    unfold bind at 1. rewrite fetch_json_run. fold libs. rewrite Hlibs.
    unfold log, emit, fetch_events. simpl.
    destruct schedules, libs; simpl; done.
Qed.

Lemma cycle_ends_without_schedules_or_libraries_witness :
  schedule_for_account sample_world default_config tiktok_account 0%nat
  = (Ok tt, 1%nat,
     fetch_events (Schedules (VStr "a2")) (Some [])
       ++ [ELog (MsgNoSchedules (VStr "a2"))]).
Proof.
  refine (proj1 (cycle_ends_without_schedules_or_libraries sample_world
                   default_config tiktok_account 0%nat (VStr "a2")
                   eq_refl eq_refl) eq_refl).
Defined.

Lemma cycle_starts_with_schedules w cfg account n acc_id :
  account !! "id" = Some acc_id ->
  truthy (dict_get account "access_token") = true ->
  exists tail,
    events (schedule_for_account w cfg account n)
    = EGet (Schedules acc_id) (get_at w n (Schedules acc_id)) :: tail.
Proof.
  intros Hid Htok.
  unfold schedule_for_account. rewrite bind_run.
  unfold lift at 1 2 3, dict_item. rewrite Hid.
  cbn [result queries events fst snd]. rewrite Htok. cbn [negb app].
  rewrite bind_run, fetch_json_run.
  cbn [result queries events fst snd app]. by eexists.
Qed.

(** ** The loop over the accounts *)

(** Lines 147-151: the cycle of one account under the [try] of
    [main_loop]. *)
Definition guarded w cfg (acc : dict) : M unit :=
  try_except (schedule_for_account w cfg acc) (fun e =>
    bind (lift (dict_item acc "id")) (fun acc_id =>
      log (MsgSchedulingError acc_id e))).

(** The events of the guarded cycles of a list of accounts, one after
    the other. *)
Fixpoint cycles_events w cfg (accounts : list dict) (k : nat) : list event :=
  match accounts with
  | [] => []
  | acc :: rest =>
      events (guarded w cfg acc k)
        ++ cycles_events w cfg rest (queries (guarded w cfg acc k))
  end.

Lemma guarded_run w cfg acc acc_id k :
  acc !! "id" = Some acc_id ->
  result (guarded w cfg acc k) = Ok tt
  /\ events (guarded w cfg acc k)
     = events (schedule_for_account w cfg acc k)
         ++ match result (schedule_for_account w cfg acc k) with
            | Ok _ => []
            | Raise e => [ELog (MsgSchedulingError acc_id e)]
            end.
Proof.
  intros Hid. unfold guarded, try_except, result, events.
  destruct (schedule_for_account w cfg acc k) as [[[[]|e] k1] evs]; simpl.
  - by rewrite app_nil_r.
  - unfold bind, lift, dict_item, log, emit. rewrite Hid. simpl. done.
Qed.

Lemma for_each_guarded w cfg accounts :
  Forall (fun acc => is_Some (acc !! "id")) accounts ->
  forall k,
    result (for_each accounts (guarded w cfg) k) = Ok tt
    /\ events (for_each accounts (guarded w cfg) k) = cycles_events w cfg accounts k.
Proof.
  induction 1 as [|acc rest [acc_id Hid] _ IH]; intros k; [done |].
  destruct (guarded_run w cfg acc acc_id k Hid) as [Hok _].
  rewrite for_each_cons by done.
  destruct (IH (queries (guarded w cfg acc k))) as [Hr He].
  unfold result, events in *. simpl. by rewrite Hr, He.
Qed.

Lemma main_pass_run w cfg n accounts :
  get_at w n Accounts = Some accounts ->
  accounts <> [] ->
  main_pass w cfg n
  = match result (for_each accounts (guarded w cfg) (S n)) with
    | Ok _ =>
        (Ok tt, queries (for_each accounts (guarded w cfg) (S n)),
         EGet Accounts (Some accounts)
           :: events (for_each accounts (guarded w cfg) (S n))
           ++ [ELog MsgCompleted; ESleep 600000000])
    | Raise e =>
        (Raise e, queries (for_each accounts (guarded w cfg) (S n)),
         EGet Accounts (Some accounts)
           :: events (for_each accounts (guarded w cfg) (S n)))
    end.
Proof.
  intros Hget Hne.
  unfold main_pass, bind at 1. rewrite fetch_json_run, Hget. simpl.
  destruct accounts as [|acc rest]; [done |].
  fold (guarded w cfg). unfold bind at 1.
  destruct (for_each (acc :: rest) (guarded w cfg) (S n)) as [[[[]|e] k] evs];
    unfold result, events, queries; simpl; [| done].
  unfold bind, log, sleep, emit. simpl. done.
Qed.

(** X10.  When every listed account has an id, a turn of the main loop
    never raises: each account gets its guarded cycle, one after the
    other, whatever the cycles before it raised (a raised error is
    logged after the events of its cycle), and the turn ends with its
    log line and a sleep of 600 seconds. *)
Theorem main_pass_isolates_accounts w cfg n accounts :
  get_at w n Accounts = Some accounts ->
  accounts <> [] ->
  Forall (fun acc => is_Some (acc !! "id")) accounts ->
  main_pass w cfg n
  = (Ok tt, queries (for_each accounts (guarded w cfg) (S n)),
     EGet Accounts (Some accounts)
       :: cycles_events w cfg accounts (S n)
       ++ [ELog MsgCompleted; ESleep 600000000])
  /\ forall acc acc_id k,
       In acc accounts -> acc !! "id" = Some acc_id ->
       result (guarded w cfg acc k) = Ok tt
       /\ events (guarded w cfg acc k)
          = events (schedule_for_account w cfg acc k)
              ++ match result (schedule_for_account w cfg acc k) with
                 | Ok _ => []
                 | Raise e => [ELog (MsgSchedulingError acc_id e)]
                 end.
Proof.
  intros Hget Hne Hids. split.
  - rewrite (main_pass_run w cfg n accounts Hget Hne).
    destruct (for_each_guarded w cfg accounts Hids (S n)) as [Hr He].
    by rewrite Hr, He.
  - intros acc acc_id k _ Hid. by apply guarded_run.
Qed.

Lemma main_pass_isolates_accounts_witness :
  main_pass (world_with out_of_range_schedule) default_config 0%nat
  = (Ok tt,
     queries (for_each [tiktok_account]
                (guarded (world_with out_of_range_schedule) default_config) 1%nat),
     EGet Accounts (Some [tiktok_account])
       :: cycles_events (world_with out_of_range_schedule) default_config
            [tiktok_account] 1%nat
       ++ [ELog MsgCompleted; ESleep 600000000]).
Proof.
  refine (proj1 (main_pass_isolates_accounts (world_with out_of_range_schedule)
                   default_config 0%nat [tiktok_account] eq_refl _ _)).
  - discriminate.
  - repeat constructor. by eexists.
Defined.

(** X11.  A listed account without an id ends the turn of the main loop
    with [KeyError]: its cycle raises, the handler that logs the error
    reads the id and raises again, and the accounts after it are not
    visited. *)
Theorem account_without_id_ends_main_pass w cfg n good acc rest :
  get_at w n Accounts = Some (good ++ acc :: rest) ->
  Forall (fun a => is_Some (a !! "id")) good ->
  acc !! "id" = None ->
  result (main_pass w cfg n) = Raise (KeyError "id")
  /\ events (main_pass w cfg n)
     = EGet Accounts (Some (good ++ acc :: rest)) :: cycles_events w cfg good (S n).
Proof.
  intros Hget Hgood Hid.
  assert (Hbad : forall k, guarded w cfg acc k = (Raise (KeyError "id"), k, [])).
  { intros k. unfold guarded, try_except, schedule_for_account, bind, lift, dict_item.
    rewrite Hid. reflexivity. }
  assert (Hloop : forall k,
            result (for_each (good ++ acc :: rest) (guarded w cfg) k)
              = Raise (KeyError "id")
            /\ events (for_each (good ++ acc :: rest) (guarded w cfg) k)
               = cycles_events w cfg good k).
  { clear Hget. induction Hgood as [|a good' [a_id Ha] _ IH]; intros k.
    - simpl app. rewrite (for_each_raise _ _ _ _ (KeyError "id"))
        by (by rewrite Hbad).
      by rewrite Hbad.
    - destruct (guarded_run w cfg a a_id k Ha) as [Hok _].
      simpl app. rewrite for_each_cons by done.
      destruct (IH (queries (guarded w cfg a k))) as [Hr He].
      unfold result, events in *. simpl. by rewrite Hr, He. }
  rewrite (main_pass_run w cfg n (good ++ acc :: rest) Hget)
    by (by destruct good).
  destruct (Hloop (S n)) as [Hr He].
  rewrite Hr. unfold result, events. simpl. split; [done |].
  f_equal. exact He.
Qed.

Definition nameless_account : dict :=
  {[ "network" := VStr "tiktok"; "access_token" := VStr "tok" ]}.

Definition nameless_world : World :=
  {| now_at := fun _ => nine_am;
     raw_at := fun _ => 7;
     get_at := fun _ e =>
       match e with
       | Accounts => Some [nameless_account; tiktok_account]
       | _ => Some []
       end;
     variant_at := fun _ _ => None;
     publish_at := fun _ _ _ => None |}.

Lemma account_without_id_ends_main_pass_witness :
  result (main_pass nameless_world default_config 0%nat) = Raise (KeyError "id")
  /\ events (main_pass nameless_world default_config 0%nat)
     = EGet Accounts (Some ([] ++ nameless_account :: [tiktok_account]))
         :: cycles_events nameless_world default_config [] 1%nat.
Proof.
  apply (account_without_id_ends_main_pass nameless_world default_config 0%nat
           [] nameless_account [tiktok_account]);
    [reflexivity | constructor | reflexivity].
Defined.

(** X12.  When the account list is empty or could not be fetched, the
    turn of the main loop is that one fetch, a log line and a sleep of
    600 seconds. *)
Theorem main_pass_without_accounts w cfg n :
  default [] (get_at w n Accounts) = [] ->
  main_pass w cfg n
  = (Ok tt, S n,
     fetch_events Accounts (get_at w n Accounts)
       ++ [ELog MsgNoAccounts; ESleep 600000000]).
Proof.
  intros Hempty.
  unfold main_pass, bind at 1. rewrite fetch_json_run, Hempty.
  unfold bind, log, sleep, emit, fetch_events. simpl.
  by destruct (get_at w n Accounts).
Qed.

Lemma main_pass_without_accounts_witness :
  main_pass (clock_world nine_am) default_config 0%nat
  = (Ok tt, 1%nat,
     fetch_events Accounts None ++ [ELog MsgNoAccounts; ESleep 600000000]).
Proof.
  apply (main_pass_without_accounts (clock_world nine_am) default_config 0%nat).
  reflexivity.
Defined.


End SchedulerExtras.

(** * Content selection *)

Module SelectionProofs.
Import Scheduler SchedulerProofs SchedulerExtras.

(** ** What a post does with the list of items *)

(** The request that the variant service gets for an item. *)
Definition variant_request_of (item : dict) (platform : value) (req : dict) : Prop :=
  exists master_url,
    item !! "master_url" = Some master_url
    /\ req = {[ "file_url" := master_url; "platform" := platform ]}.

(** An event that owes its subject to the list: the captions of one of
    its items are read, a variant of one of its items is asked for; no
    other list of the inventory is read. *)
Definition about_items (items : list dict) (platform : value) (ev : event) : Prop :=
  match ev with
  | EGet (Captions item_id) _ =>
      exists item, In item items /\ item !! "id" = Some item_id
  | EGet _ _ => False
  | EVariant req _ => exists item, In item items /\ variant_request_of item platform req
  | _ => True
  end.

Lemma select_content_run w items acc_network k item item_id :
  choice items (raw_at w k) = Ok item ->
  item !! "id" = Some item_id ->
  let answer := get_at w (S k) (Captions item_id) in
  let pick := pick_random_caption w (default [] answer) acc_network (S (S k)) in
  select_content w items acc_network k
  = (match result pick with
     | Ok caption => Ok (item, match caption with VNone => VStr "" | c => c end)
     | Raise e => Raise e
     end,
     queries pick, fetch_events (Captions item_id) answer).
Proof.
  intros Hc Hid answer pick.
  unfold select_content, bind at 1, draw, bind at 1, query, ret.
  cbn beta iota zeta.
  unfold bind at 1, lift at 1. rewrite Hc.
  unfold bind at 1, lift at 1, dict_item. rewrite Hid.
  rewrite bind_run, fetch_json_run. cbn [result queries events fst snd].
  fold answer. rewrite bind_run. fold pick.
  pose proof (pick_random_caption_silent w (default [] answer) acc_network (S (S k)))
    as Hsilent.
  fold pick in Hsilent.
  destruct (result pick); unfold fetch_events;
    cbn [result queries events fst snd app]; rewrite Hsilent;
    cbn [result queries events fst snd app]; rewrite ?app_nil_r; reflexivity.
Qed.

Lemma select_content_about w items acc_network k :
  Forall (about_items items acc_network) (events (select_content w items acc_network k)).
Proof.
  destruct (choice items (raw_at w k)) as [item|e] eqn:Hc.
  - destruct (item !! "id") as [item_id|] eqn:Hid.
    + rewrite (select_content_run w items acc_network k item item_id Hc Hid).
      cbn [events snd]. unfold fetch_events.
      assert (Hget : forall r, about_items items acc_network (EGet (Captions item_id) r)).
      { intros r. exists item. split; [by eapply choice_in | done]. }
      destruct (get_at w (S k) (Captions item_id)); repeat constructor; apply Hget.
    + unfold select_content, bind, draw, query, ret, lift, dict_item. simpl.
      rewrite Hc, Hid. constructor.
  - unfold select_content, bind, draw, query, ret, lift. simpl.
    rewrite Hc. constructor.
Qed.

Lemma post_run w account acc_id acc_network acc_token items k item caption master_url :
  result (select_content w items acc_network k) = Ok (item, caption) ->
  item !! "master_url" = Some master_url ->
  let k1 := queries (select_content w items acc_network k) in
  let req : dict := {[ "file_url" := master_url; "platform" := acc_network ]} in
  events (post w account acc_id acc_network acc_token items k)
  = events (select_content w items acc_network k)
      ++ EVariant req (variant_at w k1 req)
         :: match variant_at w k1 req with
            | Some body =>
                events (dispatch w account item acc_id acc_network acc_token
                          (dict_get body "cdn_url") caption (S k1))
            | None => [ELog (MsgVariantFailed acc_id)]
            end.
Proof.
  intros Hsel Hm k1 req. unfold post.
  rewrite bind_run, Hsel. cbn [events snd]. f_equal.
  rewrite bind_run, request_variant_run, Hm. fold k1. cbn zeta. fold req.
  destruct (variant_at w k1 req) as [body|]; cbn [result queries events fst snd app];
    reflexivity.
Qed.

Lemma dispatch_about w account item acc_id acc_network acc_token url caption items n :
  Forall (about_items items acc_network)
    (events (dispatch w account item acc_id acc_network acc_token url caption n)).
Proof.
  rewrite dispatch_run.
  destruct (publish_payload _ _ _ _ _ _) as [[[pub payload]|]|e];
    repeat constructor.
Qed.

Lemma post_about w account acc_id acc_network acc_token items k :
  Forall (about_items items acc_network)
    (events (post w account acc_id acc_network acc_token items k)).
Proof.
  pose proof (select_content_about w items acc_network k) as Hsel.
  destruct (result (select_content w items acc_network k)) as [[item caption]|e] eqn:Hres.
  - destruct (item !! "master_url") as [master_url|] eqn:Hm.
    + rewrite (post_run _ _ _ _ _ _ _ item caption master_url Hres Hm).
      apply Forall_app. split; [done |].
      constructor.
      { exists item. split; [by eapply select_content_in |]. by exists master_url. }
      destruct (variant_at w _ _); [apply dispatch_about | repeat constructor].
    + unfold post. rewrite bind_run, Hres. cbn [events snd].
      rewrite bind_run, request_variant_run, Hm. cbn [result events fst snd].
      by rewrite app_nil_r.
  - unfold post. rewrite bind_run, Hres. done.
Qed.

Lemma scheduled_base_queries w h m k pre :
  result (scheduled_base w h m k) = Ok pre ->
  queries (scheduled_base w h m k) = S (S k).
Proof.
  unfold scheduled_base, bind, now, query, ret, lift, result, queries. simpl.
  destruct (replace_hm (now_at w k) h m) as [s|]; simpl; [| discriminate].
  destruct (s <? now_at w (S k)); [| done].
  by destruct (add_timedelta s US_PER_DAY).
Qed.

Lemma add_jitter_queries w cfg pre k :
  queries (add_jitter w cfg pre k) = S k.
Proof.
  unfold add_jitter, bind, draw, query, ret, lift, queries. simpl.
  destruct (randint (- JITTER_MINUTES cfg) (JITTER_MINUTES cfg) (raw_at w k))
    as [j|]; simpl; [| done].
  by destruct (add_timedelta pre (j * US_PER_MINUTE)).
Qed.

Lemma slot_run w cfg account acc_id acc_network acc_token items tstr k h m pre fire :
  parse_hm tstr = Ok (h, m) ->
  result (scheduled_base w h m k) = Ok pre ->
  result (add_jitter w cfg pre (S (S k))) = Ok fire ->
  let posted := post w account acc_id acc_network acc_token items (S (S (S (S k)))) in
  slot w cfg account acc_id acc_network acc_token items tstr k
  = (result posted, queries posted,
     events (sleep_until w fire acc_id (S (S (S k)))) ++ events posted).
Proof.
  intros Hp Hb Hj posted. unfold slot. rewrite Hp.
  rewrite bind_run, Hb, scheduled_base_silent, (scheduled_base_queries _ _ _ _ _ Hb).
  rewrite bind_run, Hj, add_jitter_silent, add_jitter_queries.
  rewrite bind_run, sleep_until_shape. cbn [result queries events fst snd app].
  reflexivity.
Qed.

Lemma slot_about w cfg account acc_id acc_network acc_token items tstr k :
  Forall (about_items items acc_network)
    (events (slot w cfg account acc_id acc_network acc_token items tstr k)).
Proof.
  destruct (slot_cases w cfg account acc_id acc_network acc_token items tstr k)
    as [(e & _ & ->) | [(e & _ & ->) | (fire & k' & -> & _)]].
  - repeat constructor.
  - constructor.
  - apply Forall_app. split; [| apply post_about].
    rewrite sleep_until_shape. cbn [events snd].
    destruct (0 <? _); repeat constructor.
Qed.

(** ** Every item has the same share of the draws *)

Lemma choice_window {A} (seq : list A) (a : Z) :
  exists drawn,
    Forall2 (fun raw x => choice seq raw = Ok x)
      (seqZ a (Z.of_nat (length seq))) drawn
    /\ Permutation drawn seq.
Proof.
  exists (rotate (Z.to_nat (a mod Z.of_nat (length seq))) seq). split.
  - apply Forall2_same_length_lookup_2.
    + by rewrite length_seqZ, length_rotate, Nat2Z.id.
    + intros i raw x Hraw Hx.
      apply lookup_seqZ in Hraw as [-> Hi].
      rewrite lookup_rotate_r in Hx by lia.
      unfold choice, rotate_nat_add in *.
      rewrite Z2Nat.id in Hx by (apply Z.mod_pos_bound; lia).
      rewrite Zplus_mod_idemp_l in Hx. by rewrite Hx.
  - unfold rotate. by rewrite Permutation_app_comm, take_drop.
Qed.

(** ** The cycle and its first library *)

(** C9.  With a token, schedules and a non-empty list of libraries, the
    cycle asks the inventory for the items of the first library, and
    that answer is the list every slot works on.  When the list is empty
    the cycle ends there and no slot runs.  Otherwise the slots run on
    it, one after the other until one raises, and all they read or
    request is about its items: the captions of one of them, a variant
    of one of them, and no other list of items.
    A slot whose fire instant is computed waits and then posts from the
    list; the post takes the item that [random.choice] draws from the
    list, reads its captions and asks for a variant of its master file.
    The draw gives every item the same share: over as many consecutive
    raw draws as the list has items, the items drawn are the items of
    the list, each as often as it is in the list. *)
Theorem first_library_items
    w cfg account n acc_id schedules times library libs library_id :
  let acc_network := dict_get account "network" in
  let acc_token := dict_get account "access_token" in
  let answer := get_at w (S (S n)) (Items library_id) in
  let items := default [] answer in
  let prefix :=
    [EGet (Schedules acc_id) (Some schedules);
     EGet Libraries (Some (library :: libs))] ++ fetch_events (Items library_id) answer in
  let body := slot w cfg account acc_id acc_network acc_token items in
  let loop := for_each times body (S (S (S n))) in
  let posted := post w account acc_id acc_network acc_token items in
  account !! "id" = Some acc_id ->
  truthy acc_token = true ->
  get_at w n (Schedules acc_id) = Some schedules ->
  schedules <> [] ->
  effective_times cfg schedules = Ok times ->
  get_at w (S n) Libraries = Some (library :: libs) ->
  library !! "id" = Some library_id ->
  (items = [] ->
     schedule_for_account w cfg account n
       = (Ok tt, S (S (S n)), prefix ++ [ELog MsgNoItems]))
  /\ (items <> [] ->
     schedule_for_account w cfg account n
       = (result loop, queries loop, prefix ++ events loop))
  /\ Forall (about_items items acc_network) (events loop)
  /\ (forall k, for_each [] body k = (Ok tt, k, []))
  /\ (forall tstr rest k,
        for_each (tstr :: rest) body k
        = match result (body tstr k) with
          | Ok _ =>
              let k1 := queries (body tstr k) in
              (result (for_each rest body k1), queries (for_each rest body k1),
               events (body tstr k) ++ events (for_each rest body k1))
          | Raise e => (Raise e, queries (body tstr k), events (body tstr k))
          end)
  /\ (forall tstr k h m pre fire,
        parse_hm tstr = Ok (h, m) ->
        result (scheduled_base w h m k) = Ok pre ->
        result (add_jitter w cfg pre (S (S k))) = Ok fire ->
        body tstr k
        = (result (posted (S (S (S (S k))))), queries (posted (S (S (S (S k))))),
           events (sleep_until w fire acc_id (S (S (S k))))
             ++ events (posted (S (S (S (S k)))))))
  /\ (forall k item item_id,
        choice items (raw_at w k) = Ok item ->
        item !! "id" = Some item_id ->
        let captions := get_at w (S k) (Captions item_id) in
        let pick := pick_random_caption w (default [] captions) acc_network (S (S k)) in
        select_content w items acc_network k
        = (match result pick with
           | Ok caption => Ok (item, match caption with VNone => VStr "" | c => c end)
           | Raise e => Raise e
           end,
           queries pick, fetch_events (Captions item_id) captions))
  /\ (forall k item caption,
        result (select_content w items acc_network k) = Ok (item, caption) ->
        choice items (raw_at w k) = Ok item
        /\ In item items
        /\ forall master_url,
             item !! "master_url" = Some master_url ->
             let k1 := queries (select_content w items acc_network k) in
             let req : dict := {[ "file_url" := master_url; "platform" := acc_network ]} in
             events (posted k)
             = events (select_content w items acc_network k)
                 ++ EVariant req (variant_at w k1 req)
                    :: match variant_at w k1 req with
                       | Some variant =>
                           events (dispatch w account item acc_id acc_network acc_token
                                     (dict_get variant "cdn_url") caption (S k1))
                       | None => [ELog (MsgVariantFailed acc_id)]
                       end)
  /\ (forall k, items <> [] -> exists item, choice items (raw_at w k) = Ok item)
  /\ (forall a, exists drawn,
        Forall2 (fun raw item => choice items raw = Ok item)
          (seqZ a (Z.of_nat (length items))) drawn
        /\ Permutation drawn items).
Proof.
  intros acc_network acc_token answer items prefix body loop posted
    Hid Htok Hsched Hne Htimes Hlibs Hlib.
  assert (Hrun : schedule_for_account w cfg account n
                 = match items with
                   | [] => (Ok tt, S (S (S n)), prefix ++ [ELog MsgNoItems])
                   | _ => (result loop, queries loop, prefix ++ events loop)
                   end).
  { unfold schedule_for_account, bind at 1, lift at 1, dict_item. rewrite Hid.
    fold acc_token acc_network. rewrite Htok. simpl.
    unfold bind at 1. rewrite fetch_json_run, Hsched. simpl.
    destruct schedules as [|sched schedules']; [done |].
    unfold bind at 1, lift at 1. rewrite Htimes.
    unfold bind at 1. rewrite fetch_json_run, Hlibs. simpl.
    unfold bind at 1, lift at 1, dict_item. rewrite Hlib.
    unfold bind at 1. rewrite fetch_json_run. fold answer. fold items.
    simpl.
    destruct items as [|item items'] eqn:Hitems.
    - unfold log, emit, prefix, fetch_events. simpl.
      destruct answer; simpl; done.
    - fold body. fold loop. unfold prefix, fetch_events, result, queries, events.
      destruct loop as [[r k] evs]. simpl.
      destruct answer; simpl; done. }
  split; [intros E; by rewrite Hrun, E |].
  split; [intros E; rewrite Hrun; by destruct items |].
  split; [apply for_each_P; intros tstr k; apply slot_about |].
  split; [done |].
  split; [intros tstr rest k; simpl; by rewrite bind_run |].
  split; [intros tstr k h m pre fire; apply slot_run |].
  split; [intros k item item_id; apply select_content_run |].
  split.
  { intros k item caption Hsel. split; [by eapply select_content_item |].
    split; [by eapply select_content_in |].
    intros master_url Hm. by apply post_run. }
  split; [| intros a; apply choice_window].
  intros k Hitems. unfold choice.
  assert (Hlen : (0 < length items)%nat) by (destruct items; [done | simpl; lia]).
  pose proof (Z.mod_pos_bound (raw_at w k) (Z.of_nat (length items)) ltac:(lia)) as Hb.
  destruct (lookup_lt_is_Some_2 items (Z.to_nat (raw_at w k mod Z.of_nat (length items))))
    as [item Hitem]; [lia |].
  exists item. by rewrite Hitem.
Qed.

Definition second_library : dict :=
  {[ "id" := VStr "l2"; "name" := VStr "Shorts" ]}.

Definition summer_item : dict :=
  {[ "id" := VStr "i2"; "library_id" := VStr "l1";
     "master_url" := VStr "https://cdn.example/summer.mp4";
     "title" := VStr "Summer sale" ]}.

Definition other_item : dict :=
  {[ "id" := VStr "i9"; "library_id" := VStr "l2";
     "master_url" := VStr "https://cdn.example/short.mp4";
     "title" := VStr "Short" ]}.

(** A world with two libraries: the first holds two items, the second
    another one.  The clock is stopped and the generator counts with the
    queries. *)
Definition two_library_world : World :=
  {| now_at := fun _ => nine_am;
     raw_at := fun k => Z.of_nat k;
     get_at := fun _ e =>
       match e with
       | Accounts => Some [tiktok_account]
       | Schedules _ => Some [morning_schedule]
       | Libraries => Some [sample_library; second_library]
       | Items library_id =>
           if value_eqb library_id (VStr "l1") then Some [sample_item; summer_item]
           else Some [other_item]
       | Captions _ => Some [sample_caption]
       end;
     variant_at := fun _ _ => Some {[ "cdn_url" := VStr "/static/v1.mp4" ]};
     publish_at := fun _ _ _ => Some {| status_code := 200; text := "ok" |} |}.

Lemma first_library_items_witness :
  let w := two_library_world in
  let items := [sample_item; summer_item] in
  let loop :=
    for_each [VStr "08:00"; VStr "12:00"]
      (slot w default_config tiktok_account (VStr "a2") (VStr "tiktok")
         (VStr "tok") items) 3%nat in
  schedule_for_account w default_config tiktok_account 0%nat
  = (result loop, queries loop,
     ([EGet (Schedules (VStr "a2")) (Some [morning_schedule]);
       EGet Libraries (Some [sample_library; second_library])]
      ++ fetch_events (Items (VStr "l1")) (Some items))
     ++ events loop)
  /\ Forall (about_items items (VStr "tiktok")) (events loop)
  /\ select_content w items (VStr "tiktok") 7%nat
     = (Ok (summer_item, VStr "New in store"), 10%nat,
        [EGet (Captions (VStr "i2")) (Some [sample_caption])])
  /\ exists drawn,
       Forall2 (fun raw item => choice items raw = Ok item) (seqZ 7 2) drawn
       /\ Permutation drawn items.
Proof.
  intros w items loop.
  pose proof (first_library_items two_library_world default_config
                tiktok_account 0%nat (VStr "a2") [morning_schedule]
                [VStr "08:00"; VStr "12:00"] sample_library [second_library]
                (VStr "l1") eq_refl eq_refl eq_refl ltac:(discriminate)
                eq_refl eq_refl eq_refl)
    as (_ & Hloop & Habout & _ & _ & _ & Hsel & _ & _ & Hshare).
  split; [apply Hloop; discriminate |].
  split; [exact Habout |].
  split; [exact (Hsel 7%nat summer_item (VStr "i2") eq_refl eq_refl) |].
  exact (Hshare 7).
Defined.

End SelectionProofs.


(** * Further properties of the inventory service *)

Module ApiExtras.
Import Api.

(** ** Records with their keys *)

Definition has_key (k : string) (r : dict) : Prop := is_Some (r !! k).

(** Every stored record has the keys that the routes read with
    [record[key]]. *)
Definition wf_store (st : Store) : Prop :=
  Forall (has_key "id") (libraries st)
  /\ Forall (fun r => has_key "id" r /\ has_key "library_id" r) (library_items st)
  /\ Forall (has_key "library_item_id") (captions st)
  /\ Forall (has_key "id") (accounts st)
  /\ Forall (has_key "account_id") (schedules st).

Definition matches (key : string) (v : value) (r : dict) : bool :=
  value_eqb (dict_get r key) v.

Lemma any_with_wf key v records :
  Forall (has_key key) records ->
  any_with key v records = Ok (existsb (matches key v) records).
Proof.
  induction 1 as [|r rest [x Hx] _ IH]; simpl; [done |].
  unfold dict_item, matches, dict_get, dict_get_default. rewrite Hx. simpl.
  destruct (value_eqb x v); [done | exact IH].
Qed.

Lemma select_with_wf key v records :
  Forall (has_key key) records ->
  select_with key v records = Ok (List.filter (matches key v) records).
Proof.
  induction 1 as [|r rest [x Hx] _ IH]; simpl; [done |].
  unfold dict_item, matches, dict_get, dict_get_default. rewrite Hx, IH. simpl.
  by destruct (value_eqb x v).
Qed.

Lemma wf_empty : wf_store empty_store.
Proof. repeat split; constructor. Qed.

Lemma Forall_snoc {A} (P : A -> Prop) l x : Forall P l -> P x -> Forall P (l ++ [x]).
Proof. intros Hl Hx. apply Forall_app. split; [done | by constructor]. Qed.

Lemma wf_items_id st :
  wf_store st -> Forall (has_key "id") (library_items st).
Proof.
  intros (_ & Hi & _). eapply Forall_impl; [exact Hi |]. by intros r [? _].
Qed.

Lemma wf_items_library st :
  wf_store st -> Forall (has_key "library_id") (library_items st).
Proof.
  intros (_ & Hi & _). eapply Forall_impl; [exact Hi |]. by intros r [_ ?].
Qed.

(** ** A stocked store *)

Definition reel_item : LibraryItemCreate :=
  {| item_master_url := "https://cdn.example/reel.mp4"; item_title := Some "Reel" |}.

Definition short_item : LibraryItemCreate :=
  {| item_master_url := "https://cdn.example/short.mp4"; item_title := None |}.

Definition reel_caption : CaptionCreate :=
  {| caption_library_item_id := "i1"; caption_platform := "tiktok";
     caption_body := "New reel" |}.

Definition shop_account : AccountCreate :=
  {| network := "tiktok"; external_user_id := "tt-42"; handle := "@shop";
     access_token := Some "tok" |}.

Definition shop_schedule : ScheduleCreate :=
  {| schedule_account_id := "a2"; post_times := ["09:00"; "18:30"] |}.

Definition reel_record : dict :=
  {[ "id" := VStr "i1"; "library_id" := VStr "l1";
     "master_url" := VStr "https://cdn.example/reel.mp4"; "title" := VStr "Reel" ]}.

Definition short_record : dict :=
  {[ "id" := VStr "i2"; "library_id" := VStr "l2";
     "master_url" := VStr "https://cdn.example/short.mp4"; "title" := VNone ]}.

Definition caption_record : dict :=
  {[ "id" := VStr "c1"; "library_item_id" := VStr "i1";
     "platform" := VStr "tiktok"; "body" := VStr "New reel" ]}.

Definition schedule_record : dict :=
  {[ "id" := VStr "s1"; "account_id" := VStr "a2";
     "post_times" := VList [VStr "09:00"; VStr "18:30"] ]}.

(** Two libraries with one item each, a caption of the first item, an
    account and its schedule. *)
Definition stocked_store : Store :=
  {| libraries := [ {[ "id" := VStr "l1"; "name" := VStr "Reels" ]};
                    {[ "id" := VStr "l2"; "name" := VStr "Shorts" ]} ];
     library_items := [reel_record; short_record];
     captions := [caption_record];
     accounts := [account_record "a2" shop_account];
     schedules := [schedule_record] |}.

(** The stocked store is what seven requests leave behind. *)
Lemma stocked_store_built :
  let st1 := snd (create_library "l1" "Reels" empty_store) in
  let st2 := snd (create_library "l2" "Shorts" st1) in
  let st3 := snd (create_account "a2" shop_account st2) in
  exists st4 st5 st6,
    create_library_item "i1" "l1" reel_item st3 = Ok (Body reel_record, st4)
    /\ create_library_item "i2" "l2" short_item st4 = Ok (Body short_record, st5)
    /\ create_caption "c1" reel_caption st5 = Ok (Body caption_record, st6)
    /\ create_schedule "s1" shop_schedule st6 = Ok (Body schedule_record, stocked_store).
Proof. intros. eexists _, _, _. repeat split; reflexivity. Qed.

Lemma stocked_store_wf : wf_store stocked_store.
Proof.
  unfold wf_store, stocked_store, has_key.
  cbn [libraries library_items captions accounts schedules].
  repeat split; repeat constructor; by eexists.
Qed.

(** X13.  Every record that a POST route stores has the keys the routes
    read: starting from lists with these keys, each of the five POST
    routes answers without an exception and leaves lists with these
    keys. *)
Theorem store_stays_well_formed st :
  wf_store st ->
  (forall new_id name, wf_store (snd (create_library new_id name st)))
  /\ (forall new_id acc, wf_store (snd (create_account new_id acc st)))
  /\ (forall new_id library_id item, exists r st',
        create_library_item new_id library_id item st = Ok (r, st') /\ wf_store st')
  /\ (forall new_id caption, exists r st',
        create_caption new_id caption st = Ok (r, st') /\ wf_store st')
  /\ (forall new_id sched, exists r st',
        create_schedule new_id sched st = Ok (r, st') /\ wf_store st').
Proof.
  intros Hwf. pose proof Hwf as (Hl & Hi & Hc & Ha & Hs).
  split; [| split; [| split; [| split]]].
  - intros new_id name. unfold create_library, wf_store. simpl.
    repeat split; try done. apply Forall_snoc; [done | by eexists].
  - intros new_id acc. unfold create_account, wf_store, account_record. simpl.
    repeat split; try done. apply Forall_snoc; [done | by eexists].
  - intros new_id library_id item. unfold create_library_item.
    rewrite (any_with_wf _ _ _ Hl). simpl.
    destruct (existsb _ _); simpl; eexists _, _; (split; [reflexivity |]);
      [| done].
    unfold wf_store. simpl. repeat split; try done.
    apply Forall_snoc; [done | split; by eexists].
  - intros new_id caption. unfold create_caption.
    rewrite (any_with_wf _ _ _ (wf_items_id st Hwf)). simpl.
    destruct (existsb _ _); simpl; eexists _, _; (split; [reflexivity |]);
      [| done].
    unfold wf_store. simpl. repeat split; try done.
    apply Forall_snoc; [done | by eexists].
  - intros new_id sched. unfold create_schedule.
    rewrite (any_with_wf _ _ _ Ha). simpl.
    destruct (existsb _ _); simpl; eexists _, _; (split; [reflexivity |]);
      [| done].
    unfold wf_store. simpl. repeat split; try done.
    apply Forall_snoc; [done | by eexists].
Qed.

Lemma store_stays_well_formed_witness :
  wf_store (snd (create_library "l3" "Clips" stocked_store))
  /\ wf_store (snd (create_account "a3" shop_account stocked_store))
  /\ (exists record st',
        create_library_item "i3" "l1" short_item stocked_store = Ok (Body record, st')
        /\ wf_store st')
  /\ (exists record st',
        create_caption "c2" reel_caption stocked_store = Ok (Body record, st')
        /\ wf_store st')
  /\ (exists record st',
        create_schedule "s2" shop_schedule stocked_store = Ok (Body record, st')
        /\ wf_store st').
Proof.
  destruct (store_stays_well_formed stocked_store stocked_store_wf)
    as (Hl & Ha & Hi & Hc & Hs).
  split; [apply Hl |]. split; [apply Ha |].
  split; [| split].
  - destruct (Hi "i3" "l1" short_item) as (r & st' & Heq & Hwf).
    eexists _, _. split; [reflexivity |].
    injection Heq as _ <-. exact Hwf.
  - destruct (Hc "c2" reel_caption) as (r & st' & Heq & Hwf).
    eexists _, _. split; [reflexivity |].
    injection Heq as _ <-. exact Hwf.
  - destruct (Hs "s2" shop_schedule) as (r & st' & Heq & Hwf).
    eexists _, _. split; [reflexivity |].
    injection Heq as _ <-. exact Hwf.
Defined.

(** X14.  On lists with their keys, the three filtered GET routes answer
    exactly the stored records whose key equals the id of the URL, in
    stored order, and never raise. *)
Theorem list_routes_filter st :
  wf_store st ->
  (forall library_id,
      list_library_items library_id st
      = Ok (List.filter (matches "library_id" (VStr library_id)) (library_items st)))
  /\ (forall library_item_id,
      list_captions library_item_id st
      = Ok (List.filter (matches "library_item_id" (VStr library_item_id))
              (captions st)))
  /\ (forall account_id,
      list_schedules account_id st
      = Ok (List.filter (matches "account_id" (VStr account_id)) (schedules st))).
Proof.
  intros Hwf. pose proof Hwf as (Hl & Hi & Hc & Ha & Hs).
  split; [| split]; intros id.
  - apply select_with_wf. by apply wf_items_library.
  - by apply select_with_wf.
  - by apply select_with_wf.
Qed.

Lemma list_routes_filter_witness :
  list_library_items "l1" stocked_store = Ok [reel_record]
  /\ list_library_items "l2" stocked_store = Ok [short_record]
  /\ list_library_items "l3" stocked_store = Ok []
  /\ list_captions "i1" stocked_store = Ok [caption_record]
  /\ list_captions "i2" stocked_store = Ok []
  /\ list_schedules "a2" stocked_store = Ok [schedule_record].
Proof.
  destruct (list_routes_filter stocked_store stocked_store_wf) as (Hi & Hc & Hs).
  rewrite !Hi, !Hc, Hs. repeat split; reflexivity.
Defined.

(** No record of the list has this id. *)
Definition unknown_id (id : string) (records : list dict) : Prop :=
  forall r, In r records -> r !! "id" <> Some (VStr id).

Lemma value_eqb_false_str x s : x <> VStr s -> value_eqb x (VStr s) = false.
Proof.
  intros Hne. destruct x as [|t|z|l]; simpl; try done.
  apply String.eqb_neq. intros ->. by apply Hne.
Qed.

Lemma existsb_unknown id records :
  unknown_id id records -> existsb (matches "id" (VStr id)) records = false.
Proof.
  intros Hu. induction records as [|r rest IH]; simpl; [done |].
  rewrite IH by (intros r' Hr'; apply Hu; by right).
  rewrite orb_false_r. unfold matches, dict_get, dict_get_default.
  specialize (Hu r (or_introl eq_refl)).
  destruct (r !! "id") as [x|]; [| done].
  apply value_eqb_false_str. intros ->. by apply Hu.
Qed.

(** X15.  A POST for a parent that is not stored is answered 404 and
    changes nothing: an item for an unknown library, a caption for an
    unknown item, a schedule for an unknown account. *)
Theorem unknown_parent_is_not_found st :
  wf_store st ->
  (forall new_id library_id item,
      unknown_id library_id (libraries st) ->
      create_library_item new_id library_id item st
      = Ok (NotFound "Library not found", st))
  /\ (forall new_id caption,
      unknown_id (caption_library_item_id caption) (library_items st) ->
      create_caption new_id caption st = Ok (NotFound "Library item not found", st))
  /\ (forall new_id sched,
      unknown_id (schedule_account_id sched) (accounts st) ->
      create_schedule new_id sched st = Ok (NotFound "Account not found", st)).
Proof.
  intros Hwf. pose proof Hwf as (Hl & Hi & Hc & Ha & Hs).
  split; [| split].
  - intros new_id library_id item Hu. unfold create_library_item.
    rewrite (any_with_wf _ _ _ Hl), (existsb_unknown _ _ Hu). done.
  - intros new_id caption Hu. unfold create_caption.
    rewrite (any_with_wf _ _ _ (wf_items_id st Hwf)), (existsb_unknown _ _ Hu). done.
  - intros new_id sched Hu. unfold create_schedule.
    rewrite (any_with_wf _ _ _ Ha), (existsb_unknown _ _ Hu). done.
Qed.

Lemma unknown_parent_is_not_found_witness :
  create_schedule "s1" {| schedule_account_id := "a1"; post_times := ["08:00"] |}
    empty_store
  = Ok (NotFound "Account not found", empty_store).
Proof.
  refine (proj2 (proj2 (unknown_parent_is_not_found empty_store wf_empty)) _ _ _).
  intros r [].
Defined.

(** ** What is created is listed *)

(** Some record of the list has this id. *)
Definition known_id (id : string) (records : list dict) : Prop :=
  exists r, In r records /\ r !! "id" = Some (VStr id).

Lemma existsb_known id records :
  known_id id records -> existsb (matches "id" (VStr id)) records = true.
Proof.
  intros (r & Hin & Hr). apply existsb_exists. exists r. split; [done |].
  unfold matches, dict_get, dict_get_default. rewrite Hr. simpl.
  apply String.eqb_refl.
Qed.

Lemma matches_same key id (r : dict) :
  r !! key = Some (VStr id) -> matches key (VStr id) r = true.
Proof.
  intros Hr. unfold matches, dict_get, dict_get_default. rewrite Hr.
  simpl. apply String.eqb_refl.
Qed.

Lemma matches_other key id other (r : dict) :
  r !! key = Some (VStr id) -> other <> id -> matches key (VStr other) r = false.
Proof.
  intros Hr Hne. unfold matches, dict_get, dict_get_default. rewrite Hr.
  simpl. apply String.eqb_neq. congruence.
Qed.

(** X16.  An item posted to a stored library is answered with its
    record, comes last in the listing of that library, after the items
    that were listed before, and changes the listing of no other
    library. *)
Theorem created_item_is_listed st new_id library_id item :
  wf_store st ->
  known_id library_id (libraries st) ->
  let record : dict :=
    {[ "id" := VStr new_id; "library_id" := VStr library_id;
       "master_url" := VStr (item_master_url item);
       "title" := optional (item_title item) ]} in
  exists st',
    create_library_item new_id library_id item st = Ok (Body record, st')
    /\ list_library_items library_id st'
       = Ok (List.filter (matches "library_id" (VStr library_id)) (library_items st)
               ++ [record])
    /\ (forall other, other <> library_id ->
          list_library_items other st' = list_library_items other st)
    /\ libraries st' = libraries st.
Proof.
  intros Hwf Hknown record. pose proof Hwf as (Hl & Hi & Hc & Ha & Hs).
  unfold create_library_item.
  rewrite (any_with_wf _ _ _ Hl), (existsb_known _ _ Hknown). simpl.
  eexists. split; [reflexivity |].
  assert (Hrec : Forall (has_key "library_id") (library_items st ++ [record])).
  { apply Forall_snoc; [by apply wf_items_library | by eexists]. }
  unfold list_library_items. simpl.
  split; [| split; [| done]].
  - rewrite (select_with_wf _ _ _ Hrec), List.filter_app. simpl.
    by rewrite (matches_same "library_id" library_id record eq_refl).
  - intros other Hne.
    rewrite (select_with_wf _ _ _ Hrec),
      (select_with_wf _ _ _ (wf_items_library st Hwf)), List.filter_app.
    simpl.
    rewrite (matches_other "library_id" library_id other record eq_refl Hne).
    by rewrite app_nil_r.
Qed.

Definition one_library : Store := snd (create_library "l1" "Reels" empty_store).

Lemma one_library_wf : wf_store one_library.
Proof.
  unfold wf_store, one_library, has_key.
  cbn [create_library snd libraries library_items captions accounts schedules
         empty_store app].
  repeat split; repeat constructor; by eexists.
Qed.

Lemma created_item_is_listed_witness :
  let item := {| item_master_url := "https://cdn.example/master.mp4";
                 item_title := None |} in
  let record : dict :=
    {[ "id" := VStr "i1"; "library_id" := VStr "l1";
       "master_url" := VStr "https://cdn.example/master.mp4";
       "title" := VNone ]} in
  exists st',
    create_library_item "i1" "l1" item one_library = Ok (Body record, st')
    /\ list_library_items "l1" st'
       = Ok (List.filter (matches "library_id" (VStr "l1")) (library_items one_library)
               ++ [record])
    /\ (forall other, other <> "l1" ->
          list_library_items other st' = list_library_items other one_library)
    /\ libraries st' = libraries one_library.
Proof.
  apply (created_item_is_listed one_library "i1" "l1"
           {| item_master_url := "https://cdn.example/master.mp4";
              item_title := None |} one_library_wf).
  eexists. split; [left; reflexivity | reflexivity].
Defined.

(** X17.  A schedule posted for a stored account is answered with its
    record and comes last in the listing of that account; the scheduler
    reads from the record exactly the posted times, in order, so that
    when it is the only schedule of the account the effective times are
    the first [POSTS_PER_DAY] of them. *)
Theorem created_schedule_feeds_the_scheduler st new_id sched cfg :
  wf_store st ->
  known_id (schedule_account_id sched) (accounts st) ->
  0 <= Scheduler.POSTS_PER_DAY cfg ->
  let record : dict :=
    {[ "id" := VStr new_id; "account_id" := VStr (schedule_account_id sched);
       "post_times" := VList (VStr <$> post_times sched) ]} in
  let before :=
    List.filter (matches "account_id" (VStr (schedule_account_id sched)))
      (schedules st) in
  exists st',
    create_schedule new_id sched st = Ok (Body record, st')
    /\ list_schedules (schedule_account_id sched) st' = Ok (before ++ [record])
    /\ SchedulerProofs.has_post_times record (VStr <$> post_times sched)
    /\ Scheduler.effective_times cfg [record]
       = Ok (take (Z.to_nat (Scheduler.POSTS_PER_DAY cfg)) (VStr <$> post_times sched)).
Proof.
  intros Hwf Hknown Hppd record before. pose proof Hwf as (Hl & Hi & Hc & Ha & Hs).
  unfold create_schedule.
  rewrite (any_with_wf _ _ _ Ha), (existsb_known _ _ Hknown). simpl.
  eexists. split; [reflexivity |].
  assert (Hrec : Forall (has_key "account_id") (schedules st ++ [record])).
  { apply Forall_snoc; [done | by eexists]. }
  assert (Hpt : SchedulerProofs.has_post_times record (VStr <$> post_times sched)).
  { by apply SchedulerProofs.has_post_times_list. }
  unfold list_schedules. simpl.
  split; [| split; [exact Hpt |]].
  - rewrite (select_with_wf _ _ _ Hrec), List.filter_app. simpl.
    by rewrite (matches_same "account_id" (schedule_account_id sched) record eq_refl).
  - unfold Scheduler.effective_times.
    rewrite (SchedulerProofs.extend_times_concat [record]
               [VStr <$> post_times sched]) by (repeat constructor; exact Hpt).
    simpl. rewrite app_nil_r. by rewrite SchedulerProofs.slice_to_nonneg.
Qed.

Definition one_account : Store := snd (create_account "a2" shop_account empty_store).

Lemma one_account_wf : wf_store one_account.
Proof.
  unfold wf_store, one_account, has_key.
  cbn [create_account snd libraries library_items captions accounts schedules
         empty_store app].
  repeat split; repeat constructor; by eexists.
Qed.

Lemma created_schedule_feeds_the_scheduler_witness :
  let sched := {| schedule_account_id := "a2";
                  post_times := ["08:00"; "12:00"; "18:00"; "22:00"] |} in
  let record : dict :=
    {[ "id" := VStr "s1"; "account_id" := VStr "a2";
       "post_times" := VList [VStr "08:00"; VStr "12:00"; VStr "18:00"; VStr "22:00"] ]} in
  exists st',
    create_schedule "s1" sched one_account = Ok (Body record, st')
    /\ list_schedules "a2" st'
       = Ok (List.filter (matches "account_id" (VStr "a2")) (schedules one_account)
               ++ [record])
    /\ SchedulerProofs.has_post_times record
         [VStr "08:00"; VStr "12:00"; VStr "18:00"; VStr "22:00"]
    /\ Scheduler.effective_times Scheduler.default_config [record]
       = Ok (take (Z.to_nat 3) [VStr "08:00"; VStr "12:00"; VStr "18:00"; VStr "22:00"]).
Proof.
  apply (created_schedule_feeds_the_scheduler one_account "s1"
           {| schedule_account_id := "a2";
              post_times := ["08:00"; "12:00"; "18:00"; "22:00"] |}
           Scheduler.default_config one_account_wf).
  - eexists. split; [left; reflexivity | reflexivity].
  - simpl. lia.
Defined.

(** The truth value of the token of a request. *)
Definition given_token (acc : AccountCreate) : bool :=
  match access_token acc with
  | Some (String _ _) => true
  | _ => false
  end.

(** X18.  The record stored for an account posted without a token, or
    with an empty one, is skipped by the scheduler at its credential
    check, with no query; the record of an account posted with a token
    passes the check, and its cycle starts with the fetch of its
    schedules. *)
Theorem stored_account_and_its_token w cfg n st new_id acc :
  let record := account_record new_id acc in
  In record (list_accounts (snd (create_account new_id acc st)))
  /\ (given_token acc = false ->
        Scheduler.schedule_for_account w cfg record n
        = (Ok tt, n, [Scheduler.ELog (Scheduler.MsgMissingToken (VStr new_id))]))
  /\ (given_token acc = true ->
        exists tail,
          Scheduler.events (Scheduler.schedule_for_account w cfg record n)
          = Scheduler.EGet (Scheduler.Schedules (VStr new_id))
              (Scheduler.get_at w n (Scheduler.Schedules (VStr new_id))) :: tail).
Proof.
  intros record. split; [| split].
  - unfold create_account, list_accounts. simpl.
    apply in_or_app. right. by left.
  - destruct acc as [net ext hdl [[|c r]|]]; try discriminate; intros _; reflexivity.
  - destruct acc as [net ext hdl [[|c r]|]]; try discriminate; intros _.
    by apply SchedulerExtras.cycle_starts_with_schedules.
Qed.

(** ** Restarts *)

(** The lists are what a process starting now would load. *)
Definition synced (srv : Server) : Prop := mem srv = startup (disk srv).

Lemma startup_synced d : synced {| mem := startup d; disk := d |}.
Proof. reflexivity. Qed.

(** X19.  A restart loses nothing: when the lists in memory are what the
    files hold, they still are after any of the five POST routes, so a
    process started on the files afterwards has the same lists. *)
Theorem restart_loses_nothing srv :
  synced srv ->
  (forall new_id name, synced (snd (post_library new_id name srv)))
  /\ (forall new_id acc, synced (snd (post_account new_id acc srv)))
  /\ (forall new_id library_id item r srv',
        post_library_item new_id library_id item srv = Ok (r, srv') -> synced srv')
  /\ (forall new_id caption r srv',
        post_caption new_id caption srv = Ok (r, srv') -> synced srv')
  /\ (forall new_id sched r srv',
        post_schedule new_id sched srv = Ok (r, srv') -> synced srv').
Proof.
  destruct srv as [st d]. unfold synced. simpl. intros ->.
  split; [| split; [| split; [| split]]].
  - intros new_id name. unfold post_library, create_library, startup, _load, _save.
    simpl. rewrite lookup_insert_eq, !lookup_insert_ne by done. reflexivity.
  - intros new_id acc. unfold post_account, create_account, startup, _load, _save.
    simpl. rewrite lookup_insert_eq, !lookup_insert_ne by done. reflexivity.
  - intros new_id library_id item r srv'.
    unfold post_library_item, create_library_item, saved.
    destruct (any_with _ _ _) as [[|]|]; simpl; try discriminate;
      intros [= <- <-]; [| reflexivity].
    unfold startup, _load, _save. simpl.
    rewrite lookup_insert_eq, !lookup_insert_ne by done. reflexivity.
  - intros new_id caption r srv'. unfold post_caption, create_caption, saved.
    destruct (any_with _ _ _) as [[|]|]; simpl; try discriminate;
      intros [= <- <-]; [| reflexivity].
    unfold startup, _load, _save. simpl.
    rewrite lookup_insert_eq, !lookup_insert_ne by done. reflexivity.
  - intros new_id sched r srv'. unfold post_schedule, create_schedule, saved.
    destruct (any_with _ _ _) as [[|]|]; simpl; try discriminate;
      intros [= <- <-]; [| reflexivity].
    unfold startup, _load, _save. simpl.
    rewrite lookup_insert_eq, !lookup_insert_ne by done. reflexivity.
Qed.

(** A service that holds the stocked store, in memory and on disk. *)
Definition stocked_server : Server :=
  {| mem := stocked_store;
     disk := {[ "libraries.json" := libraries stocked_store;
                "library_items.json" := library_items stocked_store;
                "captions.json" := captions stocked_store;
                "accounts.json" := accounts stocked_store;
                "schedules.json" := schedules stocked_store ]} |}.

Lemma stocked_server_synced : synced stocked_server.
Proof. reflexivity. Qed.

Lemma restart_loses_nothing_witness :
  synced (snd (post_library "l3" "Clips" stocked_server))
  /\ synced (snd (post_account "a3" shop_account stocked_server))
  /\ (exists record srv',
        post_library_item "i3" "l1" short_item stocked_server = Ok (Body record, srv')
        /\ synced srv')
  /\ (exists record srv',
        post_caption "c2" reel_caption stocked_server = Ok (Body record, srv')
        /\ synced srv')
  /\ (exists record srv',
        post_schedule "s2" shop_schedule stocked_server = Ok (Body record, srv')
        /\ synced srv').
Proof.
  destruct (restart_loses_nothing stocked_server stocked_server_synced)
    as (Hl & Ha & Hi & Hc & Hs).
  split; [apply Hl |]. split; [apply Ha |].
  split; [| split].
  - eexists _, _. split; [reflexivity |].
    exact (Hi "i3" "l1" short_item _ _ eq_refl).
  - eexists _, _. split; [reflexivity |].
    exact (Hc "c2" reel_caption _ _ eq_refl).
  - eexists _, _. split; [reflexivity |].
    exact (Hs "s2" shop_schedule _ _ eq_refl).
Defined.


End ApiExtras.

(** * Further properties of the variant service *)

Module VariantExtras.
Import Variant.

(** X20.  The spice index is always a position of the list of spices,
    for every hash secret and every seed, present or not: line 56 never
    reads outside the list. *)
Theorem spice_index_in_range secret seed :
  (spice_index secret seed < length spices)%nat
  /\ exists spice, spices !! spice_index secret seed = Some spice.
Proof.
  assert (H : (spice_index secret seed < length spices)%nat).
  { unfold spice_index. destruct seed as [s|]; [| simpl; lia].
    destruct (given (Some s)); [| simpl; lia].
    pose proof (Z.mod_pos_bound (py_hash secret s) (Z.of_nat (length spices))
                  ltac:(simpl; lia)).
    lia. }
  split; [exact H |]. by apply lookup_lt_is_Some_2.
Qed.

Lemma hex_digits_length n z acc :
  String.length (hex_digits n z acc) = (n + String.length acc)%nat.
Proof.
  revert z acc. induction n as [|n IH]; intros z acc; simpl; [done |].
  rewrite IH. simpl. lia.
Qed.

Lemma uuid_hex_length z : String.length (uuid_hex z) = 32%nat.
Proof. unfold uuid_hex. by rewrite hex_digits_length. Qed.

Lemma uuid_hex_given z : given (Some (uuid_hex z)) = true.
Proof.
  pose proof (uuid_hex_length z) as H.
  by destruct (uuid_hex z).
Qed.

(** The seed that [create_variant] passes on: the one of the request
    when it is not empty, a fresh uuid otherwise. *)
Definition seed_of (env : Env) (req : VariantRequest) (k : nat) : string :=
  match seed req with
  | Some (String c r) => String c r
  | _ => uuid_hex (uuid_at env k)
  end.

(** The number of uuids drawn once the seed is settled. *)
Definition after_seed (req : VariantRequest) (k : nat) : nat :=
  match seed req with
  | Some (String _ _) => k
  | _ => S k
  end.

Definition tmp_filename (env : Env) (req : VariantRequest) (k : nat) : string :=
  "/tmp/" +:+ uuid_hex (uuid_at env (after_seed req k)) +:+ ".mp4".

Definition command_of (env : Env) (req : VariantRequest) (k : nat) : list string :=
  ffmpeg_command (hash_secret env) (file_url req) (tmp_filename env req k)
    (Some (seed_of env req k)).

Definition key_of (env : Env) (req : VariantRequest) (k : nat) : string :=
  uuid_hex (uuid_at env (S (after_seed req k))) +:+ ".mp4".

(** The S3 client exists and the bucket is named. *)
Definition s3_on (env : Env) : bool := has_boto3 env && given (S3_BUCKET env).

(** What the route answers once FFmpeg has succeeded. *)
Definition delivered (env : Env) (req : VariantRequest) (k : nat) : reply :=
  if s3_on env && upload_runs env (key_of env req k) then
    if given (CDN_URL env)
    then CdnUrl (default "" (CDN_URL env) +:+ "/" +:+ key_of env req k)
    else CdnUrl ("https://" +:+ default "" (S3_BUCKET env) +:+ ".s3."
                   +:+ AWS_REGION env +:+ ".amazonaws.com/" +:+ key_of env req k)
  else if copy_runs env (tmp_filename env req k) (key_of env req k)
  then CdnUrl ("/static/" +:+ key_of env req k)
  else Unhandled.

Lemma create_variant_run env req k :
  let run := create_variant env req k in
  used_seed run = seed_of env req k
  /\ spice_idx run = spice_index (hash_secret env) (Some (seed_of env req k))
  /\ command run = command_of env req k
  /\ (ffmpeg env (command_of env req k) = NotRun ->
        answer run = Unhandled /\ uuids_drawn run = S (after_seed req k))
  /\ (forall status, ffmpeg env (command_of env req k) = Exited status ->
        status <> 0 ->
        answer run = ServerError /\ uuids_drawn run = S (after_seed req k))
  /\ (ffmpeg env (command_of env req k) = Exited 0 ->
        uuids_drawn run = S (S (after_seed req k))
        /\ answer run = delivered env req k).
Proof.
  unfold create_variant, delivered, command_of, tmp_filename, key_of, seed_of,
    after_seed, s3_on.
  destruct (seed req) as [[|c r]|]; cbv beta iota zeta;
    match goal with
    | |- context [ffmpeg env ?cmd] => destruct (ffmpeg env cmd) as [status|] eqn:E
    end;
    try (destruct (Z.eqb_spec status 0) as [-> | Hst]);
    cbn [negb used_seed spice_idx command answer uuids_drawn];
    (do 3 (split; [reflexivity |]));
    (split; [first [discriminate | intros _; split; reflexivity] |]);
    (split; [first [ intros st [= <-] Hne; by destruct Hne
                   | intros st [=]
                   | intros st _ _; split; reflexivity ] |]);
    first [ discriminate | intros [= ->]; by destruct Hst | intros _ ];
    (split; [reflexivity |]);
    destruct (S3_BUCKET env) as [[|b bs]|]; cbn [given default andb];
    rewrite ?andb_false_r; try reflexivity;
    destruct (has_boto3 env); cbn [andb]; reflexivity.
Qed.

(** X21.  [create_variant] always hands a non-empty seed to
    [run_ffmpeg]: the seed of the request when it has one that is not
    empty, otherwise 32 fresh hexadecimal digits.  The fallback index 0
    of line 55 is therefore never taken on this path: the spice is
    always the hash of the seed modulo the number of spices. *)
Theorem seed_is_never_empty env req k :
  let run := create_variant env req k in
  (forall c r, seed req = Some (String c r) -> used_seed run = String c r)
  /\ (given (seed req) = false ->
        used_seed run = uuid_hex (uuid_at env k)
        /\ String.length (used_seed run) = 32%nat)
  /\ used_seed run <> ""
  /\ spice_idx run
     = Z.to_nat (py_hash (hash_secret env) (used_seed run) mod Z.of_nat (length spices)).
Proof.
  intros run. unfold run. clear run.
  destruct (create_variant_run env req k) as (Hseed & Hidx & _).
  rewrite Hidx, Hseed. clear Hidx Hseed.
  assert (Hgiven : given (Some (seed_of env req k)) = true).
  { unfold seed_of. destruct (seed req) as [[|c r]|]; try done; apply uuid_hex_given. }
  split; [| split; [| split]].
  - intros c r Hs. unfold seed_of. by rewrite Hs.
  - intros Hg. unfold seed_of.
    destruct (seed req) as [[|c r]|]; try discriminate;
      (split; [reflexivity | apply uuid_hex_length]).
  - intros E. rewrite E in Hgiven. discriminate.
  - unfold spice_index. by rewrite Hgiven.
Qed.

(** X22.  What becomes of the FFmpeg command decides how far a call
    goes.  The route answers with the status 500 of [run_ffmpeg] exactly
    when the command ran and left a non-zero status.  An exception that
    nothing catches ends the call exactly when the command could not be
    run, or when it succeeded, the file was not uploaded to S3 and the
    copy to the static directory failed.  The number of uuids drawn
    tells the same: one for the seed when the request has none, one for
    the temporary file, and one for the key only when FFmpeg
    succeeded. *)
Theorem ffmpeg_decides_the_answer env req k :
  let run := create_variant env req k in
  let key := key_of env req k in
  (answer run = ServerError
   <-> exists status, ffmpeg env (command run) = Exited status /\ status <> 0)
  /\ (answer run = Unhandled
      <-> ffmpeg env (command run) = NotRun
          \/ (ffmpeg env (command run) = Exited 0
              /\ s3_on env && upload_runs env key = false
              /\ copy_runs env (tmp_filename env req k) key = false))
  /\ uuids_drawn run
     = (k + (if given (seed req) then 0 else 1)
          + (match ffmpeg env (command run) with Exited 0 => 2 | _ => 1 end))%nat
  /\ command run
     = ffmpeg_command (hash_secret env) (file_url req)
         ("/tmp/" +:+ uuid_hex (uuid_at env (k + (if given (seed req) then 0 else 1)))
            +:+ ".mp4")
         (Some (used_seed run)).
Proof.
  intros run key. unfold run, key. clear run key.
  destruct (create_variant_run env req k) as (Hseed & _ & Hcmd & Hnot & Hfail & Hok).
  rewrite Hcmd, Hseed.
  assert (Hk : after_seed req k = (k + (if given (seed req) then 0 else 1))%nat).
  { unfold after_seed. destruct (seed req) as [[|c r]|]; simpl; lia. }
  assert (Hurl : delivered env req k <> ServerError).
  { unfold delivered.
    destruct (s3_on env && _); [destruct (given (CDN_URL env)) |];
      [discriminate | discriminate |].
    destruct (copy_runs env _ _); discriminate. }
  assert (Hun : delivered env req k = Unhandled
                <-> s3_on env && upload_runs env (key_of env req k) = false
                    /\ copy_runs env (tmp_filename env req k) (key_of env req k) = false).
  { unfold delivered.
    destruct (s3_on env && _);
      [destruct (given (CDN_URL env)); split; [discriminate | intros [[=] _]
                                               | discriminate | intros [[=] _]] |].
    destruct (copy_runs env _ _); split;
      [discriminate | intros [_ [=]] | done | done]. }
  destruct (ffmpeg env (command_of env req k)) as [status|] eqn:E.
  - destruct (Z.eq_dec status 0) as [-> | Hst].
    + destruct (Hok eq_refl) as [Hn Ha]. rewrite Ha, Hn.
      split; [| split; [| split]].
      * split; [done |]. intros (st & [= <-] & Hne). by destruct Hne.
      * rewrite Hun. split; [intros H; right; by split |].
        intros [[=] | [_ H]]. exact H.
      * lia.
      * unfold command_of, tmp_filename. by rewrite Hk.
    + destruct (Hfail status eq_refl Hst) as [Ha Hn]. rewrite Ha, Hn.
      split; [| split; [| split]].
      * split; [intros _; by exists status | done].
      * split; [discriminate |]. intros [[=] | [[= ->] _]]. by destruct Hst.
      * destruct status as [|q|q]; [by destruct Hst | lia | lia].
      * unfold command_of, tmp_filename. by rewrite Hk.
  - destruct (Hnot eq_refl) as [Ha Hn]. rewrite Ha, Hn.
    split; [| split; [| split]].
    + split; [discriminate |]. intros (st & [=] & _).
    + split; [intros _; by left | done].
    + lia.
    + unfold command_of, tmp_filename. by rewrite Hk.
Qed.

(** X23.  When FFmpeg succeeds, the key is 32 fresh hexadecimal digits
    and [.mp4] and owes nothing to the request.  After an upload that
    succeeded the answer is the CDN or bucket URL of the key.  When S3
    is not set up or the upload fails, the temporary file is copied to
    the static directory: the answer is the local [/static/] URL of the
    key when that copy succeeds, and the call ends with an exception
    that nothing catches when it fails. *)
Theorem upload_failure_falls_back_to_static env req k :
  let run := create_variant env req k in
  let key := key_of env req k in
  ffmpeg env (command run) = Exited 0 ->
  String.length key = 36%nat
  /\ (s3_on env && upload_runs env key = false ->
        answer run
        = if copy_runs env (tmp_filename env req k) key
          then CdnUrl ("/static/" +:+ key)
          else Unhandled)
  /\ (s3_on env && upload_runs env key = true ->
        answer run
        = if given (CDN_URL env)
          then CdnUrl (default "" (CDN_URL env) +:+ "/" +:+ key)
          else CdnUrl ("https://" +:+ default "" (S3_BUCKET env) +:+ ".s3."
                         +:+ AWS_REGION env +:+ ".amazonaws.com/" +:+ key)).
Proof.
  intros run key. unfold run, key. clear run key.
  destruct (create_variant_run env req k) as (_ & _ & Hcmd & _ & _ & Hok).
  rewrite Hcmd. intros Hruns. destruct (Hok Hruns) as [_ ->].
  unfold delivered.
  split; [| split].
  - unfold key_of.
    assert (Happ : forall a b, String.length (a +:+ b)
                               = (String.length a + String.length b)%nat).
    { intros a b. induction a as [|c a IH]; simpl; [done | by rewrite IH]. }
    rewrite Happ, uuid_hex_length. reflexivity.
  - by intros ->.
  - by intros ->.
Qed.

(** A process with S3 set up, where uploads and copies to the static
    directory go as told. *)
Definition s3_env (uploads copies : bool) : Env :=
  {| hash_secret := (0, 0);
     uuid_at := fun k => 1512366075204170929049582354406559215 + Z.of_nat k;
     ffmpeg := fun _ => Exited 0;
     has_boto3 := true;
     S3_BUCKET := Some "media";
     CDN_URL := Some "https://cdn.example";
     AWS_REGION := "us-east-1";
     upload_runs := fun _ => uploads;
     copy_runs := fun _ _ => copies |}.

Lemma upload_failure_falls_back_to_static_witness :
  let req := VariantProofs.seeded_request "abc" in
  (String.length (key_of (s3_env false true) req 0%nat) = 36%nat
   /\ answer (create_variant (s3_env false true) req 0%nat)
      = CdnUrl "/static/0123456789abcdef0123456789abcdf0.mp4")
  /\ answer (create_variant (s3_env false false) req 0%nat) = Unhandled
  /\ answer (create_variant (s3_env true false) req 0%nat)
     = CdnUrl "https://cdn.example/0123456789abcdef0123456789abcdf0.mp4".
Proof.
  intros req.
  pose proof (upload_failure_falls_back_to_static (s3_env false true) req 0%nat
                eq_refl) as (Hlen & Hstatic & _).
  pose proof (upload_failure_falls_back_to_static (s3_env false false) req 0%nat
                eq_refl) as (_ & Hcopy & _).
  pose proof (upload_failure_falls_back_to_static (s3_env true false) req 0%nat
                eq_refl) as (_ & _ & Hcdn).
  split; [split; [exact Hlen | exact (Hstatic eq_refl)] |].
  split; [exact (Hcopy eq_refl) | exact (Hcdn eq_refl)].
Defined.

(** X24.  The platform of a request has no effect at all: two requests
    that differ in the platform only run the same FFmpeg command, use
    the same seed and spice, draw the same uuids and get the same
    answer. *)
Theorem platform_is_ignored env (url : string) (p1 p2 : string) (s : option string) k :
  create_variant env {| file_url := url; platform := p1; seed := s |} k
  = create_variant env {| file_url := url; platform := p2; seed := s |} k.
Proof. reflexivity. Qed.

Lemma string_prefix_append a b : String.prefix a (a +:+ b) = true.
Proof.
  induction a as [|c a IH]; simpl; [by destruct b |].
  destruct (ascii_dec c c); [exact IH | done].
Qed.

(** X25.  The FFmpeg command always has the same nineteen words, reads
    the URL of the request and writes the temporary file; its filter is
    the base filter alone, or the base filter, a comma and one of the
    four non-empty spices: never a filter that ends in a comma. *)
Theorem ffmpeg_filter_shape secret input_url output_path seed :
  let cmd := ffmpeg_command secret input_url output_path seed in
  length cmd = 19%nat
  /\ cmd !! 3%nat = Some input_url
  /\ cmd !! 4%nat = Some "-vf"
  /\ cmd !! 5%nat = Some (vf_full secret seed)
  /\ cmd !! 18%nat = Some output_path
  /\ String.prefix vf (vf_full secret seed) = true
  /\ (vf_full secret seed = vf
      \/ exists spice, In spice spices /\ spice <> ""
                       /\ vf_full secret seed = vf +:+ "," +:+ spice).
Proof.
  intros cmd. unfold cmd, ffmpeg_command. clear cmd.
  do 5 (split; [reflexivity |]).
  destruct (spice_index_in_range secret seed) as [_ [spice Hsp]].
  assert (Hnth : nth (spice_index secret seed) spices "" = spice).
  { apply nth_lookup_Some with (d := "") in Hsp. exact Hsp. }
  assert (Hin : In spice spices).
  { apply list_elem_of_In. by eapply list_elem_of_lookup_2. }
  unfold vf_full. rewrite Hnth.
  destruct spice as [|c r].
  - split; [| by left]. unfold vf. reflexivity.
  - split; [apply string_prefix_append |].
    right. exists (String c r). split; [done |]. split; [discriminate | reflexivity].
Qed.

End VariantExtras.

(** * Properties of the publish services *)

Module PublisherProofs.
Import Publishers.

(** ** The scheduler's payloads and the request models *)

Lemma dom_keys (p : dict) (keys : list string) f :
  dom p = (list_to_set keys : gset string) ->
  is_Some (p !! f) <-> In f keys.
Proof.
  intros Hdom. rewrite <- elem_of_dom, Hdom, elem_of_list_to_set.
  apply list_elem_of_In.
Qed.

(** X26.  The payload that the scheduler builds for a network has every
    field that the request model of that network's publish service
    requires, and no field that the model does not have. *)
Theorem payload_fits_the_request_model
    account item acc_network acc_token url caption pub (p : dict) :
  Scheduler.publish_payload account item acc_network acc_token url caption
    = Ok (Some (pub, p)) ->
  (forall f, In f (required_fields pub) -> is_Some (p !! f))
  /\ (forall f, is_Some (p !! f) -> In f (required_fields pub ++ optional_fields pub)).
Proof.
  unfold Scheduler.publish_payload.
  destruct (value_eqb acc_network (VStr "instagram")).
  { unfold dict_item. destruct (account !! "external_user_id"); simpl; [| discriminate].
    intros [= <- <-]. split; intros f Hf.
    - apply (dom_keys _ ["ig_user_id"; "video_url"; "caption"; "access_token"]);
        [rewrite ?dom_insert_L, dom_singleton_L; reflexivity | exact Hf].
    - apply (dom_keys _ ["ig_user_id"; "video_url"; "caption"; "access_token"]) in Hf;
        [exact Hf | rewrite ?dom_insert_L, dom_singleton_L; reflexivity]. }
  destruct (value_eqb acc_network (VStr "tiktok")).
  { intros [= <- <-]. split; intros f Hf.
    - apply (dom_keys _ ["user_access_token"; "video_url"; "title"]);
        [rewrite ?dom_insert_L, dom_singleton_L; reflexivity | exact Hf].
    - apply (dom_keys _ ["user_access_token"; "video_url"; "title"]) in Hf;
        [| rewrite ?dom_insert_L, dom_singleton_L; reflexivity].
      apply in_or_app. by left. }
  destruct (value_eqb acc_network (VStr "youtube")); [| discriminate].
  intros [= <- <-]. split; intros f Hf.
  - apply (dom_keys _ ["oauth_access_token"; "file_url"; "title"; "description";
                       "privacy"]);
      [rewrite ?dom_insert_L, dom_singleton_L; reflexivity |].
    simpl in Hf |- *. intuition.
  - apply (dom_keys _ ["oauth_access_token"; "file_url"; "title"; "description";
                       "privacy"]) in Hf;
      [exact Hf | rewrite ?dom_insert_L, dom_singleton_L; reflexivity].
Qed.

Lemma payload_fits_the_request_model_witness :
  let p : dict :=
    {[ "user_access_token" := VStr "tok"; "video_url" := VStr "/static/v1.mp4";
       "title" := VStr "Spring sale" ]} in
  (forall f, In f (required_fields Scheduler.TT) -> is_Some (p !! f))
  /\ (forall f, is_Some (p !! f) ->
        In f (required_fields Scheduler.TT ++ optional_fields Scheduler.TT)).
Proof.
  apply (payload_fits_the_request_model SchedulerProofs.tiktok_account
           SchedulerProofs.sample_item (VStr "tiktok") (VStr "tok")
           (VStr "/static/v1.mp4") (VStr "")).
  reflexivity.
Defined.

(** The record that [create_library_item] stores. *)
Definition item_record (new_id library_id : string) (item : Api.LibraryItemCreate) : dict :=
  {[ "id" := VStr new_id; "library_id" := VStr library_id;
     "master_url" := VStr (Api.item_master_url item);
     "title" := Api.optional (Api.item_title item) ]}.

(** X27.  For an item stored by the inventory service and an empty
    caption, the title (and for YouTube also the description) of the
    publish payload is the stored title: the string of an item posted
    with a title, and [null] for an item posted without one, since the
    stored record has the key and the default [""] of
    [item.get("title", "")] does not apply. *)
Theorem empty_caption_sends_the_stored_title
    account acc_token url new_id library_id item (st : Api.Store) :
  let record := item_record new_id library_id item in
  let title := match Api.item_title item with Some t => VStr t | None => VNone end in
  (forall st', Api.create_library_item new_id library_id item st
               = Ok (Api.Body record, st') -> In record (Api.library_items st'))
  /\ (exists p : dict,
        Scheduler.publish_payload account record (VStr "tiktok") acc_token url (VStr "")
          = Ok (Some (Scheduler.TT, p))
        /\ p !! "title" = Some title)
  /\ (exists p : dict,
        Scheduler.publish_payload account record (VStr "youtube") acc_token url (VStr "")
          = Ok (Some (Scheduler.YT, p))
        /\ p !! "title" = Some title /\ p !! "description" = Some title).
Proof.
  intros record title. split; [| split].
  - intros st'. unfold Api.create_library_item.
    destruct (Api.any_with _ _ _) as [[|]|]; simpl; try discriminate.
    intros [= <-]. simpl. apply in_or_app. right. by left.
  - eexists. split; [reflexivity |].
    unfold title. destruct item as [master [t|]]; reflexivity.
  - eexists. split; [reflexivity |].
    unfold title. destruct item as [master [t|]]; split; reflexivity.
Qed.

(** ** The protocols of the publish services *)

(** The first request of the Instagram service. *)
Definition ig_container (req : IGPublishRequest) : call :=
  IgCreateContainer (ig_user_id req) (ig_video_url req) (ig_caption req)
    (ig_access_token req).

(** X28.  The Instagram service always starts with the container
    request.  It asks to publish only after that request succeeded with
    a JSON object holding a true [id] (or else [creation_id]), and then
    for that id, the same user and the same token; it returns a body
    only when the publish request succeeded too, and that body is the
    JSON that request answered. *)
Theorem ig_publishes_the_created_container p req k :
  let reply := fst (ig_publish p req k) in
  let calls := snd (ig_publish p req k) in
  head calls = Some (ig_container req)
  /\ (forall user_id creation_id token,
        In (IgMediaPublish user_id creation_id token) calls ->
        user_id = ig_user_id req /\ token = ig_access_token req
        /\ truthy creation_id = true
        /\ exists resp d,
             checked p k (ig_container req) = Some resp
             /\ body_json resp = Some (JObject d)
             /\ creation_id = py_or (dict_get d "id") (dict_get d "creation_id"))
  /\ (forall j, reply = Return j ->
        exists creation_id publish_resp,
          calls = [ig_container req;
                   IgMediaPublish (ig_user_id req) creation_id (ig_access_token req)]
          /\ checked p (S k)
               (IgMediaPublish (ig_user_id req) creation_id (ig_access_token req))
             = Some publish_resp
          /\ body_json publish_resp = Some j).
Proof.
  intros reply calls. unfold reply, calls, ig_publish. clear reply calls.
  fold (ig_container req).
  destruct (checked p k (ig_container req)) as [resp|] eqn:Hc; simpl.
  2:{ split; [done |]. split; [intros ? ? ? [H | []]; discriminate | discriminate]. }
  destruct (body_json resp) as [[d|v]|] eqn:Hj; simpl.
  2,3: (split; [done |];
        split; [intros ? ? ? [H | []]; discriminate | discriminate]).
  destruct (truthy (py_or (dict_get d "id") (dict_get d "creation_id"))) eqn:Ht; simpl.
  2:{ split; [done |]. split; [intros ? ? ? [H | []]; discriminate | discriminate]. }
  set (cid := py_or (dict_get d "id") (dict_get d "creation_id")) in *.
  assert (Hcalls : forall user_id creation_id token,
            In (IgMediaPublish user_id creation_id token)
              [ig_container req;
               IgMediaPublish (ig_user_id req) cid (ig_access_token req)] ->
            user_id = ig_user_id req /\ token = ig_access_token req
            /\ truthy creation_id = true
            /\ exists resp0 d0,
                 Some resp = Some resp0
                 /\ body_json resp0 = Some (JObject d0)
                 /\ creation_id = py_or (dict_get d0 "id") (dict_get d0 "creation_id")).
  { intros user_id creation_id token [H | [H | []]]; [discriminate |].
    injection H as <- <- <-. repeat split; try done. by exists resp, d. }
  destruct (checked p (S k) _) as [publish_resp|] eqn:Hp; simpl.
  2:{ split; [done |]. split; [exact Hcalls | discriminate]. }
  destruct (body_json publish_resp) as [j'|] eqn:Hj'; simpl.
  2:{ split; [done |]. split; [exact Hcalls | discriminate]. }
  split; [done |]. split; [exact Hcalls |].
  intros j [= <-]. by exists cid, publish_resp.
Qed.

(** The first request of the YouTube service. *)
Definition yt_init (req : YouTubePublishRequest) : call :=
  YtInit (oauth_access_token req) (yt_title req)
    (or_default (yt_description req) "") (or_default (yt_privacy req) "public").

(** X29.  The YouTube service always starts with the init request, with
    an empty description and the privacy [public] where the request has
    none.  It uploads only after the init request succeeded with a
    [Location] and the file was fetched, and then to that location, with
    the fetched bytes and the token of the request; it returns a body
    only after the three requests, and a failure of one of them is
    answered before the next request is made. *)
Theorem yt_uploads_what_it_fetched p req k :
  let reply := fst (yt_publish p req k) in
  let calls := snd (yt_publish p req k) in
  head calls = Some (yt_init req)
  /\ (forall upload_url bearer video_bytes,
        In (YtUpload upload_url bearer video_bytes) calls ->
        bearer = oauth_access_token req
        /\ upload_url <> ""
        /\ exists init_resp file_resp,
             checked p k (yt_init req) = Some init_resp
             /\ location init_resp = Some upload_url
             /\ checked p (S k) (FetchFile (yt_file_url req)) = Some file_resp
             /\ video_bytes = content file_resp)
  /\ (forall body, reply = Return body -> length calls = 3%nat)
  /\ (checked p k (yt_init req) = None ->
        reply = HTTPError YouTubeInitFailed /\ calls = [yt_init req])
  /\ (forall init_resp upload_url,
        checked p k (yt_init req) = Some init_resp ->
        location init_resp = Some upload_url -> upload_url <> "" ->
        checked p (S k) (FetchFile (yt_file_url req)) = None ->
        reply = HTTPError FetchingFileFailed
        /\ calls = [yt_init req; FetchFile (yt_file_url req)]).
Proof.
  intros reply calls. unfold reply, calls, yt_publish. clear reply calls.
  fold (yt_init req).
  destruct (checked p k (yt_init req)) as [init_resp|] eqn:Hi; simpl.
  2:{ split; [done |]. split; [intros ? ? ? [H | []]; discriminate |].
      split; [discriminate |]. split; [done | discriminate]. }
  destruct (location init_resp) as [[|a b]|] eqn:Hl; simpl.
  1,3: (split; [done |]; split; [intros ? ? ? [H | []]; discriminate |];
        split; [discriminate |]; split; [intros H; discriminate H |];
        intros ? ? [= <-] Hu Hne; rewrite Hl in Hu; try discriminate;
        injection Hu as <-; by destruct Hne).
  destruct (checked p (S k) (FetchFile (yt_file_url req))) as [file_resp|] eqn:Hf; simpl.
  2:{ split; [done |].
      split; [intros ? ? ? [H | [H | []]]; discriminate |].
      split; [discriminate |]. split; [discriminate | done]. }
  assert (Hup : forall upload_url bearer video_bytes,
            In (YtUpload upload_url bearer video_bytes)
              [yt_init req; FetchFile (yt_file_url req);
               YtUpload (String a b) (oauth_access_token req) (content file_resp)] ->
            bearer = oauth_access_token req
            /\ upload_url <> ""
            /\ exists init_resp0 file_resp0,
                 Some init_resp = Some init_resp0
                 /\ location init_resp0 = Some upload_url
                 /\ Some file_resp = Some file_resp0
                 /\ video_bytes = content file_resp0).
  { intros upload_url bearer video_bytes [H | [H | [H | []]]]; try discriminate.
    injection H as <- <- <-. repeat split; try done. by exists init_resp, file_resp. }
  destruct (checked p (S (S k)) _) as [upload_resp|]; simpl.
  2:{ split; [done |]. split; [exact Hup |]. split; [discriminate |].
      split; discriminate. }
  destruct (body_json upload_resp); simpl;
    (split; [done |]; split; [exact Hup |]; split; [done |]; split; discriminate).
Qed.

(** The one request of the TikTok service. *)
Definition tt_init (req : TikTokPublishRequest) : call :=
  TtVideoInit (user_access_token req) (tt_title req) (privacy_level req)
    (disable_duet req) (disable_stitch req) (disable_comment req) (tt_video_url req).

(** X30.  The TikTok service makes exactly one request and does not look
    at its status: whenever TikTok answers with a JSON body, an error
    status included, the service returns that status and that body; it
    answers 500 only when the request raised or the body is not JSON. *)
Theorem tt_forwards_any_status p req k :
  snd (tt_publish p req k) = [tt_init req]
  /\ (forall st data,
        fst (tt_publish p req k) = Return (st, data)
        <-> exists resp, p k (tt_init req) = Some resp
                         /\ status resp = st /\ body_json resp = Some data)
  /\ (fst (tt_publish p req k) = HTTPError TikTokPublishFailed
      <-> p k (tt_init req) = None)
  /\ (fst (tt_publish p req k) = HTTPError TikTokNotJson
      <-> exists resp, p k (tt_init req) = Some resp /\ body_json resp = None).
Proof.
  unfold tt_publish. fold (tt_init req).
  destruct (p k (tt_init req)) as [resp|]; simpl.
  - destruct (body_json resp) as [data|] eqn:Hj; simpl.
    + split; [done |]. split; [| split].
      * intros st data'. split.
        -- intros [= <- <-]. by exists resp.
        -- intros (resp' & [= <-] & <- & Hd). rewrite Hj in Hd. by injection Hd as <-.
      * split; discriminate.
      * split; [discriminate |]. intros (resp' & [= <-] & Hd). congruence.
    + split; [done |]. split; [| split].
      * intros st data'. split; [discriminate |].
        intros (resp' & [= <-] & _ & Hd). congruence.
      * split; discriminate.
      * split; [| done]. intros _. by exists resp.
  - split; [done |]. split; [| split].
    + intros st data. split; [discriminate |]. by intros (resp & [=] & _).
    + done.
    + split; [discriminate |]. by intros (resp & [=] & _).
Qed.


End PublisherProofs.
